(** * Product-management backend: a shallow embedding of the request handlers

    The development follows the Express controllers of the backend:
    [protect] (authController), [deleteCategory] (categoryController) and
    [getProducts], [createProduct], [updateProduct] (productController),
    together with the Mongoose schema of [Product].

    JavaScript values are embedded as the inductive [jsval]; a handler is a
    computation in a small state-and-exception monad over the [World]
    (the document store and the log of calls made to the media host).
    What the language runtime and the external collaborators compute
    (string-to-number conversion, [JSON.parse], the media host, token
    verification) is taken through the interfaces [JsRuntime] and
    [Services]; every theorem holds for all their implementations, and
    [Demo] provides one for running the handlers on concrete requests.

    The store is the three collections as lists, in their natural order;
    a lookup by id or by name is the first match. An id is the text of an
    ObjectId, 24 hexadecimal digits; a lookup by an id that is not throws,
    as the cast of the store does. A lost connection and the console
    output of the handlers are not part of the model; what the schemas
    reject on [create] and [save] is. *)

From Stdlib Require Import List String Ascii Bool NArith ZArith QArith Qabs Lia.
From Stdlib Require Import Sorting.Sorted Sorting.Permutation.
From Stdlib Require Import Decimal DecimalString.
Import ListNotations.

Set Warnings "-register-all".
Local Open Scope string_scope.
Local Open Scope Z_scope.
Local Open Scope list_scope.

(** ** JavaScript values *)

(** Numbers are exact rationals plus NaN; the infinities and the sign of
    zero, which no JSON body carries, are left out. *)
Inductive jsnum : Type :=
| NaN
| Fin (q : Q).

Inductive jsval : Type :=
| JUndef
| JNull
| JBool (b : bool)
| JNum (n : jsnum)
| JStr (s : string)
| JArr (l : list jsval)
| JObj (o : list (string * jsval)).

Definition Qltb (a b : Q) : bool := negb (Qle_bool b a).

(** [a < b] and [a <= b] on numbers: false as soon as one side is NaN. *)
Definition num_lt (a b : jsnum) : bool :=
  match a, b with
  | Fin x, Fin y => Qltb x y
  | _, _ => false
  end.

Definition num_le (a b : jsnum) : bool :=
  match a, b with
  | Fin x, Fin y => Qle_bool x y
  | _, _ => false
  end.

Definition str_empty (s : string) : bool :=
  match s with EmptyString => true | _ => false end.

(** ToBoolean. *)
Definition truthy (v : jsval) : bool :=
  match v with
  | JUndef | JNull => false
  | JBool b => b
  | JNum NaN => false
  | JNum (Fin q) => negb (Qeq_bool q 0)
  | JStr s => negb (str_empty s)
  | JArr _ | JObj _ => true
  end.

Definition is_undefined (v : jsval) : bool :=
  match v with JUndef => true | _ => false end.

Definition isArray (v : jsval) : bool :=
  match v with JArr _ => true | _ => false end.

(** [Array.isArray(x) ? x[0] : x], the way every form field is read. *)
Definition first_of (v : jsval) : jsval :=
  match v with
  | JArr l => hd JUndef l
  | _ => v
  end.

(** [x ? (Array.isArray(x) ? x[0] : x) : undefined], the way
    [updateProduct] reads a field. *)
Definition first_if_truthy (v : jsval) : jsval :=
  if truthy v then first_of v else JUndef.

(** ** Strings *)

(** A string is a sequence of code units; [ascii] stands for a code unit. *)
Definition is_ws (c : ascii) : bool :=
  let n := nat_of_ascii c in
  ((9 <=? n)%nat && (n <=? 13)%nat) || (n =? 32)%nat || (n =? 160)%nat.

Fixpoint trim_start (s : string) : string :=
  match s with
  | String c r => if is_ws c then trim_start r else s
  | EmptyString => EmptyString
  end.

Fixpoint rev_string (acc s : string) : string :=
  match s with
  | EmptyString => acc
  | String c r => rev_string (String c acc) r
  end.

Definition trim_end (s : string) : string :=
  rev_string EmptyString (trim_start (rev_string EmptyString s)).

Definition trim (s : string) : string := trim_end (trim_start s).

Definition startsWith (s p : string) : bool := String.prefix p s.

(** [s.includes(sub)]: [sub] occurs in [s] as a substring. *)
Fixpoint includes (s sub : string) : bool :=
  String.prefix sub s ||
  match s with
  | EmptyString => false
  | String _ r => includes r sub
  end.

(** [s.split(sep)] for a one-character separator. *)
Fixpoint split_aux (sep : ascii) (cur : string) (s : string) : list string :=
  match s with
  | EmptyString => [rev_string EmptyString cur]
  | String c r =>
      if Ascii.eqb c sep then rev_string EmptyString cur :: split_aux sep EmptyString r
      else split_aux sep (String c cur) r
  end.

Definition split (sep : ascii) (s : string) : list string :=
  split_aux sep EmptyString s.

(** *** Object ids *)

Definition is_hex_digit (c : ascii) : bool :=
  let n := nat_of_ascii c in
  ((48 <=? n)%nat && (n <=? 57)%nat)
  || ((97 <=? n)%nat && (n <=? 102)%nat)
  || ((65 <=? n)%nat && (n <=? 70)%nat).

Fixpoint all_hex (s : string) : bool :=
  match s with
  | EmptyString => true
  | String c r => is_hex_digit c && all_hex r
  end.

(** What the store casts to an ObjectId: a string of 24 hexadecimal
    digits. *)
Definition is_object_id (s : string) : bool :=
  (String.length s =? 24)%nat && all_hex s.

Definition hex_digit (n : N) : ascii :=
  if (n <? 10)%N then ascii_of_N (48 + n) else ascii_of_N (87 + n).

(** The last [k] hexadecimal digits of [n], in front of [acc]. *)
Fixpoint hex_digits (k : nat) (n : N) (acc : string) : string :=
  match k with
  | O => acc
  | S k' => hex_digits k' (n / 16)%N (String (hex_digit (n mod 16)%N) acc)
  end.

(** [ObjectId.toString()]: the twelve bytes as 24 hexadecimal digits. *)
Definition oid_text (n : N) : string := hex_digits 24 n EmptyString.

(** ** The store *)

Record User : Type := mkUser {
  user_id : string;
  username : string;
  user_name : string;
  email : string
}.

Record Category : Type := mkCategory {
  cat_id : string;
  cat_name : string
}.

Record Product : Type := mkProduct {
  _id : string;
  name : string;
  price : Q;
  category : string;
  stock : Z;
  images : list string
}.

Record Db : Type := mkDb {
  users : list User;
  categories : list Category;
  products : list Product
}.

(** The world a request runs in: the store, the number of documents created
    so far (the source of fresh ids) and the sources submitted to
    [cloudinary.uploader.upload], oldest first. *)
Record World : Type := mkWorld {
  db : Db;
  created : nat;
  uploads : list string
}.

(** ** Interfaces of the runtime and of the collaborators *)

Class JsRuntime : Type := {
  (** ToNumber on a non-empty string *)
  StringToNumber : string -> jsnum;
  (** [parseFloat] and [parseInt] on a string; [None] is NaN *)
  parseFloat_s : string -> jsnum;
  parseInt_s : string -> option Z;
  (** ToString on a value that is not a string *)
  ToString : jsval -> string;
  (** [JSON.parse]; [None] is a thrown SyntaxError *)
  JSON_parse : string -> option jsval
}.

Class Services : Type := {
  (** [cloudinary.uploader.upload]: given the earlier calls and the source,
      the [secure_url] of the stored image, or [None] when the call fails *)
  cloudinary_upload : list string -> string -> option string;
  (** [jwt.verify(token, JWT_SECRET)]: [None] when it throws (malformed
      token, wrong signature, expired); otherwise the [id] of the payload,
      if it has one *)
  jwt_verify : string -> option (option string);
  (** the store's [$regex] match with option [i] *)
  regex_test_i : string -> string -> bool;
  (** the ObjectId given to the [n]-th created document, as the number
      that its twelve bytes write *)
  new_oid_value : nat -> N
}.

(** The id given to the [n]-th created document. *)
Definition new_oid {sv : Services} (n : nat) : string :=
  oid_text (new_oid_value n).

(** ** Computations: state and exceptions *)

Inductive exn : Type :=
| TypeError
| SyntaxError
| UploadError
| FormError
| TokenError
| StoreError.

Inductive outcome (A : Type) : Type :=
| Val (a : A)
| Thrown (e : exn).
Arguments Val {A} a.
Arguments Thrown {A} e.

Definition M (A : Type) : Type := World -> outcome A * World.

Definition ret {A} (a : A) : M A := fun w => (Val a, w).

Definition bind {A B} (m : M A) (k : A -> M B) : M B :=
  fun w =>
    match m w with
    | (Val a, w') => k a w'
    | (Thrown e, w') => (Thrown e, w')
    end.

Definition throw {A} (e : exn) : M A := fun w => (Thrown e, w).

(** [try { m } catch (error) { h }] *)
Definition try_catch {A} (m : M A) (h : exn -> M A) : M A :=
  fun w =>
    match m w with
    | (Val a, w') => (Val a, w')
    | (Thrown e, w') => h e w'
    end.

Definition get_db : M Db := fun w => (Val (db w), w).

Definition put_db (d : Db) : M unit :=
  fun w => (Val tt, mkWorld d (created w) (uploads w)).

Declare Scope js_scope.
Delimit Scope js_scope with js.
Notation "x <- m ;; k" := (bind m (fun x => k))
  (at level 61, m at next level, right associativity) : js_scope.
Notation "m ;;; k" := (bind m (fun _ => k))
  (at level 61, right associativity) : js_scope.

Local Open Scope js_scope.

(** ** Coercions of the runtime *)

Section Coercions.
Context {rt : JsRuntime}.

(** ToString. *)
Definition to_str (v : jsval) : string :=
  match v with
  | JStr s => s
  | _ => ToString v
  end.

(** ToNumber, as the comparisons [price <= 0] and [stock < 0] apply it. *)
Definition to_number (v : jsval) : jsnum :=
  match v with
  | JUndef => NaN
  | JNull => Fin 0
  | JBool b => Fin (if b then 1 else 0)
  | JNum n => n
  | _ => let s := to_str v in
         if str_empty s then Fin 0 else StringToNumber s
  end.

(** [parseFloat(v)]: a number survives the round trip through its string. *)
Definition parseFloat (v : jsval) : jsnum :=
  match v with
  | JNum n => n
  | _ => parseFloat_s (to_str v)
  end.

(** The magnitudes that ToString prints in plain decimal notation. *)
Definition plain_decimal (q : Q) : bool :=
  Qeq_bool q 0 ||
  (Qle_bool (1 # 1000000) (Qabs q) && Qltb (Qabs q) (1000000000000000000000 # 1)).

(** [parseInt(v)]: on a number printed in plain notation, truncation. *)
Definition parseInt (v : jsval) : option Z :=
  match v with
  | JNum NaN => None
  | JNum (Fin q) =>
      if plain_decimal q then Some (Z.quot (Qnum q) (Zpos (Qden q)))
      else parseInt_s (to_str v)
  | _ => parseInt_s (to_str v)
  end.

(** [v.trim()]: only strings have the method. *)
Definition js_trim (v : jsval) : M string :=
  match v with
  | JStr s => ret (trim s)
  | _ => throw TypeError
  end.

End Coercions.

(** ** Requests and responses *)

Record Fields : Type := mkFields {
  f_name : jsval;
  f_price : jsval;
  f_category : jsval;
  f_stock : jsval;
  f_existingImages : jsval;
  f_images : jsval
}.

Record File : Type := mkFile {
  mimetype : option string;
  filepath : string;
  originalFilename : string
}.

Record Query : Type := mkQuery {
  q_search : option string;
  q_category : option string;
  q_sortBy : option string;
  q_sortOrder : option string;
  q_page : option string;
  q_limit : option string
}.

(** [body] is [req.body] as the JSON body parser leaves it; [form] is what
    formidable makes of the request: [None] when its callback gets an
    error, otherwise the fields and [files.images] (absent, or the files
    under that key). *)
Record Request : Type := mkRequest {
  authorization : option string;
  content_type : option string;
  params_id : string;
  query : Query;
  body : Fields;
  form : option (Fields * option (list File))
}.

Record Pagination : Type := mkPagination {
  currentPage : Z;
  totalPages : option Z;
  totalItems : Z;
  itemsPerPage : Z
}.

Inductive payload : Type :=
| ProductData (message : string) (data : Product)
| ProductList (items : list Product) (pagination : Pagination)
| Message (message : string)
| Errors (message : string) (errors : list (string * string))
| Error (message : string) (error : string).

Record response : Type := mkResponse {
  status : Z;
  json : payload
}.

Definition server_error : response :=
  mkResponse 500 (Error "Server error" "SERVER_ERROR").

Definition is_multipart (req : Request) : bool :=
  match content_type req with
  | Some ct => includes ct "multipart/form-data"
  | None => false
  end.

Definition parseFormData (req : Request) : M (Fields * option (list File)) :=
  match form req with
  | Some parsed => ret parsed
  | None => throw FormError
  end.

(** [fields] and [files.images] as both product handlers obtain them. *)
Definition read_form (req : Request) : M (Fields * option (list File)) :=
  if is_multipart req then parseFormData req else ret (body req, None).

(** ** The Product schema and the store operations *)

Definition findById {A} (id_of : A -> string) (id : string) (l : list A)
  : option A :=
  find (fun x => String.eqb (id_of x) id) l.

(** [Model.findById(id)] on an id that comes with the request: the id is
    cast to an ObjectId first, and the cast throws (CastError) when the id
    is not the text of one. *)
Definition Model_findById {A} (id_of : A -> string) (id : string)
    (l : list A) : M (option A) :=
  if is_object_id id then ret (findById id_of id l) else throw StoreError.

(** [Category.findOne({ name })] *)
Definition findCategoryByName (nm : string) (l : list Category)
  : option Category :=
  find (fun c => String.eqb (cat_name c) nm) l.

(** [Product.findOne({ category })] *)
Definition findProductByCategory (nm : string) (l : list Product)
  : option Product :=
  find (fun p => String.eqb (category p) nm) l.

Fixpoint replaceById (p : Product) (l : list Product) : list Product :=
  match l with
  | [] => []
  | x :: r => if String.eqb (_id x) (_id p) then p :: r else x :: replaceById p r
  end.

Fixpoint removeById {A} (id_of : A -> string) (id : string) (l : list A)
  : list A :=
  match l with
  | [] => []
  | x :: r => if String.eqb (id_of x) id then r else x :: removeById id_of id r
  end.

(** The field values handed to Mongoose, before casting. *)
Record Draft : Type := mkDraft {
  d_name : string;
  d_price : jsnum;
  d_category : string;
  d_stock : option Z;
  d_images : list jsval
}.

(** The cast of [images: [String]]: an entry that is not a string (an array
    is what the handlers can put there) fails the cast. *)
Fixpoint cast_images (l : list jsval) : option (list string) :=
  match l with
  | [] => Some []
  | JStr s :: r =>
      match cast_images r with
      | Some r' => Some (s :: r')
      | None => None
      end
  | _ :: _ => None
  end.

(** The [trim: true] setter of [name] and [category], run when a value is
    assigned to the path. *)
Definition schema_trim (s : string) : string := trim s.

(** Casting and validation by the schema, as [create] and [save] run them
    over the paths of the document: [required], [minlength]/[maxlength] of
    [name], [min] of [price] and [stock], and the validator of [images].
    [None] is the error they throw. *)
Definition validate (id : string) (d : Draft) : option Product :=
  match d_price d, d_stock d, cast_images (d_images d) with
  | Fin q, Some z, Some imgs =>
      if (2 <=? length (d_name d))%nat && (length (d_name d) <=? 200)%nat
         && Qle_bool (1 # 100) q
         && negb (str_empty (d_category d))
         && (0 <=? z)
         && (List.length imgs <=? 10)%nat
      then Some (mkProduct id (d_name d) q (d_category d) z imgs)
      else None
  | _, _, _ => None
  end.

Definition set_products (d : Db) (ps : list Product) : Db :=
  mkDb (users d) (categories d) ps.

Definition set_categories (d : Db) (cs : list Category) : Db :=
  mkDb (users d) cs (products d).

Section Handlers.
Context {rt : JsRuntime} {sv : Services}.

(** [Product.create(doc)] *)
Definition Product_create (d : Draft) : M Product :=
  fun w =>
    match validate (new_oid (created w)) d with
    | Some p =>
        (Val p, mkWorld (set_products (db w) (products (db w) ++ [p]))
                        (S (created w)) (uploads w))
    | None => (Thrown StoreError, w)
    end.

(** [product.save()] *)
Definition Product_save (id : string) (d : Draft) : M Product :=
  fun w =>
    match validate id d with
    | Some p =>
        (Val p, mkWorld (set_products (db w) (replaceById p (products (db w))))
                        (created w) (uploads w))
    | None => (Thrown StoreError, w)
    end.

(** ** Media uploads *)

(** One call of [cloudinary.uploader.upload]; a failed call throws. Both
    helpers of the controller come down to it. *)
Definition upload (source : string) : M string :=
  fun w =>
    let w' := mkWorld (db w) (created w) (uploads w ++ [source]) in
    match cloudinary_upload (uploads w) source with
    | Some url => (Val url, w')
    | None => (Thrown UploadError, w')
    end.

Definition uploadFileToCloudinary (filePath : string) : M string :=
  upload filePath.

Definition uploadImageFromUrl (imageUrl : string) : M string :=
  upload imageUrl.

Definition is_image (f : File) : bool :=
  match mimetype f with
  | Some m => startsWith m "image/"
  | None => false
  end.

(** The loop over [fileArray]: each image file is uploaded and its URL
    pushed; a failed upload is caught and the loop goes on. *)
Fixpoint upload_files (files : list File) (processedImages : list jsval)
  : M (list jsval) :=
  match files with
  | [] => ret processedImages
  | file :: rest =>
      acc <- try_catch
               (if is_image file
                then (cloudinaryUrl <- uploadFileToCloudinary (filepath file) ;;
                      ret (processedImages ++ [JStr cloudinaryUrl]))
                else ret processedImages)
               (fun _ => ret processedImages) ;;
      upload_files rest acc
  end.

Definition upload_all (files : option (list File)) : M (list jsval) :=
  match files with
  | Some fileArray => upload_files fileArray []
  | None => ret []
  end.

(** [existingUrls.forEach(url => { if (url && url.includes('cloudinary.com'))
    processedImages.push(url) })]. A string is tested for the substring, an
    array for the element; any other truthy value has no [includes] and
    throws, which ends the loop with the pushes made so far. *)
Fixpoint keep_urls (existingUrls : list jsval) (processedImages : list jsval)
  : list jsval :=
  match existingUrls with
  | [] => processedImages
  | url :: rest =>
      if truthy url then
        match url with
        | JStr s =>
            if includes s "cloudinary.com"
            then keep_urls rest (processedImages ++ [url])
            else keep_urls rest processedImages
        | JArr l =>
            if existsb (fun x => match x with
                                 | JStr s => String.eqb s "cloudinary.com"
                                 | _ => false
                                 end) l
            then keep_urls rest (processedImages ++ [url])
            else keep_urls rest processedImages
        | _ => processedImages
        end
      else keep_urls rest processedImages
  end.

(** The block guarded by [if (existingImages)]: parse, filter and push; a
    SyntaxError is caught. *)
Definition keep_existing (existingImages : jsval) (processedImages : list jsval)
  : list jsval :=
  if truthy existingImages then
    match JSON_parse (to_str existingImages) with
    | Some (JArr existingUrls) => keep_urls existingUrls processedImages
    | _ => processedImages
    end
  else processedImages.

(** ** createProduct *)

Definition validation_error (errors : list (string * string)) : response :=
  mkResponse 400 (Errors "Validation error" errors).

Definition invalid_category : response :=
  mkResponse 400 (Errors "Category does not exist"
                         [("category", "Invalid category")]).

Definition err (flag : bool) (field message : string) : list (string * string) :=
  if flag then [(field, message)] else [].

(** The four checks of [createProduct], in the order the source makes them. *)
Definition create_errors (name price category stock : jsval)
  : M (list (string * string)) :=
  e_name <- (if negb (truthy name) then ret true
             else (t <- js_trim name ;; ret (length t <? 2)%nat)) ;;
  let e_price := negb (truthy price) || num_le (to_number price) (Fin 0) in
  e_category <- (if negb (truthy category) then ret true
                 else (t <- js_trim category ;; ret (length t =? 0)%nat)) ;;
  let e_stock := is_undefined stock || num_lt (to_number stock) (Fin 0) in
  ret (err e_name "name"
           "Product name is required and must be at least 2 characters"
       ++ err e_price "price" "Price must be greater than 0"
       ++ err e_category "category" "Category is required"
       ++ err e_stock "stock" "Stock must be 0 or greater").

Definition createProduct (req : Request) : M response :=
  try_catch
    (ff <- read_form req ;;
     let fields := fst ff in
     let files := snd ff in
     let name := first_of (f_name fields) in
     let price := first_of (f_price fields) in
     let category := first_of (f_category fields) in
     let stock := first_of (f_stock fields) in
     errors <- create_errors name price category stock ;;
     if (0 <? List.length errors)%nat then ret (validation_error errors)
     else
       cname <- js_trim category ;;
       d <- get_db ;;
       match findCategoryByName cname (categories d) with
       | None => ret invalid_category
       | Some _ =>
           uploaded <- upload_all files ;;
           let existingImages := first_of (f_existingImages fields) in
           let processedImages := keep_existing existingImages uploaded in
           nm <- js_trim name ;;
           product <- Product_create
                        (mkDraft (schema_trim nm) (parseFloat price)
                                 (schema_trim cname) (parseInt stock)
                                 processedImages) ;;
           ret (mkResponse 201
                  (ProductData "Product created successfully" product))
       end)
    (fun _ => ret server_error).

(** ** updateProduct *)

Definition not_found (what : string) : response :=
  mkResponse 404 (Error what "NOT_FOUND").

(** The checks of [updateProduct]: a field is checked when it is not
    [undefined]. *)
Definition update_errors (name price category stock : jsval)
  : M (list (string * string)) :=
  e_name <- (if is_undefined name then ret false
             else (t <- js_trim name ;; ret (length t <? 2)%nat)) ;;
  let e_price := negb (is_undefined price)
                 && num_le (to_number price) (Fin 0) in
  e_category <- (if is_undefined category then ret false
                 else (t <- js_trim category ;; ret (length t =? 0)%nat)) ;;
  let e_stock := negb (is_undefined stock)
                 && num_lt (to_number stock) (Fin 0) in
  ret (err e_name "name" "Product name must be at least 2 characters"
       ++ err e_price "price" "Price must be greater than 0"
       ++ err e_category "category" "Category is required"
       ++ err e_stock "stock" "Stock must be 0 or greater").

(** The loop over [req.body.images] of the JSON path: a URL of the media
    host is pushed as it is, another URL is uploaded first; a failure is
    caught and the loop goes on. *)
Fixpoint legacy_images (urls : list jsval) (processedImages : list jsval)
  : M (list jsval) :=
  match urls with
  | [] => ret processedImages
  | imageUrl :: rest =>
      acc <- match imageUrl with
             | JStr s =>
                 if negb (str_empty s) && negb (str_empty (trim s)) then
                   try_catch
                     (if includes s "cloudinary.com"
                      then ret (processedImages ++ [imageUrl])
                      else if includes s "http"
                      then (cloudinaryUrl <- uploadImageFromUrl s ;;
                            ret (processedImages ++ [JStr cloudinaryUrl]))
                      else ret processedImages)
                     (fun _ => ret processedImages)
                 else ret processedImages
             | _ => ret processedImages
             end ;;
      legacy_images rest acc
  end.

(** Lines 349-424 of the controller: the candidate image list. *)
Definition reconcile_images (req : Request) (product : Product)
    (fields : Fields) (files : option (list File)) : M (list jsval) :=
  uploaded <- upload_all files ;;
  let existingImages := first_if_truthy (f_existingImages fields) in
  let processedImages := keep_existing existingImages uploaded in
  let processedImages :=
    if (List.length processedImages =? 0)%nat
       && (match files with Some _ => false | None => true end)
       && negb (truthy existingImages)
    then map JStr (images product)
    else processedImages in
  if negb (is_multipart req) then
    match f_images (body req) with
    | JArr (u :: us) => legacy_images (u :: us) []
    | _ => ret processedImages
    end
  else ret processedImages.

(** The guard of [product.images = processedImages]. *)
Definition images_assigned (req : Request) (fields : Fields)
    (files : option (list File)) (processedImages : list jsval) : bool :=
  (match files with Some _ => true | None => false end)
  || truthy (first_if_truthy (f_existingImages fields))
  || (truthy (f_images (body req)) && isArray (f_images (body req)))
  || (0 <? List.length processedImages)%nat.

(** [if (category) { ... Category.findOne({ name: category.trim() }) ... }]:
    whether the update may go on. *)
Definition category_check (category : jsval) : M bool :=
  if truthy category then
    cname <- js_trim category ;;
    d <- get_db ;;
    ret (match findCategoryByName cname (categories d) with
         | Some _ => true
         | None => false
         end)
  else ret true.

(** [if (v !== undefined) product.path = v.trim()], with the setter of the
    path: the value the path has afterwards. *)
Definition assign_text (v : jsval) (current : string) : M string :=
  if is_undefined v then ret current
  else (t <- js_trim v ;; ret (schema_trim t)).

Definition updateProduct (req : Request) : M response :=
  try_catch
    (d <- get_db ;;
     found <- Model_findById _id (params_id req) (products d) ;;
     match found with
     | None => ret (not_found "Product not found")
     | Some product =>
         ff <- read_form req ;;
         let fields := fst ff in
         let files := snd ff in
         let name_in := first_if_truthy (f_name fields) in
         let price_in := first_if_truthy (f_price fields) in
         let category_in := first_if_truthy (f_category fields) in
         let stock_in := first_if_truthy (f_stock fields) in
         errors <- update_errors name_in price_in category_in stock_in ;;
         if (0 <? List.length errors)%nat then ret (validation_error errors)
         else
           categoryExists <- category_check category_in ;;
           if negb categoryExists then ret invalid_category
           else
             processedImages <- reconcile_images req product fields files ;;
             new_name <- assign_text name_in (name product) ;;
             new_category <- assign_text category_in (category product) ;;
             let new_price := if is_undefined price_in
                              then Fin (price product)
                              else parseFloat price_in in
             let new_stock := if is_undefined stock_in
                              then Some (stock product)
                              else parseInt stock_in in
             let new_images :=
               if images_assigned req fields files processedImages
               then processedImages
               else map JStr (images product) in
             saved <- Product_save (_id product)
                        (mkDraft new_name new_price new_category new_stock
                                 new_images) ;;
             ret (mkResponse 200
                    (ProductData "Product updated successfully" saved))
     end)
    (fun _ => ret server_error).

(** ** getProducts *)

(** The value a document offers to the sort: the scalar paths of the
    embedded record; any other path counts as missing. *)
Inductive sort_key : Type :=
| KMissing
| KNum (q : Q)
| KStr (s : string).

Definition key_of (sortBy : string) (p : Product) : sort_key :=
  if String.eqb sortBy "name" then KStr (name p)
  else if String.eqb sortBy "price" then KNum (price p)
  else if String.eqb sortBy "stock" then KNum (inject_Z (stock p))
  else if String.eqb sortBy "category" then KStr (category p)
  else if String.eqb sortBy "_id" then KStr (_id p)
  else KMissing.

(** The store's order on values: missing, then numbers, then strings. *)
Definition key_leb (a b : sort_key) : bool :=
  match a, b with
  | KMissing, _ => true
  | KNum _, KMissing => false
  | KNum x, KNum y => Qle_bool x y
  | KNum _, KStr _ => true
  | KStr x, KStr y => String.leb x y
  | KStr _, _ => false
  end.

(** [sort[sortBy] = sortOrder === 'desc' ? -1 : 1] as an order on documents. *)
Definition sort_leb (sortBy sortOrder : string) (a b : Product) : bool :=
  if String.eqb sortOrder "desc"
  then key_leb (key_of sortBy b) (key_of sortBy a)
  else key_leb (key_of sortBy a) (key_of sortBy b).

Fixpoint insert_by {A} (leb : A -> A -> bool) (x : A) (l : list A) : list A :=
  match l with
  | [] => [x]
  | y :: r => if leb x y then x :: y :: r else y :: insert_by leb x r
  end.

(** The cursor's [sort]: a stable sort of the matching documents. *)
Fixpoint sort_by {A} (leb : A -> A -> bool) (l : list A) : list A :=
  match l with
  | [] => []
  | x :: r => insert_by leb x (sort_by leb r)
  end.

(** The filter built from [search] and [category]; the store casts the
    value of [category] by the schema, whose [trim] setter runs on it. *)
Definition matches (q : Query) (p : Product) : bool :=
  (match q_search q with
   | Some search => if str_empty search then true
                    else regex_test_i search (name p)
   | None => true
   end)
  &&
  (match q_category q with
   | Some c => if str_empty c || String.eqb c "all" then true
               else String.eqb (category p) (schema_trim c)
   | None => true
   end).

Definition sortBy_of (q : Query) : string :=
  match q_sortBy q with Some s => s | None => "name" end.

Definition sortOrder_of (q : Query) : string :=
  match q_sortOrder q with Some s => s | None => "asc" end.

(** [Product.find(query).sort(sort)] *)
Definition find_sorted (q : Query) (d : Db) : list Product :=
  sort_by (sort_leb (sortBy_of q) (sortOrder_of q))
          (filter (matches q) (products d)).

(** [parseInt(page)] and [parseInt(limit)] with the defaults 1 and 5. *)
Definition pageNum_of (q : Query) : option Z :=
  match q_page q with Some s => parseInt_s s | None => Some 1 end.

Definition limitNum_of (q : Query) : option Z :=
  match q_limit q with Some s => parseInt_s s | None => Some 5 end.

(** [.skip(skip).limit(limitNum)]: the store refuses a value that is not a
    number and a negative skip, reads a zero limit as no limit and a
    negative one as its absolute value. *)
Definition skip_limit {A} (skip limitNum : Z) (l : list A) : M (list A) :=
  if skip <? 0 then throw StoreError
  else
    let rest := skipn (Z.to_nat skip) l in
    ret (if limitNum =? 0 then rest
         else firstn (Z.to_nat (Z.abs limitNum)) rest).

(** [Math.ceil(a / b)]; [None] when the quotient is not finite. *)
Definition ceil_div (a b : Z) : option Z :=
  if b =? 0 then None else Some (- ((- a) / b)).

Definition getProducts (req : Request) : M response :=
  try_catch
    (let q := query req in
     match pageNum_of q, limitNum_of q with
     | Some pageNum, Some limitNum =>
         let skip := (pageNum - 1) * limitNum in
         d <- get_db ;;
         items <- skip_limit skip limitNum (find_sorted q d) ;;
         let totalItems :=
           Z.of_nat (List.length (filter (matches q) (products d))) in
         let totalPages := ceil_div totalItems limitNum in
         ret (mkResponse 200
                (ProductList items
                   (mkPagination pageNum totalPages totalItems limitNum)))
     | _, _ => throw StoreError
     end)
    (fun _ => ret server_error).

(** ** deleteCategory *)

Definition deleteCategory (req : Request) : M response :=
  try_catch
    (d <- get_db ;;
     found <- Model_findById cat_id (params_id req) (categories d) ;;
     match found with
     | None => ret (not_found "Category not found")
     | Some category =>
         match findProductByCategory (cat_name category) (products d) with
         | Some _ =>
             ret (mkResponse 400
                    (Error "Cannot delete category. Products are associated with this category"
                           "CATEGORY_IN_USE"))
         | None =>
             put_db (set_categories d
                       (removeById cat_id (params_id req) (categories d))) ;;;
             ret (mkResponse 200 (Message "Category deleted successfully"))
         end
     end)
    (fun _ => ret server_error).

(** ** protect *)

Definition unauthorized (message : string) : response :=
  mkResponse 401 (Error message "UNAUTHORIZED").

(** [req.headers.authorization.split(' ')[1]] when the header is there and
    starts with [Bearer]; [None] is [undefined]. *)
Definition bearer_token (req : Request) : option string :=
  match authorization req with
  | Some h =>
      if negb (str_empty h) && startsWith h "Bearer"
      then nth_error (split " "%char h) 1
      else None
  | None => None
  end.

(** The middleware: either a response of its own, or the user it puts in
    [req.user] before calling [next]. *)
Definition protect (req : Request) : M (response + User) :=
  try_catch
    (match bearer_token req with
     | None => ret (inl (unauthorized "Not authorized, no token provided"))
     | Some token =>
         if str_empty token
         then ret (inl (unauthorized "Not authorized, no token provided"))
         else
           match jwt_verify token with
           | None => throw TokenError
           | Some decoded_id =>
               d <- get_db ;;
               found <- match decoded_id with
                        | Some id => Model_findById user_id id (users d)
                        | None => ret None
                        end ;;
               match found with
               | None => ret (inl (unauthorized "User not found"))
               | Some user => ret (inr user)
               end
           end
     end)
    (fun _ => ret (inl (unauthorized "Invalid or expired token"))).

(** A handler mounted behind [protect]. *)
Definition protected (handler : Request -> M response) (req : Request)
  : M response :=
  r <- protect req ;;
  match r with
  | inl resp => ret resp
  | inr _ => handler req
  end.

(** The product router: [router.use(protect)] before every route. *)
Inductive product_route : Type :=
| GET_products
| POST_products
| PUT_products_id.

Definition productRoutes (r : product_route) : Request -> M response :=
  protected (match r with
             | GET_products => getProducts
             | POST_products => createProduct
             | PUT_products_id => updateProduct
             end).

End Handlers.

(** ** The other handlers

    The handlers of the three controllers that the sections above leave
    out: the rest of the category controller, [getProduct], [deleteProduct]
    and [deleteImage] of the product controller, and [login], [getMe] and
    [logout] of the auth controller. *)

(** The JSON bodies these handlers answer with, beside the shapes of
    [payload]. *)
Inductive reply : Type :=
| Plain (p : payload)
| ProductFound (data : Product)
| CategoryFound (data : Category)
| CategoryData (message : string) (data : Category)
| CategoryList (items : list Category) (pagination : Pagination)
| LoginData (message : string) (token : string) (user : User)
| Profile (user : User).

Record answer : Type := mkAnswer {
  code : Z;
  content : reply
}.

Definition plain (r : response) : answer := mkAnswer (status r) (Plain (json r)).

(** What [login] needs beside the store: the [password] path of a user
    document (the stored hash), [bcrypt.compare] on two strings, [jwt.sign]
    of the payload [{ id }] with the configured secret and expiry, and what
    the store makes of a value of [username] in a filter when the value is
    not a string: the test it then applies to the stored usernames (that of
    its operators for an operator object such as [{ $ne: null }], equality
    with its text for a number), or [None] when it cannot cast the value. *)
Class Credentials : Type := {
  stored_password : User -> string;
  bcrypt_compare : string -> string -> bool;
  jwt_sign : string -> string;
  username_condition : jsval -> option (string -> bool)
}.

(** The body of a login request, as the JSON body parser leaves it: each
    field is any JSON value, [JUndef] when it is absent. *)
Record LoginBody : Type := mkLoginBody {
  l_username : jsval;
  l_password : jsval
}.

(** [str.split(sep).slice(-n)] and [parts.join(sep)]. *)
Definition slice_last {A} (n : nat) (l : list A) : list A :=
  skipn (List.length l - n) l.

Definition join (sep : string) (parts : list string) : string :=
  String.concat sep parts.

(** The [public_id] that [deleteImage] reads off a URL: its last two path
    segments, up to the first dot. *)
Definition public_id (imageUrl : string) : string :=
  let urlParts := split "/"%char imageUrl in
  let lastTwoParts := join "/" (slice_last 2 urlParts) in
  hd EmptyString (split "."%char lastTwoParts).

(** [deleteImage]: one call of [cloudinary.uploader.destroy], whose failure
    is caught and logged; [destroyed] is the list of the calls made. *)
Definition deleteImage (imageUrl : string) (destroyed : list string)
  : list string :=
  destroyed ++ [public_id imageUrl].

(** The Category schema on the value of [name] after its [trim] setter:
    [minlength] 2 and [maxlength] 100. *)
Definition valid_category_name (nm : string) : bool :=
  (2 <=? length nm)%nat && (length nm <=? 100)%nat.

(** [Category.findOne({ name, _id: { $ne: id } })] *)
Definition findOtherCategoryByName (nm id : string) (l : list Category)
  : option Category :=
  find (fun c => String.eqb (cat_name c) nm && negb (String.eqb (cat_id c) id)) l.

Fixpoint replaceCategoryById (c : Category) (l : list Category)
  : list Category :=
  match l with
  | [] => []
  | x :: r => if String.eqb (cat_id x) (cat_id c) then c :: r
              else x :: replaceCategoryById c r
  end.

Section OtherHandlers.
Context {rt : JsRuntime} {sv : Services} {cr : Credentials}.

Definition server_failure : answer := plain server_error.

(** [Category.create({ name })]: validation throws; the unique index on
    [name] refuses a name that is taken with the error of code 11000, which
    is the result [None]. *)
Definition Category_create (nm : string) : M (option Category) :=
  fun w =>
    let stored := schema_trim nm in
    if negb (valid_category_name stored) then (Thrown StoreError, w)
    else
      match findCategoryByName stored (categories (db w)) with
      | Some _ => (Val None, w)
      | None =>
          let c := mkCategory (new_oid (created w)) stored in
          (Val (Some c),
           mkWorld (set_categories (db w) (categories (db w) ++ [c]))
                   (S (created w)) (uploads w))
      end.

(** [category.name = nm; category.save()]: validation and the unique index
    both throw. *)
Definition Category_save (category : Category) (nm : string) : M Category :=
  fun w =>
    let stored := schema_trim nm in
    if negb (valid_category_name stored) then (Thrown StoreError, w)
    else
      match findOtherCategoryByName stored (cat_id category)
                                    (categories (db w)) with
      | Some _ => (Thrown StoreError, w)
      | None =>
          let c := mkCategory (cat_id category) stored in
          (Val c,
           mkWorld (set_categories (db w)
                      (replaceCategoryById c (categories (db w))))
                   (created w) (uploads w))
      end.

(** [!name || name.trim().length < 2] *)
Definition category_name_invalid (name : jsval) : M bool :=
  if negb (truthy name) then ret true
  else (t <- js_trim name ;; ret (length t <? 2)%nat).

Definition category_name_required : answer :=
  mkAnswer 400
    (Plain (Errors "Category name is required and must be at least 2 characters"
                   [("name", "Category name is required")])).

Definition duplicate_category : answer :=
  mkAnswer 409
    (Plain (Error "Category with this name already exists" "DUPLICATE_CATEGORY")).

Definition category_not_found : answer :=
  plain (not_found "Category not found").

(** ** createCategory *)

Definition createCategory (req : Request) : M answer :=
  try_catch
    (let name := f_name (body req) in
     invalid <- category_name_invalid name ;;
     if invalid then ret category_name_required
     else
       nm <- js_trim name ;;
       d <- get_db ;;
       match findCategoryByName nm (categories d) with
       | Some _ => ret duplicate_category
       | None =>
           created <- Category_create nm ;;
           match created with
           | Some category =>
               ret (mkAnswer 201
                      (CategoryData "Category created successfully" category))
           | None => ret duplicate_category
           end
       end)
    (fun _ => ret server_failure).

(** ** updateCategory *)

Definition updateCategory (req : Request) : M answer :=
  try_catch
    (let name := f_name (body req) in
     invalid <- category_name_invalid name ;;
     if invalid then ret category_name_required
     else
       d <- get_db ;;
       found <- Model_findById cat_id (params_id req) (categories d) ;;
       match found with
       | None => ret category_not_found
       | Some category =>
           nm <- js_trim name ;;
           match findOtherCategoryByName nm (params_id req) (categories d) with
           | Some _ => ret duplicate_category
           | None =>
               saved <- Category_save category nm ;;
               ret (mkAnswer 200
                      (CategoryData "Category updated successfully" saved))
           end
       end)
    (fun _ => ret server_failure).

(** ** getCategory and getCategories *)

Definition getCategory (req : Request) : M answer :=
  try_catch
    (d <- get_db ;;
     found <- Model_findById cat_id (params_id req) (categories d) ;;
     match found with
     | None => ret category_not_found
     | Some category => ret (mkAnswer 200 (CategoryFound category))
     end)
    (fun _ => ret server_failure).

Definition category_matches (q : Query) (c : Category) : bool :=
  match q_search q with
  | Some search => if str_empty search then true
                   else regex_test_i search (cat_name c)
  | None => true
  end.

Definition name_leb (a b : Category) : bool :=
  String.leb (cat_name a) (cat_name b).

(** [Category.find(query).sort({ name: 1 })] *)
Definition categories_sorted (q : Query) (d : Db) : list Category :=
  sort_by name_leb (filter (category_matches q) (categories d)).

(** [parseInt(limit)] with the default 10 of the categories. *)
Definition category_limit_of (q : Query) : option Z :=
  match q_limit q with Some s => parseInt_s s | None => Some 10 end.

Definition getCategories (req : Request) : M answer :=
  try_catch
    (let q := query req in
     match pageNum_of q, category_limit_of q with
     | Some pageNum, Some limitNum =>
         let skip := (pageNum - 1) * limitNum in
         d <- get_db ;;
         items <- skip_limit skip limitNum (categories_sorted q d) ;;
         let totalItems :=
           Z.of_nat (List.length (filter (category_matches q) (categories d))) in
         let totalPages := ceil_div totalItems limitNum in
         ret (mkAnswer 200
                (CategoryList items
                   (mkPagination pageNum totalPages totalItems limitNum)))
     | _, _ => throw StoreError
     end)
    (fun _ => ret server_failure).

(** ** getProduct and deleteProduct *)

Definition getProduct (req : Request) : M answer :=
  try_catch
    (d <- get_db ;;
     found <- Model_findById _id (params_id req) (products d) ;;
     match found with
     | None => ret (plain (not_found "Product not found"))
     | Some product => ret (mkAnswer 200 (ProductFound product))
     end)
    (fun _ => ret server_failure).

(** [deleteProduct] answers with a response and makes calls to
    [cloudinary.uploader.destroy]; the value of the computation is the
    response together with the public ids of these calls, in order. *)
Definition deleteProduct (req : Request) : M (response * list string) :=
  try_catch
    (d <- get_db ;;
     found <- Model_findById _id (params_id req) (products d) ;;
     match found with
     | None => ret (not_found "Product not found", [])
     | Some product =>
         let destroyed := fold_left (fun log imageUrl => deleteImage imageUrl log)
                                    (images product) [] in
         put_db (set_products d (removeById _id (params_id req) (products d))) ;;;
         ret (mkResponse 200 (Message "Product deleted successfully"), destroyed)
     end)
    (fun _ => ret (server_error, [])).

(** ** login, getMe and logout *)

Definition generateToken (userId : string) : string := jwt_sign userId.

(** [bcrypt.compare] throws on an argument that is not a string. *)
Definition comparePassword (enteredPassword : jsval) (storedPassword : string)
  : M bool :=
  match enteredPassword with
  | JStr s => ret (bcrypt_compare s storedPassword)
  | _ => throw TypeError
  end.

(** The test that the filter [{ username }] applies to a stored username:
    a string is cast by the schema, whose [trim] setter runs on it, and
    compared. *)
Definition username_filter (v : jsval) : option (string -> bool) :=
  match v with
  | JStr s => Some (fun stored => String.eqb stored (schema_trim s))
  | _ => username_condition v
  end.

(** [User.findOne({ username })] *)
Definition findUserByUsername (v : jsval) (l : list User) : M (option User) :=
  match username_filter v with
  | Some test => ret (find (fun u => test (username u)) l)
  | None => throw StoreError
  end.

Definition invalid_credentials : answer :=
  mkAnswer 401
    (Plain (Error "Invalid username or password" "INVALID_CREDENTIALS")).

Definition login (b : LoginBody) : M answer :=
  try_catch
    (let username_ := l_username b in
     let password := l_password b in
     if negb (truthy username_) || negb (truthy password)
     then ret (mkAnswer 400
                 (Plain (Error "Please provide username and password"
                               "VALIDATION_ERROR")))
     else
       d <- get_db ;;
       found <- findUserByUsername username_ (users d) ;;
       match found with
       | None => ret invalid_credentials
       | Some user =>
           isPasswordMatch <- comparePassword password (stored_password user) ;;
           if isPasswordMatch
           then ret (mkAnswer 200
                       (LoginData "Login successful"
                                  (generateToken (user_id user)) user))
           else ret invalid_credentials
       end)
    (fun _ => ret server_failure).

(** [getMe] reads the user that [protect] has put in [req.user]. *)
Definition getMe (req_user : User) : M answer :=
  try_catch
    (d <- get_db ;;
     match findById user_id (user_id req_user) (users d) with
     | Some user => ret (mkAnswer 200 (Profile user))
     | None => throw TypeError
     end)
    (fun _ => ret server_failure).

Definition logout : M answer :=
  ret (mkAnswer 200 (Plain (Message "Logout successful"))).

(** The routes of the auth router: [/login] is public, [/me] and [/logout]
    come after [protect]. *)
Inductive auth_route : Type :=
| POST_login (b : LoginBody)
| GET_me
| POST_logout.

Definition authRoutes (r : auth_route) (req : Request) : M answer :=
  match r with
  | POST_login b => login b
  | GET_me =>
      guard <- protect req ;;
      match guard with
      | inl resp => ret (plain resp)
      | inr user => getMe user
      end
  | POST_logout =>
      guard <- protect req ;;
      match guard with
      | inl resp => ret (plain resp)
      | inr _ => logout
      end
  end.

End OtherHandlers.

(** ** A runtime and collaborators for running the handlers

    [Demo] implements the two interfaces on the fragment the examples use:
    decimal numerals without exponent, JSON arrays of string literals
    without escapes, search patterns without metacharacters, a media host
    that fails on sources containing [broken], and two known tokens. The
    ids of its documents are texts of ObjectIds, written by [oid]. It is an
    instance to compute with; no theorem about the handlers relies on
    it. *)
Module Demo.

Definition digit (c : ascii) : option Z :=
  let n := nat_of_ascii c in
  if (48 <=? n)%nat && (n <=? 57)%nat then Some (Z.of_nat (n - 48)) else None.

(** The leading digits of [s]: their value, their number, and the rest. *)
Fixpoint digits (s : string) (acc : Z) (count : nat) : Z * nat * string :=
  match s with
  | String c r =>
      match digit c with
      | Some d => digits r (10 * acc + d) (S count)
      | None => (acc, count, s)
      end
  | EmptyString => (acc, count, s)
  end.

Definition sign (s : string) : Z * string :=
  match s with
  | String "-"%char r => (-1, r)
  | String "+"%char r => (1, r)
  | _ => (1, s)
  end.

Definition parseInt_dec (s : string) : option Z :=
  let '(sg, r) := sign (trim_start s) in
  let '(v, n, _) := digits r 0 0 in
  if (n =? 0)%nat then None else Some (sg * v).

(** A decimal numeral at the head of [s], and what follows it. *)
Definition numeral (s : string) : jsnum * string :=
  let '(sg, r) := sign s in
  let '(i, n, r1) := digits r 0 0 in
  match r1 with
  | String "."%char r2 =>
      let '(f, m, r3) := digits r2 0 0 in
      if (n + m =? 0)%nat then (NaN, s)
      else (Fin (Qred ((sg * (i * 10 ^ Z.of_nat m + f))
                       # Pos.of_nat (Z.to_nat (10 ^ Z.of_nat m)))), r3)
  | _ => if (n =? 0)%nat then (NaN, s) else (Fin (inject_Z (sg * i)), r1)
  end.

Definition parseFloat_dec (s : string) : jsnum := fst (numeral (trim_start s)).

Definition toNumber_dec (s : string) : jsnum :=
  let t := trim s in
  if str_empty t then Fin 0
  else let '(n, r) := numeral t in if str_empty r then n else NaN.

(** The digits after the point of [r / d], at most [fuel] of them. *)
Fixpoint fraction (fuel : nat) (r d : Z) : string :=
  match fuel with
  | O => EmptyString
  | S fuel' =>
      if r =? 0 then EmptyString
      else String (ascii_of_nat (48 + Z.to_nat (10 * r / d)))
                  (fraction fuel' ((10 * r) mod d) d)
  end.

Definition number_string (q : Q) : string :=
  let d := Zpos (Qden q) in
  let a := Z.abs (Qnum q) in
  let minus := if Qnum q <? 0 then "-" else EmptyString in
  let whole := NilZero.string_of_int (Z.to_int (a / d)) in
  let part := if a mod d =? 0 then EmptyString
              else String "."%char (fraction 20 (a mod d) d) in
  (minus ++ whole ++ part)%string.

Fixpoint toString_simple (v : jsval) : string :=
  match v with
  | JUndef => "undefined"
  | JNull => "null"
  | JBool true => "true"
  | JBool false => "false"
  | JNum NaN => "NaN"
  | JNum (Fin q) => number_string q
  | JStr s => s
  | JArr l =>
      (fix join (l : list jsval) : string :=
         match l with
         | [] => EmptyString
         | x :: r =>
             let sx := match x with
                       | JUndef | JNull => EmptyString
                       | _ => toString_simple x
                       end in
             match r with
             | [] => sx
             | _ :: _ => (sx ++ "," ++ join r)%string
             end
         end) l
  | JObj _ => "[object Object]"
  end.

(** A string literal without escapes, after its opening quote. *)
Fixpoint literal (s : string) (acc : string) : option (string * string) :=
  match s with
  | String c r =>
      if Ascii.eqb c (ascii_of_nat 34) then Some (rev_string EmptyString acc, r)
      else if Ascii.eqb c (ascii_of_nat 92) then None
      else literal r (String c acc)
  | EmptyString => None
  end.

(** The elements of an array of string literals, after its opening bracket;
    [fuel] bounds the number of elements. *)
Fixpoint elements (fuel : nat) (s : string) : option (list jsval) :=
  match fuel with
  | O => None
  | S fuel' =>
      match s with
      | String c r =>
          if Ascii.eqb c (ascii_of_nat 34) then
            match literal r EmptyString with
            | Some (str, String ","%char r') =>
                match elements fuel' r' with
                | Some l => Some (JStr str :: l)
                | None => None
                end
            | Some (str, String "]"%char EmptyString) => Some [JStr str]
            | _ => None
            end
          else None
      | EmptyString => None
      end
  end.

Definition parse_json (s : string) : option jsval :=
  match s with
  | String "["%char (String "]"%char EmptyString) => Some (JArr [])
  | String "["%char r =>
      match elements (String.length s) r with
      | Some l => Some (JArr l)
      | None => None
      end
  | _ => None
  end.

#[export] Instance runtime : JsRuntime := {|
  StringToNumber := toNumber_dec;
  parseFloat_s := parseFloat_dec;
  parseInt_s := parseInt_dec;
  ToString := toString_simple;
  JSON_parse := parse_json
|}.

Definition lower_char (c : ascii) : ascii :=
  let n := nat_of_ascii c in
  if (65 <=? n)%nat && (n <=? 90)%nat then ascii_of_nat (n + 32) else c.

(** A pattern without metacharacters matches where it occurs, whatever the
    case of the letters. *)
Fixpoint lower (s : string) : string :=
  match s with
  | EmptyString => EmptyString
  | String c r => String (lower_char c) (lower r)
  end.

Definition string_of_nat (n : nat) : string :=
  NilZero.string_of_uint (Nat.to_uint n).

Definition host_upload (earlier : list string) (source : string)
  : option string :=
  if includes source "broken" then None
  else Some ("https://res.cloudinary.com/demo/image/upload/product-management/img"
             ++ string_of_nat (List.length earlier) ++ ".jpg")%string.

(** The ids of the sample documents: users from [a1], categories from
    [c1], products from [1]. *)
Definition oid (n : N) : string := oid_text n.

Definition verify (token : string) : option (option string) :=
  if String.eqb token "token-of-admin" then Some (Some (oid 0xa1))
  else if String.eqb token "token-of-removed-user" then Some (Some (oid 0xa9))
  else None.

#[export] Instance services : Services := {|
  cloudinary_upload := host_upload;
  jwt_verify := verify;
  regex_test_i := fun pattern s => includes (lower s) (lower pattern);
  new_oid_value := fun n => N.of_nat (S n)
|}.

Definition admin : User := mkUser (oid 0xa1) "admin" "Admin" "admin@example.com".

Definition img (n : string) : string :=
  ("https://res.cloudinary.com/demo/image/upload/product-management/" ++ n)%string.

Definition lamp : Product :=
  mkProduct (oid 1) "Lamp" (25 # 1) "Home" 5 [img "a.jpg"; img "b.jpg"; img "c.jpg"].

Definition desk : Product :=
  mkProduct (oid 2) "Desk" (120 # 1) "Home" 2 [img "d.jpg"].

Definition store : Db :=
  mkDb [admin]
       [mkCategory (oid 0xc1) "Home"; mkCategory (oid 0xc2) "Garden"]
       [lamp; desk].

Definition world : World := mkWorld store 2 [].

(** [JSON.stringify] of an array of escape-free strings. *)
Definition quoted (s : string) : string :=
  String (ascii_of_nat 34) (s ++ String (ascii_of_nat 34) EmptyString)%string.

Fixpoint joined (l : list string) : string :=
  match l with
  | [] => EmptyString
  | [x] => quoted x
  | x :: r => (quoted x ++ "," ++ joined r)%string
  end.

Definition stringify (l : list string) : string :=
  ("[" ++ joined l ++ "]")%string.

Definition no_fields : Fields :=
  mkFields JUndef JUndef JUndef JUndef JUndef JUndef.

Definition no_query : Query := mkQuery None None None None None None.

(** A request with a JSON body. *)
Definition json_request (id : string) (b : Fields) : Request :=
  mkRequest (Some "Bearer token-of-admin") (Some "application/json") id
            no_query b None.

(** A multipart request, as the form parser reads it. *)
Definition multipart_request (id : string) (fields : Fields)
    (files : option (list File)) : Request :=
  mkRequest (Some "Bearer token-of-admin")
            (Some "multipart/form-data; boundary=x") id
            no_query no_fields (Some (fields, files)).

(** A listing request. *)
Definition list_request (q : Query) : Request :=
  mkRequest (Some "Bearer token-of-admin") None EmptyString q no_fields None.

Definition item (id nm : string) (cents : Z) : Product :=
  mkProduct id nm (cents # 100) "Home" 1 [].

(** Twelve products, stored in no particular order. *)
Definition catalog : Db :=
  mkDb [admin] [mkCategory (oid 0xc1) "Home"]
       [item (oid 0x107) "Globe" 700; item (oid 0x103) "Clock" 300; item (oid 0x111) "Kettle" 1100;
        item (oid 0x101) "Anvil" 100; item (oid 0x109) "Iron" 900; item (oid 0x105) "Easel" 500;
        item (oid 0x112) "Ladder" 1200; item (oid 0x102) "Bench" 200; item (oid 0x110) "Jug" 1000;
        item (oid 0x104) "Drill" 400; item (oid 0x108) "Hammer" 800; item (oid 0x106) "Funnel" 600].

Definition shop : World := mkWorld catalog 12 [].

(** *** Sample requests *)

(** An update of the name alone, sent as a form, on a product with three
    images. *)
Definition new_name : Fields :=
  mkFields (JArr [JStr "Lamp XL"]) JUndef JUndef JUndef JUndef JUndef.

Definition rename_lamp : Request := multipart_request (oid 1) new_name None.

(** An update with a JSON body that carries a keep list and a legacy list. *)
Definition keep_and_replace : Request :=
  json_request (oid 1)
    (mkFields JUndef JUndef JUndef JUndef
       (JStr (stringify [img "a.jpg"])) (JArr [JStr (img "z.jpg")])).

(** A creation sent as a form: three files (an image, a text file, an image
    the media host refuses) and a keep list with one URL of the media host
    and one foreign URL. *)
Definition chair_files : option (list File) :=
  Some [mkFile (Some "image/png") "/tmp/a.png" "a.png";
        mkFile (Some "text/plain") "/tmp/notes.txt" "notes.txt";
        mkFile (Some "image/png") "/tmp/broken.png" "broken.png"].

Definition chair_urls : list string :=
  [img "q.jpg"; "http://evil.example/x.png"].

Definition chair_fields : Fields :=
  mkFields (JArr [JStr "Chair"]) (JArr [JStr "10.5"]) (JArr [JStr " Home "])
           (JArr [JStr "3"]) (JArr [JStr (stringify chair_urls)]) JUndef.

Definition create_chair : Request := multipart_request "" chair_fields chair_files.

Definition chair : Product :=
  mkProduct (oid 3) "Chair" (21 # 2) "Home" 3 [img "img0.jpg"; img "q.jpg"].

(** An update sent as a form that keeps two of the three images. *)
Definition keep_two_fields : Fields :=
  mkFields JUndef JUndef JUndef JUndef
           (JArr [JStr (stringify [img "c.jpg"; "http://evil.example/x.png";
                                   img "a.jpg"])]) JUndef.

Definition keep_two : Request := multipart_request (oid 1) keep_two_fields None.

(** A listing by price with a sort order that is not one of the two known. *)
Definition by_price_sideways : Request :=
  list_request (mkQuery None None (Some "price") (Some "sideways") None None).

(** A listing by price, in descending order. *)
Definition by_price_desc : Request :=
  list_request (mkQuery None None (Some "price") (Some "desc") (Some "1") (Some "4")).


(** A creation with a JSON body whose price is 0 and whose stock is -1. *)
Definition bad_numbers : Fields :=
  mkFields (JStr "Chair") (JNum (Fin 0)) (JStr "Home") (JNum (Fin (-1 # 1)))
           JUndef JUndef.

(** A creation sent as a form, with an image file, for a category that does
    not exist. *)
Definition unknown_category : Fields :=
  mkFields (JArr [JStr "Chair"]) (JArr [JStr "10.5"]) (JArr [JStr "Toys"])
           (JArr [JStr "3"]) JUndef JUndef.

Definition create_toy : Request :=
  multipart_request "" unknown_category
    (Some [mkFile (Some "image/png") "/tmp/a.png" "a.png"]).

Definition delete_request (id : string) : Request :=
  mkRequest (Some "Bearer token-of-admin") None id no_query no_fields None.

(** Three requests that do not authenticate: no header, a token the
    verification rejects, the token of a user that is no longer stored. *)
Definition with_header (h : option string) : Request :=
  mkRequest h (Some "application/json") (oid 1) no_query
    (mkFields (JStr "Stolen") JUndef JUndef JUndef JUndef JUndef) None.

(** Updates with a JSON body: an empty legacy list; a legacy list whose one
    entry is not a URL; an explicit empty keep list. *)
Definition empty_legacy : Request :=
  json_request (oid 1) (mkFields JUndef JUndef JUndef JUndef JUndef (JArr [])).

Definition useless_legacy : Request :=
  json_request (oid 1)
    (mkFields JUndef JUndef JUndef JUndef JUndef (JArr [JStr "not a url"])).

Definition empty_keep_list : Request :=
  json_request (oid 1) (mkFields JUndef JUndef JUndef JUndef (JStr "[]") JUndef).

(** Two URLs: one of another host, with the name of the media host in its
    path; one of the media host, its host written in capitals. *)
Definition foreign_url : string := "http://evil.example/cloudinary.com/x.png".

Definition capital_url : string := "https://res.CLOUDINARY.com/demo/a.jpg".

(** A creation and an update, sent as forms without files, whose keep list
    is these two URLs. *)
Definition foreign_fields : Fields :=
  mkFields (JArr [JStr "Chair"]) (JArr [JStr "10.5"]) (JArr [JStr "Home"])
           (JArr [JStr "3"])
           (JArr [JStr (stringify [foreign_url; capital_url])]) JUndef.

Definition create_with_foreign : Request :=
  multipart_request "" foreign_fields None.

Definition keep_foreign : Request :=
  multipart_request (oid 1)
    (mkFields JUndef JUndef JUndef JUndef
              (JArr [JStr (stringify [foreign_url; capital_url])]) JUndef)
    None.

(** A creation sent as a form, with an image file, whose price is not a
    number. *)
Definition priceless : Fields :=
  mkFields (JArr [JStr "Chair"]) (JArr [JStr "abc"]) (JArr [JStr "Home"])
           (JArr [JStr "3"]) JUndef JUndef.

Definition create_priceless : Request :=
  multipart_request "" priceless
    (Some [mkFile (Some "image/png") "/tmp/a.png" "a.png"]).

End Demo.

(** ** Credentials and requests for the other handlers

    [Accounts] implements [Credentials] for the one user of the sample
    store: a stored hash is the password behind a fixed prefix, the token
    signed for the id of the administrator is the one that the
    verification of [Demo] accepts, and of the filter values that are not
    strings the operator object [{ $ne: null }] is understood, which every
    stored username satisfies. *)
Module Accounts.
Import Demo.

#[export] Instance credentials : Credentials := {|
  stored_password := fun u =>
    if String.eqb (user_id u) (oid 0xa1) then "hash:admin123" else "hash:";
  bcrypt_compare := fun entered stored =>
    String.eqb ("hash:" ++ entered)%string stored;
  jwt_sign := fun id =>
    if String.eqb id (oid 0xa1) then "token-of-admin"
    else ("token-of-" ++ id)%string;
  username_condition := fun v =>
    match v with
    | JObj [("$ne", JNull)] => Some (fun _ => true)
    | _ => None
    end
|}.

(** A request to the category router, with a JSON body. *)
Definition category_request (id : string) (nm : jsval) : Request :=
  json_request id (mkFields nm JUndef JUndef JUndef JUndef JUndef).

Definition create_office : Request := category_request "" (JStr "  Office ").

Definition office : Category := mkCategory (oid 3) "Office".

Definition rename_garden : Request := category_request (oid 0xc2) (JStr " Patio").

Definition rename_home : Request := category_request (oid 0xc1) (JStr "House").

(** A listing of the categories. *)
Definition category_page (page limit : string) : Request :=
  list_request (mkQuery None None None None (Some page) (Some limit)).

(** Login bodies: the administrator, with white space around the
    username; the administrator with another password; a username that is
    not stored; an operator object in place of the username; a number in
    place of the password, for the administrator and for a username that
    is not stored. *)
Definition good_login : LoginBody :=
  mkLoginBody (JStr " admin ") (JStr "admin123").

Definition wrong_password : LoginBody :=
  mkLoginBody (JStr "admin") (JStr "letmein").

Definition unknown_user : LoginBody :=
  mkLoginBody (JStr "nobody") (JStr "admin123").

Definition any_username : LoginBody :=
  mkLoginBody (JObj [("$ne", JNull)]) (JStr "admin123").

Definition numeric_password : LoginBody :=
  mkLoginBody (JStr "admin") (JNum (Fin (123 # 1))).

Definition numeric_password_unknown : LoginBody :=
  mkLoginBody (JStr "nobody") (JNum (Fin (123 # 1))).

(** A request that carries the token of the administrator. *)
Definition as_admin : Request := delete_request EmptyString.

(** A creation with a JSON body for a category that is not stored. *)
Definition create_toy_json : Request :=
  json_request ""
    (mkFields (JStr "Robot") (JStr "10.5") (JStr "Toys") (JStr "3")
              JUndef JUndef).

(** The world after the chair has been created. *)
Definition with_chair : World := snd (createProduct create_chair world).

(** An update of a product that is not stored. *)
Definition update_missing : Request := json_request (oid 9) no_fields.

End Accounts.

(** * The vocabulary of the properties *)

(** What a run leaves behind, for the examples. *)
Definition images_after (id : string) (w : World) : option (list string) :=
  option_map images (findById _id id (products (db w))).

Definition status_of (o : outcome response) : option Z :=
  match o with
  | Val r => Some (status r)
  | Thrown _ => None
  end.

Definition names_listed (o : outcome response) : list string :=
  match o with
  | Val (mkResponse _ (ProductList items _)) => map name items
  | _ => []
  end.

(** *** A URL and the domain of the media host

    What the specification means by a reference that belongs to the domain
    of the media host: the host of the URL is [cloudinary.com] or one of its
    subdomains. The host is what stands between [://] and the next [/],
    [?] or [#], without user information and port, in lower case. *)
Definition to_lower (c : ascii) : ascii :=
  let n := nat_of_ascii c in
  if (65 <=? n)%nat && (n <=? 90)%nat then ascii_of_nat (n + 32) else c.

Fixpoint lower_case (s : string) : string :=
  match s with
  | EmptyString => EmptyString
  | String c r => String (to_lower c) (lower_case r)
  end.

Fixpoint after_scheme (s : string) : option string :=
  match s with
  | EmptyString => None
  | String _ r =>
      if String.prefix "://" s then Some (String.substring 3 (String.length s) s)
      else after_scheme r
  end.

Fixpoint take_until (stop : ascii -> bool) (s : string) : string :=
  match s with
  | EmptyString => EmptyString
  | String c r => if stop c then EmptyString else String c (take_until stop r)
  end.

Definition ends_authority (c : ascii) : bool :=
  Ascii.eqb c "/" || Ascii.eqb c "?" || Ascii.eqb c "#".

Definition host_of (url : string) : option string :=
  match after_scheme url with
  | Some rest =>
      let authority := take_until ends_authority rest in
      let host_port := last (split "@" authority) EmptyString in
      Some (lower_case (hd EmptyString (split ":" host_port)))
  | None => None
  end.

Definition ends_with (s suffix : string) : bool :=
  String.prefix (rev_string EmptyString suffix) (rev_string EmptyString s).

Definition in_media_domain (url : string) : bool :=
  match host_of url with
  | Some h => String.eqb h "cloudinary.com" || ends_with h ".cloudinary.com"
  | None => false
  end.

Section Vocabulary.
Context {rt : JsRuntime} {sv : Services}.



(** The user named by the payload of a verified token, if the store has it. *)
Definition resolve (decoded_id : option string) (d : Db) : option User :=
  match decoded_id with
  | Some id => findById user_id id (users d)
  | None => None
  end.

(** The ways a request fails to authenticate: no bearer token; a token that
    [jwt.verify] rejects (malformed, signed with another key, expired); a
    verified token whose user id has no record. *)
Definition token_missing (req : Request) : Prop :=
  bearer_token req = None \/ bearer_token req = Some EmptyString.

Definition token_rejected (req : Request) : Prop :=
  exists token, bearer_token req = Some token /\ jwt_verify token = None.

Definition user_unresolved (req : Request) (d : Db) : Prop :=
  exists token decoded_id,
    bearer_token req = Some token /\ jwt_verify token = Some decoded_id /\
    resolve decoded_id d = None.

(** What the request submits: the JSON body, or the parsed form. *)
Definition submitted (req : Request) : option (Fields * option (list File)) :=
  if is_multipart req then form req else Some (body req, None).

(** The four rules, on the value submitted for each field; the name and the
    category are measured trimmed, the way they are stored. *)
Definition name_rule (v : jsval) : bool :=
  match v with
  | JStr s => (2 <=? length (trim s))%nat
  | _ => false
  end.

Definition price_rule (v : jsval) : bool := num_lt (Fin 0) (to_number v).

Definition category_rule (v : jsval) : bool :=
  match v with
  | JStr s => negb (length (trim s) =? 0)%nat
  | _ => false
  end.

Definition stock_rule (v : jsval) : bool := num_le (Fin 0) (to_number v).

Definition failing (ok : bool) (field : string) : list string :=
  if ok then [] else [field].

Definition failing_fields (name price category stock : jsval) : list string :=
  failing (name_rule name) "name" ++ failing (price_rule price) "price"
  ++ failing (category_rule category) "category"
  ++ failing (stock_rule stock) "stock".

(** The entry of the error map for a field, when its rule fails. *)
Definition reported (ok : bool) (field message : string)
  : list (string * string) :=
  if ok then [] else [(field, message)].

(** The error map that the four rules call for, with the messages of the
    handler. *)
Definition failing_entries (name price category stock : jsval)
  : list (string * string) :=
  reported (name_rule name) "name"
           "Product name is required and must be at least 2 characters"
  ++ reported (price_rule price) "price" "Price must be greater than 0"
  ++ reported (category_rule category) "category" "Category is required"
  ++ reported (stock_rule stock) "stock" "Stock must be 0 or greater".

(** A field of text is absent or a string; a numeric field is absent or a
    value that reads as a number. *)
Definition textual (v : jsval) : Prop := v = JUndef \/ exists s, v = JStr s.

Definition numeric (v : jsval) : Prop :=
  v = JUndef \/ exists q, to_number v = Fin q.

(** What identifies a stored image list: the document and its images. *)
Definition image_entry (p : Product) : string * list string :=
  (_id p, images p).

(** From [w] to [w']: every document keeps its image list, and the media
    host was not called. *)
Definition images_kept (w w' : World) : Prop :=
  map image_entry (products (db w')) = map image_entry (products (db w))
  /\ uploads w' = uploads w.

(** The test the handlers apply to an entry of the keep list: the text
    [cloudinary.com] occurs somewhere in it. *)
Definition mentions_cloudinary (url : string) : bool :=
  includes url "cloudinary.com".

(** [u] is a URL the media host returned for one of the files. *)
Definition from_host (files : option (list File)) (u : string) : Prop :=
  exists earlier f fileArray,
    files = Some fileArray /\ In f fileArray /\
    cloudinary_upload earlier (filepath f) = Some u.

(** The order of a field of the record. *)
Definition field_le (field : string) (a b : Product) : Prop :=
  if String.eqb field "name" then String.leb (name a) (name b) = true
  else if String.eqb field "price" then (price a <= price b)%Q
  else if String.eqb field "stock" then stock a <= stock b
  else if String.eqb field "category"
       then String.leb (category a) (category b) = true
  else True.

Definition sortable (field : string) : Prop :=
  In field ["name"; "price"; "stock"; "category"].

End Vocabulary.

(** ** The vocabulary of the other handlers *)

(** A string that does not begin with white space. *)
Definition starts_clean (s : string) : Prop :=
  match s with
  | String c _ => is_ws c = false
  | EmptyString => True
  end.

(** [c] occurs in [s]. *)
Fixpoint has_char (c : ascii) (s : string) : bool :=
  match s with
  | EmptyString => false
  | String x r => Ascii.eqb x c || has_char c r
  end.

Section MoreVocabulary.
Context {rt : JsRuntime} {sv : Services} {cr : Credentials}.

(** What the Product schema accepts. *)
Definition product_valid (p : Product) : Prop :=
  (2 <= length (name p) <= 200)%nat
  /\ (1 # 100 <= price p)%Q
  /\ category p <> EmptyString
  /\ 0 <= stock p
  /\ (List.length (images p) <= 10)%nat.

(** The sources that the loop over the uploaded files submits to the media
    host: the path of each file whose type begins with [image/]. *)
Definition upload_sources (files : option (list File)) : list string :=
  match files with
  | Some fileArray => map filepath (filter is_image fileArray)
  | None => []
  end.

(** The URLs that the media host returns for these sources, submitted one
    after the other when [earlier] are the sources submitted before; a
    source that it refuses gives none. *)
Fixpoint host_urls (earlier : list string) (sources : list string)
  : list string :=
  match sources with
  | [] => []
  | source :: rest =>
      match cloudinary_upload earlier source with
      | Some url => url :: host_urls (earlier ++ [source]) rest
      | None => host_urls (earlier ++ [source]) rest
      end
  end.

(** No stored product has this id. *)
Definition fresh_product_id (id : string) (d : Db) : Prop :=
  forall p, In p (products d) -> _id p <> id.

(** Every stored product satisfies the schema. *)
Definition products_valid (d : Db) : Prop := Forall product_valid (products d).

(** From [w] to [w'], the users and the categories are as they were, and
    the products are as they were or have one more document, which the
    schema accepts and whose id is the next one that the store gives. *)
Definition created_at_most_one (w w' : World) : Prop :=
  users (db w') = users (db w)
  /\ categories (db w') = categories (db w)
  /\ (products (db w') = products (db w)
      \/ exists p, product_valid p /\ _id p = new_oid (created w)
                   /\ products (db w') = products (db w) ++ [p]).

(** From [w] to [w'], the users and the categories are as they were, and
    the products are as they were or have the document of this id replaced
    by one of the same id, which the schema accepts. *)
Definition replaced_at_most_one (id : string) (w w' : World) : Prop :=
  users (db w') = users (db w)
  /\ categories (db w') = categories (db w)
  /\ created w' = created w
  /\ (products (db w') = products (db w)
      \/ exists p, product_valid p /\ _id p = id
                   /\ products (db w') = replaceById p (products (db w))).

(** No stored category has this id. *)
Definition fresh_category_id (id : string) (d : Db) : Prop :=
  forall c, In c (categories d) -> cat_id c <> id.

(** The categories as the schema wants them: ids and names without
    repetition, every name trimmed and of 2 to 100 characters. *)
Definition categories_valid (d : Db) : Prop :=
  NoDup (map cat_id (categories d))
  /\ NoDup (map cat_name (categories d))
  /\ Forall (fun c => valid_category_name (cat_name c) = true
                      /\ trim (cat_name c) = cat_name c) (categories d).

(** The world after [createCategory] has stored the category [c]. *)
Definition with_category (w : World) (c : Category) : World :=
  mkWorld (set_categories (db w) (categories (db w) ++ [c]))
          (S (created w)) (uploads w).

(** The world after [updateCategory] has saved the category [c]. *)
Definition with_renamed (w : World) (c : Category) : World :=
  mkWorld (set_categories (db w) (replaceCategoryById c (categories (db w))))
          (created w) (uploads w).

End MoreVocabulary.

(** * Properties *)

(** Closes a goal [run = expected -> _], or [run <> expected], when the run
    ends in another answer. *)
Ltac dead_end :=
  unfold ret, invalid_category, validation_error, server_error, not_found;
  let H := fresh in intros H; inversion H.

(** Closes a goal about a run that ends where it started. *)
Ltac same := split; reflexivity.

(** ** Object ids *)

Lemma hex_digit_hex (n : N) : (n < 16)%N -> is_hex_digit (hex_digit n) = true.
Proof.
  intros Hn. unfold hex_digit.
  assert (Hcases : In n (map N.of_nat (seq 0 16))).
  { apply in_map_iff. exists (N.to_nat n). split; [apply N2Nat.id|].
    apply in_seq. lia. }
  simpl in Hcases.
  repeat (destruct Hcases as [<- | Hcases]; [reflexivity|]).
  destruct Hcases.
Qed.

Lemma hex_digits_spec (k : nat) :
  forall n acc,
    String.length (hex_digits k n acc) = (k + String.length acc)%nat
    /\ (all_hex acc = true -> all_hex (hex_digits k n acc) = true).
Proof.
  induction k as [|k IH]; intros n acc; simpl; [auto|].
  destruct (IH (n / 16)%N (String (hex_digit (n mod 16)%N) acc)) as [Hlen Hhex].
  split; [rewrite Hlen; simpl; lia|].
  intros Hacc. apply Hhex. simpl.
  rewrite hex_digit_hex, Hacc; [reflexivity|].
  apply N.mod_lt. discriminate.
Qed.

Lemma is_object_id_oid_text (n : N) : is_object_id (oid_text n) = true.
Proof.
  unfold is_object_id, oid_text.
  destruct (hex_digits_spec 24 n EmptyString) as [Hlen Hhex].
  rewrite Hlen, Hhex; reflexivity.
Qed.

Lemma is_object_id_new_oid {sv : Services} (n : nat) :
  is_object_id (new_oid n) = true.
Proof. apply is_object_id_oid_text. Qed.

Lemma Model_findById_run {A B} (id_of : A -> string) id (l : list A)
    (k : option A -> M B) (w : World) :
  bind (Model_findById id_of id l) k w
  = if is_object_id id then k (findById id_of id l) w
    else (Thrown StoreError, w).
Proof.
  unfold bind, Model_findById. now destruct (is_object_id id).
Qed.

(** ** Store lookups *)


Lemma findById_split {A} (id_of : A -> string) id (l : list A) x :
  findById id_of id l = Some x ->
  exists l1 l2,
    l = l1 ++ x :: l2 /\ id_of x = id /\
    (forall y, In y l1 -> id_of y <> id) /\
    removeById id_of id l = l1 ++ l2.
Proof.
  unfold findById. induction l as [|y l IH]; simpl; [discriminate|].
  destruct (String.eqb_spec (id_of y) id) as [E|E].
  - intros [= ->]. exists [], l. simpl. repeat split; auto.
  - intros H. destruct (IH H) as (l1 & l2 & -> & Hid & Hl1 & Hrem).
    exists (y :: l1), l2. simpl. rewrite Hrem. repeat split; auto.
    intros z [<-|Hz]; auto.
Qed.

Lemma findById_removeById {A} (id_of : A -> string) id (l : list A) :
  NoDup (map id_of l) -> findById id_of id (removeById id_of id l) = None.
Proof.
  unfold findById. induction l as [|y l IH]; simpl; [reflexivity|].
  intros Hnd. inversion Hnd as [|? ? Hnotin Hnd']; subst.
  destruct (String.eqb_spec (id_of y) id) as [E|E].
  - destruct (find _ l) as [z|] eqn:F; [|reflexivity].
    apply find_some in F. destruct F as [Hin Hz].
    apply String.eqb_eq in Hz. exfalso. apply Hnotin.
    rewrite E, <- Hz. now apply in_map.
  - simpl. apply String.eqb_neq in E. rewrite E. now apply IH.
Qed.

(** ** Orders and the stable sort *)

Lemma ascii_compare_refl a : Ascii.compare a a = Eq.
Proof. unfold Ascii.compare. apply N.compare_refl. Qed.

Lemma ascii_compare_lt_trans a b c :
  Ascii.compare a b = Lt -> Ascii.compare b c = Lt -> Ascii.compare a c = Lt.
Proof. unfold Ascii.compare. rewrite !N.compare_lt_iff. lia. Qed.

Lemma string_compare_trans s1 :
  forall s2 s3,
    String.compare s1 s2 <> Gt -> String.compare s2 s3 <> Gt ->
    String.compare s1 s3 <> Gt.
Proof.
  induction s1 as [|a s1 IH]; intros [|b s2] [|c s3]; simpl;
    try congruence.
  destruct (Ascii.compare a b) eqn:Eab; [| |congruence];
    (destruct (Ascii.compare b c) eqn:Ebc; [| |congruence]).
  - apply Ascii.compare_eq_iff in Eab. apply Ascii.compare_eq_iff in Ebc.
    subst. rewrite ascii_compare_refl. apply IH.
  - apply Ascii.compare_eq_iff in Eab. subst. rewrite Ebc. congruence.
  - apply Ascii.compare_eq_iff in Ebc. subst. rewrite Eab. congruence.
  - rewrite (ascii_compare_lt_trans _ _ _ Eab Ebc). congruence.
Qed.

Lemma string_leb_trans s1 s2 s3 :
  String.leb s1 s2 = true -> String.leb s2 s3 = true -> String.leb s1 s3 = true.
Proof.
  unfold String.leb. intros H1 H2.
  pose proof (string_compare_trans s1 s2 s3) as H.
  destruct (String.compare s1 s2); try discriminate;
    destruct (String.compare s2 s3); try discriminate;
    destruct (String.compare s1 s3); try reflexivity;
    exfalso; apply H; congruence.
Qed.

Lemma key_leb_total a b : key_leb a b = true \/ key_leb b a = true.
Proof.
  destruct a as [|x|x], b as [|y|y]; simpl; auto.
  - destruct (Qle_bool x y) eqn:E; auto. right.
    apply Qle_bool_iff. apply Qlt_le_weak. apply Qnot_le_lt.
    intros H. apply Qle_bool_iff in H. congruence.
  - apply String.leb_total.
Qed.

Lemma key_leb_trans a b c :
  key_leb a b = true -> key_leb b c = true -> key_leb a c = true.
Proof.
  destruct a as [|x|x], b as [|y|y], c as [|z|z]; simpl; try congruence.
  - rewrite !Qle_bool_iff. apply Qle_trans.
  - apply string_leb_trans.
Qed.

Lemma sort_leb_total f o a b :
  sort_leb f o a b = true \/ sort_leb f o b a = true.
Proof. unfold sort_leb. destruct (String.eqb o "desc"); apply key_leb_total. Qed.

Lemma sort_leb_trans f o a b c :
  sort_leb f o a b = true -> sort_leb f o b c = true -> sort_leb f o a c = true.
Proof.
  unfold sort_leb. destruct (String.eqb o "desc"); intros H1 H2.
  - exact (key_leb_trans _ _ _ H2 H1).
  - exact (key_leb_trans _ _ _ H1 H2).
Qed.

Section Sorting.
Context {A : Type} (leb : A -> A -> bool).
Hypothesis leb_total : forall a b, leb a b = true \/ leb b a = true.
Hypothesis leb_trans :
  forall a b c, leb a b = true -> leb b c = true -> leb a c = true.

Lemma insert_by_perm x l : Permutation (insert_by leb x l) (x :: l).
Proof.
  induction l as [|y l IH]; simpl; [reflexivity|].
  destruct (leb x y); [reflexivity|].
  rewrite IH. apply perm_swap.
Qed.

Lemma sort_by_perm l : Permutation (sort_by leb l) l.
Proof.
  induction l as [|x l IH]; simpl; [reflexivity|].
  rewrite insert_by_perm. now constructor.
Qed.

Lemma insert_by_sorted x l :
  StronglySorted (fun a b => leb a b = true) l ->
  StronglySorted (fun a b => leb a b = true) (insert_by leb x l).
Proof.
  induction l as [|y l IH]; simpl; intros Hs.
  - constructor; constructor.
  - inversion Hs as [|? ? Hs' Hall]; subst.
    destruct (leb x y) eqn:E.
    + constructor; [exact Hs|]. constructor; [exact E|].
      eapply Forall_impl; [|exact Hall]. intros z Hz. eapply leb_trans; eauto.
    + constructor; [now apply IH|].
      assert (Hyx : leb y x = true) by (destruct (leb_total x y); congruence).
      eapply Permutation_Forall; [symmetry; apply insert_by_perm|].
      constructor; assumption.
Qed.

Lemma sort_by_sorted l : StronglySorted (fun a b => leb a b = true) (sort_by leb l).
Proof.
  induction l as [|x l IH]; simpl; [constructor|]. now apply insert_by_sorted.
Qed.

End Sorting.

Lemma StronglySorted_skipn {A} (R : A -> A -> Prop) n l :
  StronglySorted R l -> StronglySorted R (skipn n l).
Proof.
  revert l. induction n as [|n IH]; intros l Hs; simpl; [exact Hs|].
  destruct l as [|x l]; [constructor|]. inversion Hs; subst. now apply IH.
Qed.

Lemma In_firstn {A} n (l : list A) x : In x (firstn n l) -> In x l.
Proof.
  revert l. induction n as [|n IH]; intros [|y l]; simpl; try tauto.
  intros [->|H]; auto.
Qed.

Lemma StronglySorted_firstn {A} (R : A -> A -> Prop) n l :
  StronglySorted R l -> StronglySorted R (firstn n l).
Proof.
  revert l. induction n as [|n IH]; intros l Hs; simpl; [constructor|].
  destruct l as [|x l]; [constructor|]. inversion Hs as [|? ? Hs' Hall]; subst.
  constructor; [now apply IH|].
  rewrite Forall_forall in *. intros y Hy. apply Hall.
  eapply In_firstn; eauto.
Qed.

Section Properties.
Context {rt : JsRuntime} {sv : Services}.

(** ** Category deletion *)


(** ** The gate in front of the protected routes *)

(** C9. Behind [protect], a request whose token is missing, is rejected by
    the verification, or names a user that the store does not have, is
    answered 401 with the error code [UNAUTHORIZED]; the handler does not
    run and the world is left as it was. This holds for every handler, and
    so for every route of the product router. *)
Theorem C9_protect_rejects (handler : Request -> M response)
    (req : Request) (w : World) :
  token_missing req \/ token_rejected req \/ user_unresolved req (db w) ->
  exists message,
    protected handler req w
    = (Val (mkResponse 401 (Error message "UNAUTHORIZED")), w).
Proof.
  unfold token_missing, token_rejected, user_unresolved, resolve.
  unfold protected, protect, Model_findById, try_catch, bind, get_db, ret,
    throw, unauthorized.
  intros [[H|H] | [(token & H & Hv) | (token & decoded & H & Hv & Hu)]];
    rewrite H; simpl.
  - eauto.
  - eauto.
  - destruct (str_empty token); [eauto|]. rewrite Hv. eauto.
  - destruct (str_empty token); [eauto|]. rewrite Hv.
    destruct decoded as [id|]; [|eauto].
    destruct (is_object_id id); [rewrite Hu|]; eauto.
Qed.

(** ** Listing *)

Lemma ceil_div_spec a b n :
  0 < b -> ceil_div a b = Some n -> (n - 1) * b < a <= n * b.
Proof.
  unfold ceil_div. intros Hb.
  destruct (Z.eqb_spec b 0) as [->|_]; [lia|]. intros [= <-].
  pose proof (Z.div_mod (- a) b ltac:(lia)) as Hdm.
  pose proof (Z.mod_pos_bound (- a) b Hb) as Hm.
  nia.
Qed.

Lemma skip_limit_positive {A} (skip limitNum : Z) (l : list A) w :
  0 <= skip -> 0 < limitNum ->
  skip_limit skip limitNum l w
  = (Val (firstn (Z.to_nat limitNum) (skipn (Z.to_nat skip) l)), w).
Proof.
  intros Hs Hl. unfold skip_limit, ret.
  destruct (Z.ltb_spec skip 0); [lia|].
  destruct (Z.eqb_spec limitNum 0); [lia|].
  now rewrite Z.abs_eq by lia.
Qed.

Lemma find_sorted_perm q d :
  Permutation (find_sorted q d) (filter (matches q) (products d)).
Proof. apply sort_by_perm. Qed.

Lemma find_sorted_sorted q d :
  StronglySorted (fun a b => sort_leb (sortBy_of q) (sortOrder_of q) a b = true)
                 (find_sorted q d).
Proof.
  apply sort_by_sorted.
  - apply sort_leb_total.
  - apply sort_leb_trans.
Qed.

(** The page of a listing, for a page number and a page size that are
    positive integers. *)
Lemma getProducts_page (req : Request) (w : World) (p l : Z) :
  pageNum_of (query req) = Some p ->
  limitNum_of (query req) = Some l ->
  1 <= p -> 1 <= l ->
  getProducts req w
  = (Val (mkResponse 200
            (ProductList
               (firstn (Z.to_nat l)
                  (skipn (Z.to_nat ((p - 1) * l)) (find_sorted (query req) (db w))))
               (mkPagination p
                  (ceil_div (Z.of_nat (List.length
                                         (filter (matches (query req))
                                                 (products (db w))))) l)
                  (Z.of_nat (List.length (filter (matches (query req))
                                                 (products (db w)))))
                  l))), w).
Proof.
  intros Hp Hl Hp1 Hl1.
  unfold getProducts, try_catch, bind, get_db, ret. rewrite Hp, Hl.
  rewrite skip_limit_positive by nia. reflexivity.
Qed.


(** ** Validation on creation *)

Lemma read_form_submitted req fields files w :
  submitted req = Some (fields, files) ->
  read_form req w = (Val (fields, files), w).
Proof.
  unfold submitted, read_form, parseFormData.
  destruct (is_multipart req); [|now intros [= <- <-]].
  destruct (form req) as [[f fs]|]; [|discriminate]. now intros [= <- <-].
Qed.

Lemma falsy_not_positive v q :
  truthy v = false -> to_number v = Fin q -> Qle_bool q 0 = true.
Proof.
  destruct v as [| |[|]|[|x]|s|l|o]; simpl; try discriminate;
    try (intros _ [= <-]; reflexivity).
  - intros H [= <-]. apply negb_false_iff in H. apply Qeq_bool_iff in H.
    apply Qle_bool_iff. rewrite H. apply Qle_refl.
  - destruct s; simpl; [|discriminate]. intros _ [= <-]. reflexivity.
Qed.

Lemma Qltb_le_bool x y : Qltb x y = negb (Qle_bool y x).
Proof. reflexivity. Qed.

Lemma name_check_spec v w :
  textual v ->
  (if negb (truthy v) then ret true
   else (t <- js_trim v ;; ret (length t <? 2)%nat)) w
  = (Val (negb (name_rule v)), w).
Proof.
  intros [->|[s ->]]; [reflexivity|].
  destruct s as [|c s]; [reflexivity|].
  unfold name_rule. cbn [truthy str_empty negb].
  unfold bind, js_trim. unfold ret. now rewrite Nat.ltb_antisym.
Qed.

Lemma category_check_spec v w :
  textual v ->
  (if negb (truthy v) then ret true
   else (t <- js_trim v ;; ret (length t =? 0)%nat)) w
  = (Val (negb (category_rule v)), w).
Proof.
  intros [->|[s ->]]; [reflexivity|].
  destruct s as [|c s]; [reflexivity|].
  unfold category_rule. cbn [truthy str_empty negb].
  unfold bind, js_trim. unfold ret. now rewrite negb_involutive.
Qed.

Lemma price_check_spec v :
  numeric v ->
  negb (truthy v) || num_le (to_number v) (Fin 0) = negb (price_rule v).
Proof.
  unfold price_rule. intros [->|[q Hq]]; [reflexivity|]. rewrite Hq. simpl.
  rewrite Qltb_le_bool, negb_involutive.
  destruct (truthy v) eqn:T; simpl; [reflexivity|].
  symmetry. eapply falsy_not_positive; eauto.
Qed.

Lemma stock_check_spec v :
  numeric v ->
  is_undefined v || num_lt (to_number v) (Fin 0) = negb (stock_rule v).
Proof.
  unfold stock_rule. intros [->|[q Hq]]; [reflexivity|]. rewrite Hq. simpl.
  assert (is_undefined v = false) as ->
    by (destruct v; try reflexivity; simpl in Hq; discriminate).
  reflexivity.
Qed.

Lemma err_keys flag field message :
  map fst (err (negb flag) field message) = failing flag field.
Proof. now destruct flag. Qed.

(** On fields of their kinds, the checks of [createProduct] report the
    fields that fail their rule, in the order name, price, category, stock. *)
Lemma create_errors_spec n p c s w :
  textual n -> numeric p -> textual c -> numeric s ->
  exists errors,
    create_errors n p c s w = (Val errors, w)
    /\ map fst errors = failing_fields n p c s.
Proof.
  intros Hn Hp Hc Hs. unfold create_errors.
  unfold bind at 1. rewrite (name_check_spec n w Hn).
  unfold bind at 1. rewrite (category_check_spec c w Hc).
  rewrite (price_check_spec p Hp), (stock_check_spec s Hs).
  eexists. split; [reflexivity|].
  rewrite !map_app, !err_keys. reflexivity.
Qed.

Lemma rule_textual_name v : name_rule v = true -> textual v.
Proof. destruct v; try discriminate. right. eauto. Qed.

Lemma rule_textual_category v : category_rule v = true -> textual v.
Proof. destruct v; try discriminate. right. eauto. Qed.

Lemma rule_numeric_price v : price_rule v = true -> numeric v.
Proof.
  unfold price_rule, numeric. destruct (to_number v); [discriminate|eauto].
Qed.

Lemma rule_numeric_stock v : stock_rule v = true -> numeric v.
Proof.
  unfold stock_rule, numeric. destruct (to_number v); [discriminate|eauto].
Qed.

Lemma js_trim_snd v w : snd (js_trim v w) = w.
Proof. now destruct v. Qed.

Lemma create_errors_snd n p c s w : snd (create_errors n p c s w) = w.
Proof.
  unfold create_errors, bind.
  destruct (negb (truthy n)); [unfold ret at 1|];
    [|pose proof (js_trim_snd n w) as Hn;
      destruct (js_trim n w) as [[t|e] w1]; simpl in Hn; subst w1;
      [unfold ret at 1|reflexivity]];
    (destruct (negb (truthy c)); [reflexivity|];
     pose proof (js_trim_snd c w) as Hc;
     destruct (js_trim c w) as [[t'|e'] w2]; simpl in Hc; subst w2;
     reflexivity).
Qed.

(** C7. A creation request whose category (trimmed, as the handler looks it
    up) is the name of no category leaves the world as it was: no call to
    the media host is made and no record is written. When its four fields
    pass their rules, the answer is the 400 error of the invalid category. *)
Theorem C7_createProduct_unknown_category (req : Request) (w : World)
    (fields : Fields) (files : option (list File)) (c : string) :
  submitted req = Some (fields, files) ->
  first_of (f_category fields) = JStr c ->
  findCategoryByName (trim c) (categories (db w)) = None ->
  snd (createProduct req w) = w
  /\ uploads (snd (createProduct req w)) = uploads w
  /\ products (db (snd (createProduct req w))) = products (db w)
  /\ (name_rule (first_of (f_name fields)) = true ->
      price_rule (first_of (f_price fields)) = true ->
      category_rule (first_of (f_category fields)) = true ->
      stock_rule (first_of (f_stock fields)) = true ->
      createProduct req w = (Val invalid_category, w)).
Proof.
  intros Hsub Hcat Hfind.
  assert (Hw : snd (createProduct req w) = w).
  { unfold createProduct, try_catch.
    unfold bind at 1. rewrite (read_form_submitted req fields files w Hsub).
    cbn [fst snd]. unfold bind at 1.
    pose proof (create_errors_snd (first_of (f_name fields))
                  (first_of (f_price fields)) (first_of (f_category fields))
                  (first_of (f_stock fields)) w) as Hpure.
    destruct (create_errors _ _ _ _ w) as [[errors|e] w1];
      simpl in Hpure; subst w1; [|reflexivity].
    destruct (0 <? List.length errors)%nat; [reflexivity|].
    rewrite Hcat. unfold bind at 1, js_trim at 1, ret at 1.
    unfold bind at 1, get_db at 1. rewrite Hfind. reflexivity. }
  split; [exact Hw|]. split; [now rewrite Hw|]. split; [now rewrite Hw|].
  intros Rn Rp Rc Rs.
  destruct (create_errors_spec _ _ _ _ w (rule_textual_name _ Rn)
              (rule_numeric_price _ Rp) (rule_textual_category _ Rc)
              (rule_numeric_stock _ Rs)) as (errors & Hrun & Hkeys).
  unfold failing_fields in Hkeys. rewrite Rn, Rp, Rc, Rs in Hkeys.
  destruct errors; [|discriminate].
  unfold createProduct, try_catch.
  unfold bind at 1. rewrite (read_form_submitted req fields files w Hsub).
  cbn [fst snd]. unfold bind at 1. rewrite Hrun.
  cbn [List.length Nat.ltb Nat.leb].
  rewrite Hcat. unfold bind at 1, js_trim at 1, ret at 1.
  unfold bind at 1, get_db at 1. rewrite Hfind. reflexivity.
Qed.

(** ** Updates that do not touch the images *)

Lemma update_errors_snd n p c s w : snd (update_errors n p c s w) = w.
Proof.
  unfold update_errors, bind.
  destruct (is_undefined n); [unfold ret at 1|];
    [|pose proof (js_trim_snd n w) as Hn;
      destruct (js_trim n w) as [[t|e] w1]; simpl in Hn; subst w1;
      [unfold ret at 1|reflexivity]];
    (destruct (is_undefined c); [reflexivity|];
     pose proof (js_trim_snd c w) as Hc;
     destruct (js_trim c w) as [[t'|e'] w2]; simpl in Hc; subst w2;
     reflexivity).
Qed.

Lemma category_check_snd c w : snd (category_check c w) = w.
Proof.
  unfold category_check, bind. destruct (truthy c); [|reflexivity].
  pose proof (js_trim_snd c w) as Hc.
  destruct (js_trim c w) as [[t|e] w1]; simpl in Hc; subst w1; reflexivity.
Qed.

Lemma assign_text_snd v current w : snd (assign_text v current w) = w.
Proof.
  unfold assign_text, bind. destruct (is_undefined v); [reflexivity|].
  pose proof (js_trim_snd v w) as Hv.
  destruct (js_trim v w) as [[t|e] w1]; simpl in Hv; subst w1; reflexivity.
Qed.

Lemma cast_images_strings l : cast_images (map JStr l) = Some l.
Proof. induction l as [|x l IH]; simpl; [reflexivity|]. now rewrite IH. Qed.

Lemma validate_inv id d p :
  validate id d = Some p ->
  _id p = id /\ cast_images (d_images d) = Some (images p)
  /\ d_price d = Fin (price p) /\ d_stock d = Some (stock p)
  /\ name p = d_name d /\ category p = d_category d.
Proof.
  unfold validate.
  destruct (d_price d) as [|q]; [discriminate|].
  destruct (d_stock d) as [z|]; [|discriminate].
  destruct (cast_images (d_images d)) as [imgs|]; [|discriminate].
  match goal with |- context [if ?b then _ else _] => destruct b end;
    [|discriminate].
  intros [= <-]. simpl. auto 6.
Qed.

Lemma replaceById_entries p l x :
  findById _id (_id p) l = Some x -> images p = images x ->
  map image_entry (replaceById p l) = map image_entry l.
Proof.
  unfold findById. induction l as [|y l IH]; simpl; [discriminate|].
  destruct (String.eqb_spec (_id y) (_id p)) as [E|E].
  - intros [= ->] Hi. simpl. unfold image_entry. now rewrite Hi, E.
  - intros Hf Hi. simpl. f_equal. now apply IH.
Qed.

Lemma findById_entries id l l' p :
  map image_entry l' = map image_entry l ->
  findById _id id l = Some p ->
  exists p', findById _id id l' = Some p' /\ images p' = images p.
Proof.
  unfold findById. revert l'.
  induction l as [|y l IH]; intros [|y' l']; simpl; try discriminate.
  intros [= Hid Him Hrest]. rewrite Hid.
  destruct (String.eqb (_id y) id).
  - intros [= <-]. eauto.
  - now apply IH.
Qed.

Lemma Product_save_keeps product d w :
  findById _id (_id product) (products (db w)) = Some product ->
  d_images d = map JStr (images product) ->
  images_kept w (snd (Product_save (_id product) d w)).
Proof.
  intros Hf Hd. unfold Product_save.
  destruct (validate (_id product) d) as [p|] eqn:V; [|split; reflexivity].
  destruct (validate_inv _ _ _ V) as (Hid & Hc & _).
  rewrite Hd, cast_images_strings in Hc. injection Hc as Hc.
  split; [|reflexivity]. simpl.
  apply replaceById_entries with (x := product); [now rewrite Hid | auto].
Qed.

Lemma findById_id {A} (id_of : A -> string) id (l : list A) x :
  findById id_of id l = Some x -> id_of x = id.
Proof.
  unfold findById. intros H. apply find_some in H.
  now apply String.eqb_eq.
Qed.

(** No file, no keep list and no legacy list: the candidate list is the
    stored one. *)
Lemma reconcile_images_untouched req product fields w :
  truthy (first_if_truthy (f_existingImages fields)) = false ->
  (is_multipart req = true \/ forall u us, f_images (body req) <> JArr (u :: us)) ->
  reconcile_images req product fields None w
  = (Val (map JStr (images product)), w).
Proof.
  intros Hk Hl. unfold reconcile_images, upload_all, keep_existing.
  unfold bind at 1, ret at 1. rewrite Hk. cbn [List.length Nat.eqb andb negb].
  destruct Hl as [-> | Hl]; [reflexivity|].
  destruct (negb (is_multipart req)); [|reflexivity].
  destruct (f_images (body req)) as [| | | | |[|u us]|] eqn:E; try reflexivity.
  exfalso. eapply Hl. reflexivity.
Qed.

Lemma updateProduct_keeps_images req w fields :
  submitted req = Some (fields, None) ->
  truthy (first_if_truthy (f_existingImages fields)) = false ->
  (is_multipart req = true \/ forall u us, f_images (body req) <> JArr (u :: us)) ->
  images_kept w (snd (updateProduct req w)).
Proof.
  intros Hsub Hk Hl.
  unfold updateProduct, try_catch. unfold bind at 1, get_db at 1.
  unfold bind at 1, Model_findById.
  destruct (is_object_id (params_id req)); [unfold ret at 1|same].
  destruct (findById _id (params_id req) (products (db w))) as [product|] eqn:F;
    [|same].
  pose proof (findById_id _ _ _ _ F) as Hid.
  unfold bind at 1. rewrite (read_form_submitted req fields None w Hsub).
  cbn [fst snd]. unfold bind at 1.
  match goal with
  | |- context [update_errors ?a ?b ?c ?d w] =>
      pose proof (update_errors_snd a b c d w) as Hpure;
      destruct (update_errors a b c d w) as [[errors|e] w1]
  end; simpl in Hpure; subst w1; [|same].
  destruct (0 <? List.length errors)%nat; [same|].
  unfold bind at 1.
  match goal with
  | |- context [category_check ?c w] =>
      pose proof (category_check_snd c w) as Hpure;
      destruct (category_check c w) as [[ok|e] w1]
  end; simpl in Hpure; subst w1; [|same].
  destruct (negb ok); [same|].
  unfold bind at 1. rewrite (reconcile_images_untouched req product fields w Hk Hl).
  unfold bind at 1.
  match goal with
  | |- context [assign_text ?v ?c w] =>
      pose proof (assign_text_snd v c w) as Hpure;
      destruct (assign_text v c w) as [[new_name|e] w1]
  end; simpl in Hpure; subst w1; [|same].
  unfold bind at 1.
  match goal with
  | |- context [assign_text ?v ?c w] =>
      pose proof (assign_text_snd v c w) as Hpure;
      destruct (assign_text v c w) as [[new_category|e] w1]
  end; simpl in Hpure; subst w1; [|same].
  unfold bind at 1.
  match goal with
  | |- context [Product_save ?i ?d w] =>
      assert (Hd : d_images d = map JStr (images product))
        by (cbn [d_images]; now destruct (images_assigned _ _ _ _));
      rewrite <- Hid in F;
      pose proof (Product_save_keeps product d w F Hd) as Hsave;
      destruct (Product_save i d w) as [[saved|e] w1]
  end; exact Hsave.
Qed.

(** C1. An update that submits no file, no [existingImages] field and no
    [images] list leaves the stored image list of every product as it was,
    whatever else the update does and however it ends; in particular the
    product it addresses has afterwards the images it had before, the same
    in number and in content. The media host is not called. *)
Theorem C1_update_without_image_fields (req : Request) (w : World)
    (fields : Fields) :
  submitted req = Some (fields, None) ->
  f_existingImages fields = JUndef ->
  f_images (body req) = JUndef ->
  let w' := snd (updateProduct req w) in
  images_kept w w'
  /\ forall p,
       findById _id (params_id req) (products (db w)) = Some p ->
       exists p',
         findById _id (params_id req) (products (db w')) = Some p'
         /\ images p' = images p
         /\ List.length (images p') = List.length (images p).
Proof.
  intros Hsub Hk Hl w'.
  assert (Hkept : images_kept w w').
  { apply (updateProduct_keeps_images req w fields Hsub).
    - now rewrite Hk.
    - right. intros u us E. rewrite Hl in E. discriminate. }
  split; [exact Hkept|]. intros p Hp.
  destruct (findById_entries _ _ _ _ (proj1 Hkept) Hp) as (p' & Hp' & Hi).
  exists p'. repeat split; auto. now rewrite Hi.
Qed.

(** C10, as amended. An update with a JSON body whose [images] field is the
    empty array and which has no [existingImages] field leaves the stored
    image list of every product as it was: the empty legacy list does not
    clear the images. *)
Theorem C10_empty_legacy_list_keeps_images (req : Request) (w : World) :
  is_multipart req = false ->
  f_images (body req) = JArr [] ->
  f_existingImages (body req) = JUndef ->
  let w' := snd (updateProduct req w) in
  images_kept w w'
  /\ forall p,
       findById _id (params_id req) (products (db w)) = Some p ->
       exists p',
         findById _id (params_id req) (products (db w')) = Some p'
         /\ images p' = images p.
Proof.
  intros Hm Hl Hk w'.
  assert (Hkept : images_kept w w').
  { apply (updateProduct_keeps_images req w (body req)).
    - unfold submitted. now rewrite Hm.
    - now rewrite Hk.
    - right. intros u us E. rewrite Hl in E. discriminate. }
  split; [exact Hkept|]. intros p Hp.
  exact (findById_entries _ _ _ _ (proj1 Hkept) Hp).
Qed.

(** ** The keep list *)

Lemma upload_files_run fileArray :
  forall acc w,
  exists ups w',
    upload_files fileArray acc w = (Val (acc ++ map JStr ups), w')
    /\ db w' = db w /\ created w' = created w
    /\ Forall (from_host (Some fileArray)) ups.
Proof.
  induction fileArray as [|f rest IH]; intros acc w.
  - exists [], w. simpl. unfold ret. rewrite app_nil_r. auto.
  - assert (Hweak : forall u, from_host (Some rest) u ->
                              from_host (Some (f :: rest)) u).
    { intros u (e & g & fa & [= <-] & Hin & Hu).
      exists e, g, (f :: rest). simpl. auto. }
    simpl. unfold bind at 1, try_catch.
    destruct (is_image f).
    + unfold bind, uploadFileToCloudinary, upload.
      destruct (cloudinary_upload (uploads w) (filepath f)) as [url|] eqn:U.
      * unfold ret at 1.
        destruct (IH (acc ++ [JStr url])
                     (mkWorld (db w) (created w) (uploads w ++ [filepath f])))
          as (ups & w' & Hrun & Hdb & Hcr & Hall).
        exists (url :: ups), w'. rewrite Hrun. simpl.
        rewrite <- app_assoc. simpl. repeat split; auto.
        constructor.
        -- exists (uploads w), f, (f :: rest). simpl. auto.
        -- eapply Forall_impl; [|exact Hall]. exact Hweak.
      * unfold ret at 1.
        destruct (IH acc (mkWorld (db w) (created w) (uploads w ++ [filepath f])))
          as (ups & w' & Hrun & Hdb & Hcr & Hall).
        exists ups, w'. rewrite Hrun. repeat split; auto.
        eapply Forall_impl; [|exact Hall]. exact Hweak.
    + unfold ret at 1.
      destruct (IH acc w) as (ups & w' & Hrun & Hdb & Hcr & Hall).
      exists ups, w'. rewrite Hrun. repeat split; auto.
      eapply Forall_impl; [|exact Hall]. exact Hweak.
Qed.

Lemma upload_all_run files w :
  exists ups w',
    upload_all files w = (Val (map JStr ups), w')
    /\ db w' = db w /\ created w' = created w
    /\ Forall (from_host files) ups.
Proof.
  destruct files as [fileArray|]; simpl.
  - exact (upload_files_run fileArray [] w).
  - exists [], w. unfold ret. auto.
Qed.

Lemma keep_urls_strings urls :
  forall acc,
    keep_urls (map JStr urls) acc = acc ++ map JStr (filter mentions_cloudinary urls).
Proof.
  induction urls as [|u urls IH]; intros acc.
  - simpl. now rewrite app_nil_r.
  - cbn [map keep_urls filter]. destruct u as [|c u].
    + change (mentions_cloudinary EmptyString) with false.
      cbn [truthy str_empty negb]. apply IH.
    + cbn [truthy str_empty negb]. unfold mentions_cloudinary at 1.
      destruct (includes (String c u) "cloudinary.com"); rewrite IH.
      * cbn [map]. rewrite <- app_assoc. reflexivity.
      * reflexivity.
Qed.

Lemma keep_existing_strings ev urls acc :
  truthy ev = true ->
  JSON_parse (to_str ev) = Some (JArr (map JStr urls)) ->
  keep_existing ev acc = acc ++ map JStr (filter mentions_cloudinary urls).
Proof.
  intros Ht Hp. unfold keep_existing. rewrite Ht, Hp. apply keep_urls_strings.
Qed.

Lemma findById_replaceById p l x :
  findById _id (_id p) l = Some x ->
  findById _id (_id p) (replaceById p l) = Some p.
Proof.
  unfold findById. induction l as [|y l IH]; simpl; [discriminate|].
  destruct (String.eqb (_id y) (_id p)) eqn:E.
  - intros _. simpl. now rewrite String.eqb_refl.
  - intros H. simpl. rewrite E. now apply IH.
Qed.

(** What a successful creation has done. *)
Lemma createProduct_created req w fields files message product w' :
  submitted req = Some (fields, files) ->
  createProduct req w
  = (Val (mkResponse 201 (ProductData message product)), w') ->
  exists ups,
    cast_images (keep_existing (first_of (f_existingImages fields))
                               (map JStr ups)) = Some (images product)
    /\ Forall (from_host files) ups
    /\ In product (products (db w')).
Proof.
  intros Hsub.
  unfold createProduct, try_catch.
  unfold bind at 1. rewrite (read_form_submitted req fields files w Hsub).
  cbn [fst snd]. unfold bind at 1.
  destruct (create_errors _ _ _ _ w) as [[errors|e] w1]; [|dead_end].
  destruct (0 <? List.length errors)%nat; [dead_end|].
  unfold bind at 1.
  destruct (js_trim (first_of (f_category fields)) w1) as [[cname|e] w2];
    [|dead_end].
  unfold bind at 1, get_db at 1.
  destruct (findCategoryByName cname (categories (db w2))); [|dead_end].
  unfold bind at 1.
  destruct (upload_all_run files w2) as (ups & w3 & Hrun & _ & _ & Hall).
  rewrite Hrun. unfold bind at 1.
  destruct (js_trim (first_of (f_name fields)) w3) as [[nm|e] w4];
    [|dead_end].
  unfold bind at 1, Product_create.
  match goal with
  | |- context [validate ?i ?d] => destruct (validate i d) as [p|] eqn:V
  end; [|dead_end].
  unfold ret. intros [= _ <- <-].
  destruct (validate_inv _ _ _ V) as (_ & Hc & _). cbn [d_images] in Hc.
  exists ups. repeat split; auto.
  simpl. apply in_or_app. right. now left.
Qed.

(** What a successful update has done. *)
Lemma updateProduct_updated req w fields files message product w' :
  submitted req = Some (fields, files) ->
  updateProduct req w
  = (Val (mkResponse 200 (ProductData message product)), w') ->
  exists old processed w1,
    findById _id (params_id req) (products (db w)) = Some old
    /\ reconcile_images req old fields files w = (Val processed, w1)
    /\ cast_images (if images_assigned req fields files processed
                    then processed else map JStr (images old))
       = Some (images product)
    /\ (db w1 = db w ->
        findById _id (params_id req) (products (db w')) = Some product).
Proof.
  intros Hsub.
  unfold updateProduct, try_catch. unfold bind at 1, get_db at 1.
  unfold bind at 1, Model_findById.
  destruct (is_object_id (params_id req)); [unfold ret at 1|dead_end].
  destruct (findById _id (params_id req) (products (db w))) as [old|] eqn:F;
    [|dead_end].
  pose proof (findById_id _ _ _ _ F) as Hid.
  unfold bind at 1. rewrite (read_form_submitted req fields files w Hsub).
  cbn [fst snd]. unfold bind at 1.
  match goal with
  | |- context [update_errors ?a ?b ?c ?d w] =>
      pose proof (update_errors_snd a b c d w) as Hpure;
      destruct (update_errors a b c d w) as [[errors|e] w1]
  end; simpl in Hpure; subst w1; [|dead_end].
  destruct (0 <? List.length errors)%nat; [dead_end|].
  unfold bind at 1.
  match goal with
  | |- context [category_check ?c w] =>
      pose proof (category_check_snd c w) as Hpure;
      destruct (category_check c w) as [[ok|e] w1]
  end; simpl in Hpure; subst w1; [|dead_end].
  destruct (negb ok); [dead_end|].
  unfold bind at 1.
  destruct (reconcile_images req old fields files w) as [[processed|e] w1] eqn:R;
    [|dead_end].
  unfold bind at 1.
  match goal with
  | |- context [assign_text ?v ?c w1] =>
      pose proof (assign_text_snd v c w1) as Hpure;
      destruct (assign_text v c w1) as [[new_name|e] w2]
  end; simpl in Hpure; subst w2; [|dead_end].
  unfold bind at 1.
  match goal with
  | |- context [assign_text ?v ?c w1] =>
      pose proof (assign_text_snd v c w1) as Hpure;
      destruct (assign_text v c w1) as [[new_category|e] w2]
  end; simpl in Hpure; subst w2; [|dead_end].
  unfold bind at 1, Product_save.
  match goal with
  | |- context [validate ?i ?d] => destruct (validate i d) as [p|] eqn:V
  end; [|dead_end].
  unfold ret. intros [= _ <- <-].
  destruct (validate_inv _ _ _ V) as (Hpid & Hc & _). cbn [d_images] in Hc.
  exists old, processed, w1. repeat split; auto.
  intros Hdb. simpl. rewrite Hdb, <- Hid, <- Hpid.
  apply findById_replaceById with (x := old). now rewrite Hpid, Hid.
Qed.

Lemma legacy_skipped req :
  (is_multipart req = true \/ forall u us, f_images (body req) <> JArr (u :: us)) ->
  forall processed : list jsval,
    (if negb (is_multipart req)
     then match f_images (body req) with
          | JArr (u :: us) => legacy_images (u :: us) []
          | _ => ret processed
          end
     else ret processed) = ret processed.
Proof.
  intros [-> | Hl] processed; [reflexivity|].
  destruct (negb (is_multipart req)); [|reflexivity].
  destruct (f_images (body req)) as [| | | | |[|u us]|] eqn:E; try reflexivity.
  exfalso. eapply Hl. reflexivity.
Qed.

(** With a keep list and no legacy list, the candidate list is the uploads
    followed by the entries of the keep list that mention [cloudinary.com]. *)
Lemma reconcile_images_keep req old fields files urls w :
  truthy (first_if_truthy (f_existingImages fields)) = true ->
  JSON_parse (to_str (first_if_truthy (f_existingImages fields)))
  = Some (JArr (map JStr urls)) ->
  (is_multipart req = true \/ forall u us, f_images (body req) <> JArr (u :: us)) ->
  exists ups w1,
    reconcile_images req old fields files w
    = (Val (map JStr (ups ++ filter mentions_cloudinary urls)), w1)
    /\ db w1 = db w
    /\ Forall (from_host files) ups.
Proof.
  intros Ht Hp Hl. unfold reconcile_images. unfold bind at 1.
  destruct (upload_all_run files w) as (ups & w1 & Hrun & Hdb & _ & Hall).
  rewrite Hrun. rewrite (keep_existing_strings _ urls _ Ht Hp), Ht.
  rewrite andb_false_r. rewrite (legacy_skipped req Hl).
  exists ups, w1. rewrite map_app. auto.
Qed.

(** ** Sorting *)

Lemma key_leb_field field a b :
  sortable field ->
  key_leb (key_of field a) (key_of field b) = true -> field_le field a b.
Proof.
  unfold sortable. simpl.
  intros [<-|[<-|[<-|[<-|[]]]]]; unfold field_le, key_of; simpl; auto.
  - apply Qle_bool_iff.
  - intros H. apply Qle_bool_iff in H. rewrite <- Zle_Qle in H. exact H.
Qed.

Lemma StronglySorted_impl {A} (R S : A -> A -> Prop) l :
  (forall a b, R a b -> S a b) -> StronglySorted R l -> StronglySorted S l.
Proof.
  intros HRS. induction 1 as [|x l Hs IH Hall]; constructor; auto.
  eapply Forall_impl; [|exact Hall]. auto.
Qed.

(** C4, as amended. When [sortBy] (by default [name]) is one of [name],
    [price], [stock], [category], the listing is sorted by that field:
    in descending order when [sortOrder] is exactly [desc], in ascending
    order for every other [sortOrder], absent or not. The items answered
    are a page of that sorted list, which holds the matching products. *)
Theorem C4_getProducts_sorted (req : Request) (w : World) (p l : Z) :
  sortable (sortBy_of (query req)) ->
  pageNum_of (query req) = Some p ->
  limitNum_of (query req) = Some l ->
  1 <= p -> 1 <= l ->
  let q := query req in
  let direction (a b : Product) : Prop :=
    if String.eqb (sortOrder_of q) "desc"
    then field_le (sortBy_of q) b a
    else field_le (sortBy_of q) a b in
  exists items pagination,
    getProducts req w
    = (Val (mkResponse 200 (ProductList items pagination)), w)
    /\ items
       = firstn (Z.to_nat l)
           (skipn (Z.to_nat ((p - 1) * l)) (find_sorted q (db w)))
    /\ Permutation (find_sorted q (db w)) (filter (matches q) (products (db w)))
    /\ StronglySorted direction (find_sorted q (db w))
    /\ StronglySorted direction items.
Proof.
  intros Hf Hp Hl Hp1 Hl1 q direction.
  assert (Hs : StronglySorted direction (find_sorted q (db w))).
  { eapply StronglySorted_impl; [|apply find_sorted_sorted].
    intros a b. unfold sort_leb, direction.
    destruct (String.eqb (sortOrder_of q) "desc");
      now apply key_leb_field. }
  eexists _, _. split; [exact (getProducts_page req w p l Hp Hl Hp1 Hl1)|].
  split; [reflexivity|]. split; [apply find_sorted_perm|].
  split; [exact Hs|].
  apply StronglySorted_firstn. apply StronglySorted_skipn. exact Hs.
Qed.

End Properties.

(** * Properties of the other handlers *)

(** ** Strings *)

Lemma string_app_assoc (a b c : string) :
  ((a ++ b) ++ c)%string = (a ++ (b ++ c))%string.
Proof. induction a as [|x a IH]; simpl; [reflexivity|]. now rewrite IH. Qed.

Lemma string_app_nil_r (a : string) : (a ++ EmptyString)%string = a.
Proof. induction a as [|x a IH]; simpl; [reflexivity|]. now rewrite IH. Qed.

Lemma rev_string_acc (s : string) :
  forall acc, rev_string acc s = (rev_string EmptyString s ++ acc)%string.
Proof.
  induction s as [|c s IH]; intros acc; simpl; [reflexivity|].
  rewrite (IH (String c acc)), (IH (String c EmptyString)).
  now rewrite string_app_assoc.
Qed.

Lemma rev_string_app (a b : string) :
  rev_string EmptyString (a ++ b)
  = (rev_string EmptyString b ++ rev_string EmptyString a)%string.
Proof.
  induction a as [|c a IH]; simpl.
  - now rewrite string_app_nil_r.
  - rewrite (rev_string_acc (a ++ b)), (rev_string_acc a), IH.
    now rewrite string_app_assoc.
Qed.

Lemma rev_string_involutive (s : string) :
  rev_string EmptyString (rev_string EmptyString s) = s.
Proof.
  induction s as [|c s IH]; simpl; [reflexivity|].
  rewrite (rev_string_acc s (String c EmptyString)), rev_string_app, IH.
  reflexivity.
Qed.

Lemma trim_start_clean (s : string) : starts_clean (trim_start s).
Proof.
  induction s as [|c s IH]; simpl; [exact I|].
  destruct (is_ws c) eqn:E; [exact IH | exact E].
Qed.

Lemma trim_start_of_clean (s : string) : starts_clean s -> trim_start s = s.
Proof. destruct s as [|c s]; simpl; [reflexivity|]. now intros ->. Qed.

Lemma trim_start_keeps_last (a : string) (c : ascii) :
  is_ws c = false ->
  exists a', trim_start (a ++ String c EmptyString) = (a' ++ String c EmptyString)%string.
Proof.
  intros Hc. induction a as [|x a IH]; simpl.
  - rewrite Hc. now exists EmptyString.
  - destruct (is_ws x); [exact IH|]. now exists (String x a).
Qed.

Lemma trim_end_clean (s : string) : starts_clean s -> starts_clean (trim_end s).
Proof.
  destruct s as [|c s]; [intros _; exact I|]. simpl. intros Hc.
  unfold trim_end. simpl. rewrite (rev_string_acc s (String c EmptyString)).
  destruct (trim_start_keeps_last (rev_string EmptyString s) c Hc) as [a' ->].
  rewrite rev_string_app. simpl. exact Hc.
Qed.

Lemma trim_end_idempotent (s : string) : trim_end (trim_end s) = trim_end s.
Proof.
  unfold trim_end. rewrite rev_string_involutive.
  now rewrite (trim_start_of_clean _ (trim_start_clean _)).
Qed.

(** Trimming a trimmed string changes nothing. *)
Lemma trim_idempotent (s : string) : trim (trim s) = trim s.
Proof.
  unfold trim.
  rewrite (trim_start_of_clean (trim_end (trim_start s))).
  - apply trim_end_idempotent.
  - apply trim_end_clean, trim_start_clean.
Qed.

Lemma split_aux_without (sep : ascii) (s : string) :
  has_char sep s = false ->
  forall cur, split_aux sep cur s = [(rev_string EmptyString cur ++ s)%string].
Proof.
  induction s as [|x s IH]; simpl; intros H cur.
  - now rewrite string_app_nil_r.
  - apply orb_false_iff in H. destruct H as [Hx Hs]. rewrite Hx.
    rewrite (IH Hs). simpl.
    rewrite (rev_string_acc cur (String x EmptyString)), string_app_assoc.
    reflexivity.
Qed.

Lemma split_aux_app (sep : ascii) (a b : string) :
  forall cur,
    split_aux sep cur (a ++ String sep b)
    = split_aux sep cur a ++ split_aux sep EmptyString b.
Proof.
  induction a as [|x a IH]; simpl; intros cur.
  - now rewrite Ascii.eqb_refl.
  - destruct (Ascii.eqb x sep); simpl; now rewrite IH.
Qed.

Lemma split_without (sep : ascii) (s : string) :
  has_char sep s = false -> split sep s = [s].
Proof. intros H. unfold split. now rewrite (split_aux_without sep s H). Qed.

Lemma split_app (sep : ascii) (a b : string) :
  split sep (a ++ String sep b) = split sep a ++ split sep b.
Proof. apply split_aux_app. Qed.

Lemma split_nonempty (sep : ascii) (s : string) : split sep s <> [].
Proof.
  unfold split. generalize EmptyString as cur.
  induction s as [|x s IH]; simpl; intros cur; [discriminate|].
  destruct (Ascii.eqb x sep); [discriminate | apply IH].
Qed.

Section MoreProperties.
Context {rt : JsRuntime} {sv : Services} {cr : Credentials}.

(** ** deleteImage and deleteProduct *)

Lemma has_char_app (c : ascii) (a b : string) :
  has_char c (a ++ b) = has_char c a || has_char c b.
Proof.
  induction a as [|x a IH]; simpl; [reflexivity|].
  now rewrite IH, orb_assoc.
Qed.

Lemma slice_last_app {A} (l tail : list A) :
  slice_last (List.length tail) (l ++ tail) = tail.
Proof.
  unfold slice_last. rewrite length_app, Nat.add_sub.
  rewrite skipn_app, skipn_all, Nat.sub_diag. reflexivity.
Qed.

(** X1. For a URL that ends in [/folder/file.ext], where neither the folder
    nor the file name has a slash or a dot and the extension has no slash,
    the public id that [deleteImage] hands to the media host is
    [folder/file], whatever comes before. *)
Theorem X1_public_id_of_hosted_url (prefix folder file ext : string) :
  has_char "/" folder = false -> has_char "." folder = false ->
  has_char "/" file = false -> has_char "." file = false ->
  has_char "/" ext = false ->
  public_id (prefix ++ "/" ++ folder ++ "/" ++ file ++ "." ++ ext)
  = (folder ++ "/" ++ file)%string.
Proof.
  intros Hsf Hdf Hsn Hdn Hse. unfold public_id.
  change (prefix ++ "/" ++ folder ++ "/" ++ file ++ "." ++ ext)%string
    with (prefix ++ String "/" (folder ++ String "/" (file ++ String "." ext)))%string.
  rewrite !split_app.
  rewrite (split_without "/" folder Hsf).
  rewrite (split_without "/" (file ++ String "." ext)).
  2:{ rewrite has_char_app. simpl. now rewrite Hsn, Hse. }
  change ([folder] ++ [(file ++ String "." ext)%string])
    with [folder; (file ++ String "." ext)%string].
  pose proof (slice_last_app (split "/" prefix)
                [folder; (file ++ String "." ext)%string]) as Hlast.
  cbn [List.length] in Hlast. rewrite Hlast.
  unfold join. cbn [String.concat].
  replace (folder ++ "/" ++ file ++ String "." ext)%string
    with ((folder ++ "/" ++ file) ++ String "." ext)%string
    by (rewrite string_app_assoc; reflexivity).
  rewrite split_app, (split_without "." (folder ++ "/" ++ file)).
  - reflexivity.
  - rewrite has_char_app. simpl. now rewrite Hdf, Hdn.
Qed.

Lemma fold_deleteImage (urls : list string) :
  forall log,
    fold_left (fun log imageUrl => deleteImage imageUrl log) urls log
    = log ++ map public_id urls.
Proof.
  induction urls as [|u urls IH]; intros log; simpl.
  - now rewrite app_nil_r.
  - rewrite IH. unfold deleteImage. now rewrite <- app_assoc.
Qed.

Lemma deleteProduct_run (req : Request) (w : World) :
  if is_object_id (params_id req)
  then
    match findById _id (params_id req) (products (db w)) with
    | None =>
        deleteProduct req w
        = (Val (mkResponse 404 (Error "Product not found" "NOT_FOUND"), []), w)
    | Some p =>
        exists w',
          deleteProduct req w
          = (Val (mkResponse 200 (Message "Product deleted successfully"),
                  map public_id (images p)), w')
          /\ categories (db w') = categories (db w)
          /\ users (db w') = users (db w)
          /\ uploads w' = uploads w
          /\ created w' = created w
          /\ (exists l1 l2,
                products (db w) = l1 ++ p :: l2 /\
                products (db w') = l1 ++ l2 /\
                forall y, In y l1 -> _id y <> params_id req)
          /\ (NoDup (map _id (products (db w))) ->
              getProduct req w'
              = (Val (mkAnswer 404
                        (Plain (Error "Product not found" "NOT_FOUND"))), w'))
    end
  else
    deleteProduct req w
    = (Val (mkResponse 500 (Error "Server error" "SERVER_ERROR"), []), w).
Proof.
  unfold deleteProduct, Model_findById, try_catch, bind, get_db, ret, throw.
  destruct (is_object_id (params_id req)) eqn:Hcast; [|reflexivity].
  destruct (findById _id (params_id req) (products (db w))) as [p|] eqn:F;
    [|reflexivity].
  destruct (findById_split _ _ _ _ F) as (l1 & l2 & Hl & _ & Hl1 & Hrem).
  eexists. split.
  - unfold put_db. rewrite fold_deleteImage. reflexivity.
  - simpl. repeat split.
    + exists l1, l2. auto.
    + intros Hnd.
      unfold getProduct, Model_findById, try_catch, bind, get_db, ret.
      rewrite Hcast. simpl.
      now rewrite (findById_removeById _id (params_id req) _ Hnd).
Qed.


(** ** What a creation does *)

Lemma read_form_run req w :
  match submitted req with
  | Some ff => read_form req w = (Val ff, w)
  | None => read_form req w = (Thrown FormError, w)
  end.
Proof.
  unfold submitted, read_form, parseFormData.
  destruct (is_multipart req); [|reflexivity].
  destruct (form req); reflexivity.
Qed.

Lemma upload_files_log fileArray :
  forall acc w,
    uploads (snd (upload_files fileArray acc w))
    = uploads w ++ map filepath (filter is_image fileArray).
Proof.
  induction fileArray as [|f rest IH]; intros acc w; simpl.
  - now rewrite app_nil_r.
  - unfold bind at 1, try_catch.
    destruct (is_image f).
    + unfold bind, uploadFileToCloudinary, upload.
      destruct (cloudinary_upload (uploads w) (filepath f));
        unfold ret at 1; rewrite IH; simpl; now rewrite <- app_assoc.
    + unfold ret at 1. apply IH.
Qed.

Lemma upload_all_log files w :
  uploads (snd (upload_all files w)) = uploads w ++ upload_sources files.
Proof.
  destruct files as [fileArray|]; simpl.
  - apply upload_files_log.
  - now rewrite app_nil_r.
Qed.

Lemma validate_valid id d p : validate id d = Some p -> product_valid p.
Proof.
  unfold validate, product_valid.
  destruct (d_price d) as [|q]; [discriminate|].
  destruct (d_stock d) as [z|]; [|discriminate].
  destruct (cast_images (d_images d)) as [imgs|]; [|discriminate].
  destruct (_ && _) eqn:E; [|discriminate].
  intros [= <-]. simpl.
  repeat (apply andb_true_iff in E; destruct E as [E ?]).
  repeat split.
  - now apply Nat.leb_le.
  - now apply Nat.leb_le.
  - now apply Qle_bool_iff.
  - intros Hc. rewrite Hc in *. discriminate.
  - now apply Z.leb_le.
  - now apply Nat.leb_le.
Qed.

(** What a creation that answers 201 has done. *)
Lemma createProduct_appends req w message product w' :
  createProduct req w
  = (Val (mkResponse 201 (ProductData message product)), w') ->
  exists fields files,
    submitted req = Some (fields, files)
    /\ products (db w') = products (db w) ++ [product]
    /\ categories (db w') = categories (db w)
    /\ users (db w') = users (db w)
    /\ _id product = new_oid (created w)
    /\ created w' = S (created w)
    /\ uploads w' = uploads w ++ upload_sources files
    /\ product_valid product
    /\ (exists c, first_of (f_category fields) = JStr c
                  /\ category product = trim c
                  /\ findCategoryByName (trim c) (categories (db w)) <> None).
Proof.
  unfold createProduct, try_catch.
  unfold bind at 1. pose proof (read_form_run req w) as Hform.
  destruct (submitted req) as [[fields files]|]; rewrite Hform; [|dead_end].
  cbn [fst snd]. unfold bind at 1.
  match goal with
  | |- context [create_errors ?a ?b ?c ?d w] =>
      pose proof (create_errors_snd a b c d w) as Hpure;
      destruct (create_errors a b c d w) as [[errors|e] w1]
  end; simpl in Hpure; subst w1; [|dead_end].
  destruct (0 <? List.length errors)%nat; [dead_end|].
  unfold bind at 1.
  destruct (first_of (f_category fields)) as [| | | |c| |] eqn:Hcat;
    try solve [unfold js_trim, throw; dead_end].
  unfold js_trim at 1, ret at 1.
  unfold bind at 1, get_db at 1.
  destruct (findCategoryByName (trim c) (categories (db w))) eqn:Hfind;
    [|dead_end].
  unfold bind at 1.
  pose proof (upload_all_log files w) as Hlog.
  destruct (upload_all_run files w) as (ups & w3 & Hrun & Hdb & Hcr & _).
  rewrite Hrun in Hlog |- *. cbn [snd] in Hlog. unfold bind at 1.
  pose proof (js_trim_snd (first_of (f_name fields)) w3) as Hpure.
  destruct (js_trim (first_of (f_name fields)) w3) as [[nm|e] w4];
    simpl in Hpure; subst w4; [|dead_end].
  unfold bind at 1, Product_create.
  match goal with
  | |- context [validate ?i ?d] => destruct (validate i d) as [p|] eqn:V
  end; [|dead_end].
  unfold ret. intros [= _ <- <-].
  destruct (validate_inv _ _ _ V) as (Hid & _ & _ & _ & _ & Hc).
  cbn [d_category] in Hc. unfold schema_trim in Hc. rewrite trim_idempotent in Hc.
  assert (Hvalid : product_valid p) by (eapply validate_valid; eauto).
  rewrite Hcr in Hid.
  exists fields, files. simpl. rewrite Hdb, Hcr.
  do 7 (split; [solve [auto]|]). split; [exact Hvalid|].
  exists c. repeat split; auto. congruence.
Qed.

Lemma findById_app_fresh id (l : list Product) p :
  (forall x, In x l -> _id x <> id) -> _id p = id ->
  findById _id id (l ++ [p]) = Some p.
Proof.
  unfold findById. intros Hl Hp. induction l as [|x l IH]; simpl.
  - now rewrite Hp, String.eqb_refl.
  - destruct (String.eqb_spec (_id x) id) as [E|E].
    + exfalso. apply (Hl x); [now left | exact E].
    + apply IH. intros y Hy. apply Hl. now right.
Qed.

(** X3. A product that [createProduct] has just stored, under an id that no
    stored product had, is what [getProduct] answers for that id: the
    record of the 201 answer, the last of the collection. *)
Theorem X3_created_product_is_found (req req' : Request) (w w' : World)
    (message : string) (product : Product) :
  createProduct req w
  = (Val (mkResponse 201 (ProductData message product)), w') ->
  fresh_product_id (new_oid (created w)) (db w) ->
  params_id req' = _id product ->
  products (db w') = products (db w) ++ [product]
  /\ getProduct req' w' = (Val (mkAnswer 200 (ProductFound product)), w').
Proof.
  intros Hrun Hfresh Hid.
  destruct (createProduct_appends _ _ _ _ _ Hrun)
    as (fields & files & _ & Hp & _ & _ & Hnew & _).
  split; [exact Hp|].
  unfold getProduct, Model_findById, try_catch, bind, get_db, ret.
  rewrite Hp, Hid, Hnew, is_object_id_new_oid, <- Hnew.
  rewrite (findById_app_fresh (_id product) _ product); auto.
  intros x Hx. rewrite Hnew. now apply Hfresh.
Qed.

(** X4. A product that [createProduct] stores satisfies the schema, and its
    category is, trimmed, the category submitted and the name of a category
    that the store has at that moment. *)
Theorem X4_created_product_is_sound (req : Request) (w w' : World)
    (message : string) (product : Product) :
  createProduct req w
  = (Val (mkResponse 201 (ProductData message product)), w') ->
  product_valid product
  /\ exists c, In c (categories (db w)) /\ cat_name c = category product.
Proof.
  intros Hrun.
  destruct (createProduct_appends _ _ _ _ _ Hrun)
    as (fields & files & _ & _ & _ & _ & _ & _ & _ & Hvalid & s & _ & Hc & Hfind).
  split; [exact Hvalid|].
  destruct (findCategoryByName (trim s) (categories (db w))) as [c|] eqn:F;
    [|congruence].
  unfold findCategoryByName in F. apply find_some in F.
  destruct F as [Hin Heq]. apply String.eqb_eq in Heq.
  exists c. split; [exact Hin | congruence].
Qed.

(** X5. A creation that answers 201 has called the media host exactly once
    for each uploaded file whose type begins with [image/], in the order of
    the files, and for nothing else. *)
Theorem X5_creation_uploads_image_files (req : Request) (w w' : World)
    (message : string) (product : Product) :
  createProduct req w
  = (Val (mkResponse 201 (ProductData message product)), w') ->
  exists fields files,
    submitted req = Some (fields, files)
    /\ uploads w' = uploads w ++ upload_sources files.
Proof.
  intros Hrun.
  destruct (createProduct_appends _ _ _ _ _ Hrun)
    as (fields & files & Hsub & _ & _ & _ & _ & _ & Hlog & _).
  exists fields, files. auto.
Qed.

(** ** The products stay valid *)

Lemma legacy_images_run urls :
  forall acc w,
  exists l w1,
    legacy_images urls acc w = (Val l, w1)
    /\ db w1 = db w /\ created w1 = created w.
Proof.
  induction urls as [|u urls IH]; intros acc w.
  - exists acc, w. simpl. unfold ret. auto.
  - simpl. unfold bind at 1.
    destruct u as [| | | |s| |];
      try (unfold ret at 1; apply IH).
    destruct (negb (str_empty s) && negb (str_empty (trim s)));
      [|unfold ret at 1; apply IH].
    unfold try_catch.
    destruct (includes s "cloudinary.com"); [unfold ret at 1; apply IH|].
    destruct (includes s "http"); [|unfold ret at 1; apply IH].
    unfold bind, uploadImageFromUrl, upload.
    destruct (cloudinary_upload (uploads w) s); unfold ret at 1;
      match goal with
      | |- context [legacy_images urls ?a ?w0] =>
          destruct (IH a w0) as (l & w1 & Hrun & Hdb & Hcr)
      end; exists l, w1; auto.
Qed.

Lemma reconcile_images_run req product fields files w :
  exists l w1,
    reconcile_images req product fields files w = (Val l, w1)
    /\ db w1 = db w /\ created w1 = created w.
Proof.
  unfold reconcile_images. unfold bind at 1.
  destruct (upload_all_run files w) as (ups & w1 & Hrun & Hdb & Hcr & _).
  rewrite Hrun.
  destruct (negb (is_multipart req)); [|unfold ret; eauto].
  destruct (f_images (body req)) as [| | | | |[|u us]|];
    try (unfold ret; eauto).
  destruct (legacy_images_run (u :: us) [] w1) as (l & w2 & Hleg & Hdb2 & Hcr2).
  exists l, w2. rewrite Hleg. repeat split; congruence.
Qed.

Lemma createProduct_effect req w :
  created_at_most_one w (snd (createProduct req w)).
Proof.
  assert (Hsame : forall w1, db w1 = db w -> created_at_most_one w w1).
  { intros w1 E. unfold created_at_most_one. rewrite E. auto. }
  unfold createProduct, try_catch.
  unfold bind at 1. pose proof (read_form_run req w) as Hform.
  destruct (submitted req) as [[fields files]|]; rewrite Hform;
    [|now apply Hsame].
  cbn [fst snd]. unfold bind at 1.
  match goal with
  | |- context [create_errors ?a ?b ?c ?d w] =>
      pose proof (create_errors_snd a b c d w) as Hpure;
      destruct (create_errors a b c d w) as [[errors|e] w1]
  end; simpl in Hpure; subst w1; [|now apply Hsame].
  destruct (0 <? List.length errors)%nat; [now apply Hsame|].
  unfold bind at 1.
  pose proof (js_trim_snd (first_of (f_category fields)) w) as Hpure.
  destruct (js_trim (first_of (f_category fields)) w) as [[cname|e] w1];
    simpl in Hpure; subst w1; [|now apply Hsame].
  unfold bind at 1, get_db at 1.
  destruct (findCategoryByName cname (categories (db w)));
    [|now apply Hsame].
  unfold bind at 1.
  destruct (upload_all_run files w) as (ups & w3 & Hrun & Hdb & Hcr & _).
  rewrite Hrun. unfold bind at 1.
  pose proof (js_trim_snd (first_of (f_name fields)) w3) as Hpure.
  destruct (js_trim (first_of (f_name fields)) w3) as [[nm|e] w4];
    simpl in Hpure; subst w4; [|now apply Hsame].
  unfold bind at 1, Product_create.
  match goal with
  | |- context [validate ?i ?d] => destruct (validate i d) as [p|] eqn:V
  end; [|now apply Hsame].
  unfold ret, created_at_most_one. simpl. rewrite Hdb.
  repeat split; auto. right. exists p.
  split; [eapply validate_valid; eauto|]. split; [|reflexivity].
  rewrite <- Hcr. now destruct (validate_inv _ _ _ V).
Qed.

Lemma updateProduct_effect req w :
  replaced_at_most_one (params_id req) w (snd (updateProduct req w)).
Proof.
  assert (Hsame : forall w1, db w1 = db w -> created w1 = created w ->
                             replaced_at_most_one (params_id req) w w1).
  { intros w1 E E'. unfold replaced_at_most_one. rewrite E, E'. auto. }
  unfold updateProduct, try_catch. unfold bind at 1, get_db at 1.
  unfold bind at 1, Model_findById.
  destruct (is_object_id (params_id req)); [unfold ret at 1|now apply Hsame].
  destruct (findById _id (params_id req) (products (db w))) as [old|] eqn:F;
    [|now apply Hsame].
  pose proof (findById_id _ _ _ _ F) as Hid.
  unfold bind at 1. pose proof (read_form_run req w) as Hform.
  destruct (submitted req) as [[fields files]|]; rewrite Hform;
    [|now apply Hsame].
  cbn [fst snd]. unfold bind at 1.
  match goal with
  | |- context [update_errors ?a ?b ?c ?d w] =>
      pose proof (update_errors_snd a b c d w) as Hpure;
      destruct (update_errors a b c d w) as [[errors|e] w1]
  end; simpl in Hpure; subst w1; [|now apply Hsame].
  destruct (0 <? List.length errors)%nat; [now apply Hsame|].
  unfold bind at 1.
  match goal with
  | |- context [category_check ?c w] =>
      pose proof (category_check_snd c w) as Hpure;
      destruct (category_check c w) as [[ok|e] w1]
  end; simpl in Hpure; subst w1; [|now apply Hsame].
  destruct (negb ok); [now apply Hsame|].
  unfold bind at 1.
  destruct (reconcile_images_run req old fields files w)
    as (processed & w1 & Hrec & Hdb & Hcr).
  rewrite Hrec. unfold bind at 1.
  match goal with
  | |- context [assign_text ?v ?c w1] =>
      pose proof (assign_text_snd v c w1) as Hpure;
      destruct (assign_text v c w1) as [[new_name|e] w2]
  end; simpl in Hpure; subst w2; [|now apply Hsame].
  unfold bind at 1.
  match goal with
  | |- context [assign_text ?v ?c w1] =>
      pose proof (assign_text_snd v c w1) as Hpure;
      destruct (assign_text v c w1) as [[new_category|e] w2]
  end; simpl in Hpure; subst w2; [|now apply Hsame].
  unfold bind at 1, Product_save.
  match goal with
  | |- context [validate ?i ?d] => destruct (validate i d) as [p|] eqn:V
  end; [|now apply Hsame].
  destruct (validate_inv _ _ _ V) as (Hpid & _).
  unfold ret, replaced_at_most_one. simpl. rewrite Hdb, Hcr.
  repeat split; auto. right. exists p.
  split; [eapply validate_valid; eauto|]. split; [congruence | reflexivity].
Qed.

Lemma Forall_replaceById (P : Product -> Prop) p l :
  P p -> Forall P l -> Forall P (replaceById p l).
Proof.
  intros Hp. induction 1 as [|x l Hx Hl IH]; simpl; [constructor|].
  destruct (String.eqb (_id x) (_id p)); constructor; auto.
Qed.

(** X6. The product handlers keep the collection within the schema: if
    every stored product satisfies it before [createProduct],
    [updateProduct] or [deleteProduct], every stored product satisfies it
    afterwards, whatever the request and however it is answered; and none
    of the three changes a category or a user. *)
Theorem X6_products_stay_valid (req : Request) (w : World) :
  products_valid (db w) ->
  (products_valid (db (snd (createProduct req w)))
   /\ categories (db (snd (createProduct req w))) = categories (db w)
   /\ users (db (snd (createProduct req w))) = users (db w))
  /\ (products_valid (db (snd (updateProduct req w)))
      /\ categories (db (snd (updateProduct req w))) = categories (db w)
      /\ users (db (snd (updateProduct req w))) = users (db w))
  /\ (products_valid (db (snd (deleteProduct req w)))
      /\ categories (db (snd (deleteProduct req w))) = categories (db w)
      /\ users (db (snd (deleteProduct req w))) = users (db w)).
Proof.
  unfold products_valid. intros Hv. split; [|split].
  - destruct (createProduct_effect req w)
      as (Hu & Hc & [Hp | (p & Hvp & _ & Hp)]);
      rewrite Hp; repeat split; auto.
    apply Forall_app. split; [exact Hv | now constructor].
  - destruct (updateProduct_effect req w)
      as (Hu & Hc & _ & [Hp | (p & Hvp & _ & Hp)]);
      rewrite Hp; repeat split; auto.
    now apply Forall_replaceById.
  - pose proof (deleteProduct_run req w) as Hd.
    destruct (is_object_id (params_id req)); [|now rewrite Hd].
    destruct (findById _id (params_id req) (products (db w))) as [p|].
    + destruct Hd as (w' & -> & Hc & Hu & _ & _ & (l1 & l2 & Hl & Hl' & _) & _).
      cbn [snd]. repeat split; auto.
      rewrite Hl'. rewrite Hl in Hv. apply Forall_app in Hv.
      destruct Hv as [H1 H2]. inversion H2; subst.
      apply Forall_app. auto.
    + rewrite Hd. cbn [snd]. auto.
Qed.

(** ** The category handlers *)

Lemma category_name_invalid_string s w :
  category_name_invalid (JStr s) w = (Val (length (trim s) <? 2)%nat, w).
Proof.
  unfold category_name_invalid. destruct s as [|c s]; [reflexivity|].
  reflexivity.
Qed.

Lemma category_name_invalid_snd v w : snd (category_name_invalid v w) = w.
Proof.
  unfold category_name_invalid, bind. destruct (negb (truthy v)); [reflexivity|].
  pose proof (js_trim_snd v w) as Hv.
  destruct (js_trim v w) as [[t|e] w1]; simpl in Hv; subst w1; reflexivity.
Qed.

Lemma valid_category_name_bounds nm :
  valid_category_name nm = negb (length nm <? 2)%nat && negb (100 <? length nm)%nat.
Proof.
  unfold valid_category_name.
  now rewrite (Nat.ltb_antisym 2 (length nm)), (Nat.ltb_antisym (length nm) 100),
    !negb_involutive.
Qed.

Lemma createCategory_run (req : Request) (w : World) (s : string) :
  f_name (body req) = JStr s ->
  let nm := trim s in
  if (length nm <? 2)%nat
  then createCategory req w = (Val category_name_required, w)
  else
    match findCategoryByName nm (categories (db w)) with
    | Some _ => createCategory req w = (Val duplicate_category, w)
    | None =>
        if (100 <? length nm)%nat
        then createCategory req w = (Val server_failure, w)
        else
          createCategory req w
          = (Val (mkAnswer 201
                    (CategoryData "Category created successfully"
                       (mkCategory (new_oid (created w)) nm))),
             with_category w (mkCategory (new_oid (created w)) nm))
    end.
Proof.
  intros Hname nm.
  assert (Hstored : schema_trim nm = nm) by apply trim_idempotent.
  assert (Hstart : forall k : bool -> M answer,
            bind (category_name_invalid (f_name (body req))) k w
            = k (length nm <? 2)%nat w).
  { intros k. unfold bind. now rewrite Hname, category_name_invalid_string. }
  unfold createCategory, try_catch.
  destruct (length nm <? 2)%nat eqn:Hshort.
  - now rewrite Hstart, ?Hshort.
  - destruct (findCategoryByName nm (categories (db w))) eqn:Hfind.
    + rewrite Hstart, ?Hshort, Hname. unfold bind, js_trim, ret, get_db. fold nm.
      now rewrite Hfind.
    + destruct (100 <? length nm)%nat eqn:Hlong;
        rewrite Hstart, ?Hshort, Hname; unfold bind, js_trim, ret, get_db; fold nm;
        rewrite Hfind; unfold Category_create;
        rewrite Hstored, valid_category_name_bounds, Hshort, Hlong, Hfind;
        reflexivity.
Qed.

Lemma findById_category_id (id : string) (l : list Category) c :
  findById cat_id id l = Some c -> cat_id c = id.
Proof. apply findById_id. Qed.

Lemma updateCategory_run (req : Request) (w : World) (s : string) :
  f_name (body req) = JStr s ->
  let nm := trim s in
  if (length nm <? 2)%nat
  then updateCategory req w = (Val category_name_required, w)
  else if negb (is_object_id (params_id req))
  then updateCategory req w
       = (Val (mkAnswer 500 (Plain (Error "Server error" "SERVER_ERROR"))), w)
  else
    match findById cat_id (params_id req) (categories (db w)) with
    | None => updateCategory req w = (Val category_not_found, w)
    | Some category =>
        match findOtherCategoryByName nm (params_id req) (categories (db w)) with
        | Some _ => updateCategory req w = (Val duplicate_category, w)
        | None =>
            if (100 <? length nm)%nat
            then updateCategory req w = (Val server_failure, w)
            else
              updateCategory req w
              = (Val (mkAnswer 200
                        (CategoryData "Category updated successfully"
                           (mkCategory (params_id req) nm))),
                 with_renamed w (mkCategory (params_id req) nm))
        end
    end.
Proof.
  intros Hname nm.
  assert (Hstored : schema_trim nm = nm) by apply trim_idempotent.
  assert (Hstart : forall k : bool -> M answer,
            bind (category_name_invalid (f_name (body req))) k w
            = k (length nm <? 2)%nat w).
  { intros k. unfold bind. now rewrite Hname, category_name_invalid_string. }
  unfold updateCategory, try_catch.
  destruct (length nm <? 2)%nat eqn:Hshort; [now rewrite Hstart, ?Hshort|].
  destruct (is_object_id (params_id req)) eqn:Hcast; cbn [negb].
  2:{ rewrite Hstart, ?Hshort. unfold bind at 1, get_db at 1.
      now rewrite Model_findById_run, Hcast. }
  destruct (findById cat_id (params_id req) (categories (db w)))
    as [category|] eqn:Hfind.
  - pose proof (findById_category_id _ _ _ Hfind) as Hid.
    destruct (findOtherCategoryByName nm (params_id req) (categories (db w)))
      eqn:Hother.
    + rewrite Hstart, ?Hshort, Hname. unfold bind at 1, get_db at 1.
      rewrite Model_findById_run, Hcast, Hfind.
      unfold bind, js_trim, ret. fold nm. now rewrite Hother.
    + destruct (100 <? length nm)%nat eqn:Hlong;
        rewrite Hstart, ?Hshort, Hname; unfold bind at 1, get_db at 1;
        rewrite Model_findById_run, Hcast, Hfind;
        unfold bind, js_trim, ret; fold nm;
        rewrite Hother; unfold Category_save;
        rewrite Hstored, valid_category_name_bounds, Hshort, Hlong, Hid,
          Hother; reflexivity.
  - rewrite Hstart, ?Hshort. unfold bind at 1, get_db at 1.
    now rewrite Model_findById_run, Hcast, Hfind.
Qed.

(** X7. Creating a category with a name sent as a string: a trimmed name
    of fewer than 2 characters gives the 400 validation error; a trimmed
    name that a stored category has gives 409 [DUPLICATE_CATEGORY]; a
    trimmed name of more than 100 characters is refused by the schema and
    gives 500; in these three cases nothing changes. Otherwise the answer
    is 201 and one category, with a new id and the trimmed name, is put
    after the stored ones. A name that is absent or empty gives the 400
    validation error as well. *)
Theorem X7_createCategory_cases (req : Request) (w : World) (s : string) :
  f_name (body req) = JStr s ->
  let nm := trim s in
  (if (length nm <? 2)%nat
   then createCategory req w = (Val category_name_required, w)
   else
     match findCategoryByName nm (categories (db w)) with
     | Some _ => createCategory req w = (Val duplicate_category, w)
     | None =>
         if (100 <? length nm)%nat
         then createCategory req w = (Val server_failure, w)
         else
           createCategory req w
           = (Val (mkAnswer 201
                     (CategoryData "Category created successfully"
                        (mkCategory (new_oid (created w)) nm))),
              with_category w (mkCategory (new_oid (created w)) nm))
     end)
  /\ forall req',
       truthy (f_name (body req')) = false ->
       createCategory req' w = (Val category_name_required, w).
Proof.
  intros Hname nm. split; [exact (createCategory_run req w s Hname)|].
  intros req' Hfalsy.
  unfold createCategory, try_catch, bind, category_name_invalid.
  now rewrite Hfalsy.
Qed.


(** *** What the category handlers do to the store *)

Lemma category_name_invalid_other (v : jsval) (w : World) :
  (forall s, v <> JStr s) ->
  category_name_invalid v w = (Val true, w)
  \/ category_name_invalid v w = (Thrown TypeError, w).
Proof.
  intros Hother. unfold category_name_invalid.
  destruct (negb (truthy v)); [now left|].
  destruct v; try (now right). now destruct (Hother s).
Qed.

Lemma createCategory_effect (req : Request) (w : World) :
  snd (createCategory req w) = w
  \/ exists nm,
       valid_category_name nm = true /\ trim nm = nm
       /\ findCategoryByName nm (categories (db w)) = None
       /\ snd (createCategory req w)
          = with_category w (mkCategory (new_oid (created w)) nm).
Proof.
  destruct (f_name (body req)) as [| |b|n|s|l|o] eqn:Hname;
    try solve [left; unfold createCategory, try_catch; unfold bind at 1;
               pose proof (category_name_invalid_other
                             (f_name (body req)) w) as Hc;
               rewrite Hname in Hc |- *;
               destruct Hc as [-> | ->]; [discriminate|reflexivity..]].
  pose proof (createCategory_run req w s Hname) as Hrun. cbv zeta in Hrun.
  destruct (length (trim s) <? 2)%nat eqn:Hshort; [left; now rewrite Hrun|].
  destruct (findCategoryByName (trim s) (categories (db w))) eqn:Hfree;
    [left; now rewrite Hrun|].
  destruct (100 <? length (trim s))%nat eqn:Hlong; [left; now rewrite Hrun|].
  right. exists (trim s). rewrite Hrun.
  rewrite valid_category_name_bounds, Hshort, Hlong.
  repeat split; auto using trim_idempotent.
Qed.

Lemma updateCategory_effect (req : Request) (w : World) :
  snd (updateCategory req w) = w
  \/ exists nm old,
       valid_category_name nm = true /\ trim nm = nm
       /\ findById cat_id (params_id req) (categories (db w)) = Some old
       /\ findOtherCategoryByName nm (params_id req) (categories (db w)) = None
       /\ snd (updateCategory req w)
          = with_renamed w (mkCategory (params_id req) nm).
Proof.
  destruct (f_name (body req)) as [| |b|n|s|l|o] eqn:Hname;
    try solve [left; unfold updateCategory, try_catch; unfold bind at 1;
               pose proof (category_name_invalid_other
                             (f_name (body req)) w) as Hc;
               rewrite Hname in Hc |- *;
               destruct Hc as [-> | ->]; [discriminate|reflexivity..]].
  pose proof (updateCategory_run req w s Hname) as Hrun. cbv zeta in Hrun.
  destruct (length (trim s) <? 2)%nat eqn:Hshort; [left; now rewrite Hrun|].
  destruct (negb (is_object_id (params_id req))); [left; now rewrite Hrun|].
  destruct (findById cat_id (params_id req) (categories (db w)))
    as [old|] eqn:Hfound; [|left; now rewrite Hrun].
  destruct (findOtherCategoryByName (trim s) (params_id req)
              (categories (db w))) eqn:Hfree; [left; now rewrite Hrun|].
  destruct (100 <? length (trim s))%nat eqn:Hlong; [left; now rewrite Hrun|].
  right. exists (trim s), old. rewrite Hrun.
  rewrite valid_category_name_bounds, Hshort, Hlong.
  repeat split; auto using trim_idempotent.
Qed.

Lemma deleteCategory_run (req : Request) (w : World) :
  deleteCategory req w
  = if is_object_id (params_id req)
    then
      match findById cat_id (params_id req) (categories (db w)) with
      | None => (Val (not_found "Category not found"), w)
      | Some category =>
          match findProductByCategory (cat_name category) (products (db w)) with
          | Some _ =>
              (Val (mkResponse 400
                      (Error "Cannot delete category. Products are associated with this category"
                             "CATEGORY_IN_USE")), w)
          | None =>
              (Val (mkResponse 200 (Message "Category deleted successfully")),
               mkWorld (set_categories (db w)
                          (removeById cat_id (params_id req) (categories (db w))))
                       (created w) (uploads w))
          end
      end
    else (Val server_error, w).
Proof.
  unfold deleteCategory, Model_findById, try_catch, bind, get_db, ret, throw.
  destruct (is_object_id (params_id req)); [|reflexivity].
  destruct (findById cat_id (params_id req) (categories (db w))) as [c|];
    [|reflexivity].
  destruct (findProductByCategory (cat_name c) (products (db w)));
    reflexivity.
Qed.

(** *** The lists that the category handlers store *)

Lemma In_removeById {A} (id_of : A -> string) id (l : list A) x :
  In x (removeById id_of id l) -> In x l.
Proof.
  induction l as [|y r IH]; simpl; [auto|].
  destruct (String.eqb (id_of y) id); simpl; intuition.
Qed.

Lemma NoDup_map_removeById {A} (f id_of : A -> string) id (l : list A) :
  NoDup (map f l) -> NoDup (map f (removeById id_of id l)).
Proof.
  induction l as [|y r IH]; simpl; [auto|].
  intros Hnd. inversion Hnd as [|? ? Hnotin Hrest]; subst.
  destruct (String.eqb (id_of y) id); [assumption|].
  simpl. constructor; [|auto].
  intros Hin. apply Hnotin. apply in_map_iff in Hin.
  destruct Hin as [x [Hfx Hx]]. apply in_map_iff. exists x.
  split; [assumption|]. eapply In_removeById; eassumption.
Qed.

Lemma Forall_removeById {A} (P : A -> Prop) (id_of : A -> string) id l :
  Forall P l -> Forall P (removeById id_of id l).
Proof.
  intros Hall. apply Forall_forall. intros x Hx.
  apply In_removeById in Hx. revert x Hx. now apply Forall_forall.
Qed.

Lemma map_cat_id_replace (c : Category) (l : list Category) :
  map cat_id (replaceCategoryById c l) = map cat_id l.
Proof.
  induction l as [|x r IH]; simpl; [reflexivity|].
  destruct (String.eqb (cat_id x) (cat_id c)) eqn:Heq; simpl.
  - apply String.eqb_eq in Heq. now rewrite Heq.
  - now rewrite IH.
Qed.

Lemma In_replaceCategoryById (c : Category) (l : list Category) x :
  In x (replaceCategoryById c l) -> x = c \/ In x l.
Proof.
  induction l as [|y r IH]; simpl; [auto|].
  destruct (String.eqb (cat_id y) (cat_id c)); simpl; intuition.
Qed.

Lemma findOther_none nm id (l : list Category) x :
  findOtherCategoryByName nm id l = None ->
  In x l -> cat_id x <> id -> cat_name x <> nm.
Proof.
  unfold findOtherCategoryByName. intros Hnone Hin Hid Hnm.
  pose proof (find_none _ _ Hnone x Hin) as Hx. simpl in Hx.
  apply String.eqb_eq in Hnm. apply String.eqb_neq in Hid.
  now rewrite Hnm, Hid in Hx.
Qed.

Lemma findCategoryByName_none nm (l : list Category) :
  findCategoryByName nm l = None -> ~ In nm (map cat_name l).
Proof.
  unfold findCategoryByName. intros Hnone Hin.
  apply in_map_iff in Hin. destruct Hin as [x [Hnm Hx]].
  pose proof (find_none _ _ Hnone x Hx) as Hfalse. simpl in Hfalse.
  apply String.eqb_neq in Hfalse. auto.
Qed.

Lemma NoDup_names_replace (id nm : string) (l : list Category) :
  NoDup (map cat_id l) -> NoDup (map cat_name l) ->
  (forall x, In x l -> cat_id x <> id -> cat_name x <> nm) ->
  NoDup (map cat_name (replaceCategoryById (mkCategory id nm) l)).
Proof.
  induction l as [|x r IH]; simpl; [auto|].
  intros Hids Hnames Hother.
  inversion Hids as [|? ? Hid_notin Hids_r]; subst.
  inversion Hnames as [|? ? Hnm_notin Hnames_r]; subst.
  destruct (String.eqb (cat_id x) id) eqn:Heq; simpl.
  - apply String.eqb_eq in Heq. constructor; [|assumption].
    intros Hin. apply in_map_iff in Hin. destruct Hin as [y [Hy Hyr]].
    apply (Hother y); [now right| |assumption].
    intros Hyid. apply Hid_notin. apply in_map_iff. exists y.
    split; [congruence|assumption].
  - apply String.eqb_neq in Heq. constructor.
    + intros Hin. apply in_map_iff in Hin. destruct Hin as [y [Hy Hyr]].
      apply In_replaceCategoryById in Hyr. destruct Hyr as [-> | Hyr].
      * simpl in Hy. apply (Hother x); [now left|assumption|now symmetry].
      * apply Hnm_notin. apply in_map_iff. now exists y.
    + apply IH; auto.
Qed.

Lemma Forall_replaceCategoryById (P : Category -> Prop) c l :
  P c -> Forall P l -> Forall P (replaceCategoryById c l).
Proof.
  intros Hc Hall. apply Forall_forall. intros x Hx.
  apply In_replaceCategoryById in Hx. destruct Hx as [-> | Hx]; [assumption|].
  revert x Hx. now apply Forall_forall.
Qed.

Lemma NoDup_snoc {A} (l : list A) (x : A) :
  NoDup l -> ~ In x l -> NoDup (l ++ [x]).
Proof.
  induction l as [|y r IH]; simpl; intros Hnd Hnotin.
  - constructor; [auto|constructor].
  - inversion Hnd as [|? ? Hy Hr]; subst. constructor.
    + rewrite in_app_iff. simpl. intuition.
    + apply IH; intuition.
Qed.

(** X9. The category handlers keep the collection as the schema and its
    unique index want it: when the stored categories have distinct ids,
    distinct names, and every name is trimmed and of 2 to 100 characters,
    they still do after any request to [createCategory] (whose new id the
    store has not used), to [updateCategory] or to [deleteCategory]. *)
Theorem X9_categories_stay_valid (req : Request) (w : World) :
  categories_valid (db w) ->
  (fresh_category_id (new_oid (created w)) (db w) ->
   categories_valid (db (snd (createCategory req w))))
  /\ categories_valid (db (snd (updateCategory req w)))
  /\ categories_valid (db (snd (deleteCategory req w))).
Proof.
  intros (Hids & Hnames & Hall). split; [|split].
  - intros Hfresh.
    destruct (createCategory_effect req w)
      as [-> | (nm & Hvalid & Htrim & Hfree & ->)];
      [now repeat split|].
    unfold categories_valid, with_category. simpl.
    rewrite !map_app. simpl. split; [|split].
    + apply NoDup_snoc; [assumption|]. intros Hin.
      apply in_map_iff in Hin. destruct Hin as [x [Hx Hxin]].
      exact (Hfresh x Hxin Hx).
    + apply NoDup_snoc; [assumption|].
      now apply findCategoryByName_none.
    + apply Forall_app. split; [assumption|].
      constructor; [|constructor]. simpl. now split.
  - destruct (updateCategory_effect req w)
      as [-> | (nm & old & Hvalid & Htrim & Hfound & Hfree & ->)];
      [now repeat split|].
    unfold categories_valid, with_renamed. simpl. split; [|split].
    + now rewrite map_cat_id_replace.
    + apply NoDup_names_replace; try assumption.
      intros x Hx.
      exact (findOther_none nm (params_id req) _ x Hfree Hx).
    + apply Forall_replaceCategoryById; [simpl; now split|assumption].
  - rewrite deleteCategory_run.
    destruct (is_object_id (params_id req)); [|now repeat split].
    destruct (findById cat_id (params_id req) (categories (db w))) as [c|];
      [|now repeat split].
    destruct (findProductByCategory (cat_name c) (products (db w)));
      [now repeat split|].
    unfold categories_valid. simpl. split; [|split].
    + now apply NoDup_map_removeById.
    + now apply NoDup_map_removeById.
    + now apply Forall_removeById.
Qed.

(** ** A product and its category *)

Lemma removeById_app_fresh {A} (id_of : A -> string) id (l : list A) x :
  (forall y, In y l -> id_of y <> id) -> id_of x = id ->
  removeById id_of id (l ++ [x]) = l.
Proof.
  intros Hl Hx. induction l as [|y r IH]; simpl.
  - now rewrite Hx, String.eqb_refl.
  - destruct (String.eqb_spec (id_of y) id) as [E|E].
    + exfalso. apply (Hl y); [now left|assumption].
    + rewrite IH; [reflexivity|]. intros z Hz. apply Hl. now right.
Qed.

Lemma findById_snoc {A} (id_of : A -> string) id (l : list A) x :
  (forall y, In y l -> id_of y <> id) -> id_of x = id ->
  findById id_of id (l ++ [x]) = Some x.
Proof.
  unfold findById. intros Hl Hx. induction l as [|y r IH]; simpl.
  - now rewrite Hx, String.eqb_refl.
  - destruct (String.eqb_spec (id_of y) id) as [E|E].
    + exfalso. apply (Hl y); [now left|assumption].
    + apply IH. intros z Hz. apply Hl. now right.
Qed.

Lemma findProductByCategory_in nm (l : list Product) p :
  In p l -> category p = nm -> findProductByCategory nm l <> None.
Proof.
  unfold findProductByCategory. intros Hin Hnm Hnone.
  pose proof (find_none _ _ Hnone p Hin) as Hp. simpl in Hp.
  apply String.eqb_neq in Hp. auto.
Qed.

(** X10. After a creation that answers 201, the store has a category whose
    name is the category of the new product, and a request to delete a
    category of that name is answered 400 [CATEGORY_IN_USE] and changes
    nothing. (Were the id of such a category not the text of an ObjectId,
    the request would be answered 500, and change nothing either.) *)
Theorem X10_category_of_new_product_is_kept (req : Request) (w w' : World)
    (message : string) (product : Product) :
  createProduct req w
  = (Val (mkResponse 201 (ProductData message product)), w') ->
  (exists c, In c (categories (db w')) /\ cat_name c = category product)
  /\ forall del c,
       findById cat_id (params_id del) (categories (db w')) = Some c ->
       cat_name c = category product ->
       deleteCategory del w'
       = (Val (if is_object_id (params_id del)
               then mkResponse 400
                      (Error "Cannot delete category. Products are associated with this category"
                             "CATEGORY_IN_USE")
               else mkResponse 500 (Error "Server error" "SERVER_ERROR")), w').
Proof.
  intros Hrun.
  destruct (createProduct_appends _ _ _ _ _ Hrun)
    as (fields & files & _ & Hp & Hcats & _ & _ & _ & _ & _ & s & _ & Hc & Hfind).
  split.
  - destruct (findCategoryByName (trim s) (categories (db w))) as [c|] eqn:F;
      [|congruence].
    unfold findCategoryByName in F. apply find_some in F.
    destruct F as [Hin Heq]. apply String.eqb_eq in Heq.
    exists c. rewrite Hcats. split; [exact Hin | congruence].
  - intros del c Hfound Hname. rewrite deleteCategory_run, Hfound.
    destruct (is_object_id (params_id del)); [|reflexivity].
    destruct (findProductByCategory (cat_name c) (products (db w')))
      eqn:Hused; [reflexivity|].
    exfalso. apply (findProductByCategory_in (cat_name c) (products (db w'))
                      product); [|now symmetry|assumption].
    rewrite Hp, in_app_iff. right. now left.
Qed.

(** X11. Deleting the product that a creation has just stored, under its
    id, undoes the creation in the store: the answer is 200, [destroy] is
    called with the public id of each of its images, and the products are
    those from before the creation. The id given to the product is one
    that the store had not used. *)
Theorem X11_create_then_delete_product (req del : Request) (w w' : World)
    (message : string) (product : Product) :
  createProduct req w
  = (Val (mkResponse 201 (ProductData message product)), w') ->
  fresh_product_id (new_oid (created w)) (db w) ->
  params_id del = _id product ->
  exists w'',
    deleteProduct del w'
    = (Val (mkResponse 200 (Message "Product deleted successfully"),
            map public_id (images product)), w'')
    /\ products (db w'') = products (db w)
    /\ categories (db w'') = categories (db w)
    /\ users (db w'') = users (db w).
Proof.
  intros Hrun Hfresh Hid.
  destruct (createProduct_appends _ _ _ _ _ Hrun)
    as (fields & files & _ & Hp & Hcats & Husers & Hnew & _).
  assert (Hl : forall x, In x (products (db w)) -> _id x <> _id product).
  { intros x Hx. rewrite Hnew. now apply Hfresh. }
  assert (Hcast : is_object_id (_id product) = true)
    by (rewrite Hnew; apply is_object_id_new_oid).
  unfold deleteProduct, Model_findById, try_catch, bind, get_db, put_db, ret.
  rewrite Hp, Hid, Hcast.
  rewrite (findById_app_fresh (_id product) _ product Hl eq_refl).
  rewrite fold_deleteImage. eexists. split; [reflexivity|]. simpl.
  rewrite (removeById_app_fresh _id (_id product) _ product Hl eq_refl).
  auto.
Qed.

(** X12. Deleting the category that a creation has just stored, under its
    id, undoes the creation: when no product carries its name and the id
    given to it is one that the store had not used, the answer is 200 and
    the categories are those from before the creation. *)
Theorem X12_create_then_delete_category (req del : Request) (w w' : World)
    (message : string) (c : Category) :
  createCategory req w = (Val (mkAnswer 201 (CategoryData message c)), w') ->
  fresh_category_id (new_oid (created w)) (db w) ->
  findProductByCategory (cat_name c) (products (db w)) = None ->
  params_id del = cat_id c ->
  exists w'',
    deleteCategory del w'
    = (Val (mkResponse 200 (Message "Category deleted successfully")), w'')
    /\ categories (db w'') = categories (db w)
    /\ products (db w'') = products (db w)
    /\ users (db w'') = users (db w).
Proof.
  intros Hrun Hfresh Hunused Hid.
  assert (Hw : w' = with_category w c /\ cat_id c = new_oid (created w)).
  { destruct (f_name (body req)) as [| |b|n|s|l|o] eqn:Hname;
      try solve [exfalso; revert Hrun;
                 unfold createCategory, try_catch; unfold bind at 1;
                 pose proof (category_name_invalid_other
                               (f_name (body req)) w) as Hc;
                 rewrite Hname in Hc |- *;
                 destruct Hc as [-> | ->]; [discriminate|dead_end..]].
    pose proof (createCategory_run req w s Hname) as Hcases.
    cbv zeta in Hcases.
    destruct (length (trim s) <? 2)%nat;
      [rewrite Hcases in Hrun; discriminate|].
    destruct (findCategoryByName (trim s) (categories (db w)));
      [rewrite Hcases in Hrun; discriminate|].
    destruct (100 <? length (trim s))%nat;
      [rewrite Hcases in Hrun; discriminate|].
    rewrite Hcases in Hrun. inversion Hrun; subst. now split. }
  destruct Hw as [-> Hnew].
  assert (Hl : forall x, In x (categories (db w)) -> cat_id x <> cat_id c).
  { intros x Hx. rewrite Hnew. now apply Hfresh. }
  assert (Hcast : is_object_id (cat_id c) = true)
    by (rewrite Hnew; apply is_object_id_new_oid).
  rewrite deleteCategory_run, Hid, Hcast. unfold with_category. simpl.
  assert (Hfound : findById cat_id (cat_id c) (categories (db w) ++ [c])
                   = Some c).
  { now apply findById_snoc. }
  rewrite Hfound, Hunused. eexists. split; [reflexivity|]. simpl.
  rewrite (removeById_app_fresh cat_id (cat_id c) _ c Hl eq_refl). auto.
Qed.

(** ** The listing of the categories *)

Lemma categories_sorted_perm q d :
  Permutation (categories_sorted q d)
              (filter (category_matches q) (categories d)).
Proof. apply sort_by_perm. Qed.

Lemma categories_sorted_sorted q d :
  StronglySorted (fun a b => String.leb (cat_name a) (cat_name b) = true)
                 (categories_sorted q d).
Proof.
  apply (sort_by_sorted name_leb).
  - intros a b. apply String.leb_total.
  - intros a b c. apply string_leb_trans.
Qed.

Lemma getCategories_page (req : Request) (w : World) (p l : Z) :
  pageNum_of (query req) = Some p ->
  category_limit_of (query req) = Some l ->
  1 <= p -> 1 <= l ->
  getCategories req w
  = (Val (mkAnswer 200
            (CategoryList
               (firstn (Z.to_nat l)
                  (skipn (Z.to_nat ((p - 1) * l))
                         (categories_sorted (query req) (db w))))
               (mkPagination p
                  (ceil_div (Z.of_nat (List.length
                                         (filter (category_matches (query req))
                                                 (categories (db w))))) l)
                  (Z.of_nat (List.length (filter (category_matches (query req))
                                                 (categories (db w)))))
                  l))), w).
Proof.
  intros Hp Hl Hp1 Hl1.
  unfold getCategories, try_catch, bind, get_db, ret. rewrite Hp, Hl.
  rewrite skip_limit_positive by nia. reflexivity.
Qed.

(** X13. For a page number [p >= 1] and a page size [l >= 1], the listing of
    the categories answers 200 and changes nothing; the list it pages is
    the categories matching the search, in the order of their names; the
    item at position [j] of the page, for [j < l], is the item at position
    [(p-1)*l + j] of that list, and the page has no position from [l] on;
    [totalItems] is the number of matching categories and [totalPages] the
    ceiling of [totalItems / l]. *)
Theorem X13_getCategories_listing (req : Request) (w : World) (p l : Z) :
  pageNum_of (query req) = Some p ->
  category_limit_of (query req) = Some l ->
  1 <= p -> 1 <= l ->
  let q := query req in
  let matching := filter (category_matches q) (categories (db w)) in
  let sorted := categories_sorted q (db w) in
  exists items n,
    getCategories req w
    = (Val (mkAnswer 200
              (CategoryList items
                 (mkPagination p (Some n) (Z.of_nat (List.length matching)) l))),
       w)
    /\ Permutation sorted matching
    /\ StronglySorted (fun a b => String.leb (cat_name a) (cat_name b) = true)
                      sorted
    /\ (forall j, nth_error items j
                  = if (j <? Z.to_nat l)%nat
                    then nth_error sorted (Z.to_nat ((p - 1) * l) + j)
                    else None)
    /\ (n - 1) * l < Z.of_nat (List.length matching) <= n * l.
Proof.
  intros Hp Hl Hp1 Hl1 q matching sorted.
  destruct (ceil_div (Z.of_nat (List.length matching)) l) as [n|] eqn:Hn.
  2:{ unfold ceil_div in Hn. destruct (Z.eqb_spec l 0); [lia|discriminate]. }
  exists (firstn (Z.to_nat l) (skipn (Z.to_nat ((p - 1) * l)) sorted)), n.
  split; [|split; [|split; [|split]]].
  - rewrite (getCategories_page req w p l Hp Hl Hp1 Hl1).
    fold q. fold matching. fold sorted. rewrite Hn. reflexivity.
  - apply categories_sorted_perm.
  - apply categories_sorted_sorted.
  - intros j. rewrite nth_error_firstn.
    destruct (j <? Z.to_nat l)%nat; [|reflexivity].
    apply nth_error_skipn.
  - apply ceil_div_spec; [lia | exact Hn].
Qed.

(** X14. A page number below 1 with a page size of at least 1 asks the
    store to skip a negative number of documents: both listings answer
    500 [SERVER_ERROR], and change nothing. *)
Theorem X14_listing_page_below_one (req : Request) (w : World) (p : Z) :
  pageNum_of (query req) = Some p -> p < 1 ->
  (forall l, limitNum_of (query req) = Some l -> 1 <= l ->
             getProducts req w = (Val server_error, w))
  /\ (forall l, category_limit_of (query req) = Some l -> 1 <= l ->
                getCategories req w = (Val server_failure, w)).
Proof.
  intros Hp Hp1. split; intros l Hl Hl1.
  - unfold getProducts, try_catch, bind, get_db. rewrite Hp, Hl.
    unfold skip_limit. destruct (Z.ltb_spec ((p - 1) * l) 0); [reflexivity|nia].
  - unfold getCategories, try_catch, bind, get_db. rewrite Hp, Hl.
    unfold skip_limit. destruct (Z.ltb_spec ((p - 1) * l) 0); [reflexivity|nia].
Qed.

(** X15. A page size of 0 is no limit: whatever the page number, both
    listings answer 200 with every matching document, in sorted order, and
    [totalPages], the ceiling of a division by zero, is not a number. *)
Theorem X15_listing_page_size_zero (req : Request) (w : World) (p : Z) :
  pageNum_of (query req) = Some p ->
  (limitNum_of (query req) = Some 0 ->
   getProducts req w
   = (Val (mkResponse 200
             (ProductList (find_sorted (query req) (db w))
                (mkPagination p None
                   (Z.of_nat (List.length (filter (matches (query req))
                                                  (products (db w)))))
                   0))), w))
  /\ (category_limit_of (query req) = Some 0 ->
      getCategories req w
      = (Val (mkAnswer 200
                (CategoryList (categories_sorted (query req) (db w))
                   (mkPagination p None
                      (Z.of_nat (List.length
                                   (filter (category_matches (query req))
                                           (categories (db w)))))
                      0))), w)).
Proof.
  intros Hp. split; intros Hl.
  - unfold getProducts, try_catch, bind, get_db, ret. rewrite Hp, Hl.
    unfold skip_limit. rewrite Z.mul_0_r. reflexivity.
  - unfold getCategories, try_catch, bind, get_db, ret. rewrite Hp, Hl.
    unfold skip_limit. rewrite Z.mul_0_r. reflexivity.
Qed.

(** ** Logging in and the session *)

Lemma login_run (b : LoginBody) (w : World) :
  login b w
  = (Val (if negb (truthy (l_username b)) || negb (truthy (l_password b))
          then mkAnswer 400
                 (Plain (Error "Please provide username and password"
                               "VALIDATION_ERROR"))
          else
            match username_filter (l_username b) with
            | None => server_failure
            | Some test =>
                match find (fun u => test (username u)) (users (db w)) with
                | None => invalid_credentials
                | Some user =>
                    match l_password b with
                    | JStr pw =>
                        if bcrypt_compare pw (stored_password user)
                        then mkAnswer 200
                               (LoginData "Login successful"
                                          (jwt_sign (user_id user)) user)
                        else invalid_credentials
                    | _ => server_failure
                    end
                end
            end), w).
Proof.
  unfold login, try_catch, bind, get_db, findUserByUsername, comparePassword,
    generateToken.
  destruct (negb (truthy (l_username b)) || negb (truthy (l_password b)));
    [reflexivity|].
  destruct (username_filter (l_username b)) as [test|]; [|reflexivity].
  unfold ret at 1.
  destruct (find (fun u => test (username u)) (users (db w))) as [user|];
    [|reflexivity].
  destruct (l_password b) as [| |x|x|pw|x|x]; try reflexivity.
  unfold ret at 1.
  destruct (bcrypt_compare pw (stored_password user)); reflexivity.
Qed.

Lemma findById_unique {A} (id_of : A -> string) (l : list A) x :
  NoDup (map id_of l) -> In x l -> findById id_of (id_of x) l = Some x.
Proof.
  unfold findById. induction l as [|y r IH]; simpl; [intros _ []|].
  intros Hnd Hin. inversion Hnd as [|? ? Hnotin Hrest]; subst.
  destruct Hin as [-> | Hin]; [now rewrite String.eqb_refl|].
  destruct (String.eqb_spec (id_of y) (id_of x)) as [E|E]; [|now apply IH].
  exfalso. apply Hnotin. rewrite E. now apply in_map.
Qed.

Lemma login_accepts (b : LoginBody) (w w' : World) (r : reply) :
  login b w = (Val (mkAnswer 200 r), w') ->
  exists test pw user,
    truthy (l_username b) = true
    /\ username_filter (l_username b) = Some test
    /\ find (fun u => test (username u)) (users (db w)) = Some user
    /\ l_password b = JStr pw /\ pw <> EmptyString
    /\ bcrypt_compare pw (stored_password user) = true
    /\ r = LoginData "Login successful" (jwt_sign (user_id user)) user
    /\ w' = w.
Proof.
  rewrite login_run.
  destruct (truthy (l_username b)) eqn:Hname; [|discriminate].
  destruct (truthy (l_password b)) eqn:Hpass; [|discriminate].
  cbn [negb orb].
  destruct (username_filter (l_username b)) as [test|] eqn:Hfilter;
    [|discriminate].
  destruct (find (fun u => test (username u)) (users (db w))) as [user|]
    eqn:Hfind; [|discriminate].
  destruct (l_password b) as [| |x|x|pw|x|x] eqn:Hpw; try discriminate.
  destruct (bcrypt_compare pw (stored_password user)) eqn:Hmatch;
    [|discriminate].
  intros [= <- <-]. exists test, pw, user.
  repeat split; auto. intros ->. discriminate.
Qed.

Lemma bearer_token_of_header (req : Request) (token : string) :
  authorization req = Some ("Bearer " ++ token)%string ->
  has_char " " token = false ->
  bearer_token req = Some token.
Proof.
  intros Hauth Hclean. unfold bearer_token. rewrite Hauth.
  change ("Bearer " ++ token)%string
    with ("Bearer" ++ String " " token)%string at 3.
  rewrite split_app, (split_without " " token Hclean). reflexivity.
Qed.

Lemma protect_verified (req : Request) (w : World) (token id : string) :
  bearer_token req = Some token -> token <> EmptyString ->
  jwt_verify token = Some (Some id) ->
  protect req w
  = (Val (if is_object_id id
          then match findById user_id id (users (db w)) with
               | Some user => inr user
               | None => inl (unauthorized "User not found")
               end
          else inl (unauthorized "Invalid or expired token")), w).
Proof.
  intros Htoken Hnonempty Hverify.
  unfold protect, Model_findById, try_catch, bind, get_db, ret, throw.
  rewrite Htoken.
  destruct token; [now destruct Hnonempty|]. simpl. rewrite Hverify.
  destruct (is_object_id id); [|reflexivity].
  now destruct (findById user_id id (users (db w))).
Qed.

Lemma protect_passes (req : Request) (w w' : World) (user : User) :
  protect req w = (Val (inr user), w') ->
  w' = w /\ findById user_id (user_id user) (users (db w)) = Some user.
Proof.
  unfold protect, Model_findById, try_catch, bind, get_db, ret, throw.
  destruct (bearer_token req) as [token|]; [|dead_end].
  destruct (str_empty token); [dead_end|].
  destruct (jwt_verify token) as [[id|]|]; try solve [dead_end].
  destruct (is_object_id id); [|dead_end].
  destruct (findById user_id id (users (db w))) as [u|] eqn:Hfound;
    [|dead_end].
  intros [= <- <-]. split; [reflexivity|].
  now rewrite (findById_id _ _ _ _ Hfound).
Qed.

Lemma getMe_known (user : User) (w : World) :
  findById user_id (user_id user) (users (db w)) = Some user ->
  getMe user w = (Val (mkAnswer 200 (Profile user)), w).
Proof.
  intros Hfound. unfold getMe, try_catch, bind, get_db, ret.
  now rewrite Hfound.
Qed.

(** X16. [login] answers 200 only to a body whose password is a string,
    not empty, that matches the stored hash of a stored user: the first
    user that the filter made of the username selects. When the username
    is a string, it is not empty and the user is one whose username is
    that string, trimmed. When it is not a string, the user is the first
    whose username passes the test that the store makes of the value: an
    operator object selects a user without naming one. The token of the
    answer is signed for the id of the user, and nothing is written. *)
Theorem X16_login_accepts_only_matching_password (b : LoginBody)
    (w w' : World) (r : reply) :
  login b w = (Val (mkAnswer 200 r), w') ->
  exists pw user,
    l_password b = JStr pw /\ pw <> EmptyString
    /\ In user (users (db w))
    /\ bcrypt_compare pw (stored_password user) = true
    /\ r = LoginData "Login successful" (generateToken (user_id user)) user
    /\ w' = w
    /\ (forall nm, l_username b = JStr nm ->
                   nm <> EmptyString /\ username user = trim nm)
    /\ ((forall nm, l_username b <> JStr nm) ->
        exists test,
          username_condition (l_username b) = Some test
          /\ find (fun u => test (username u)) (users (db w)) = Some user).
Proof.
  intros Hrun.
  destruct (login_accepts b w w' r Hrun)
    as (test & pw & user & Htruthy & Hfilter & Hfind & Hpw & Hpw' & Hmatch
        & Hr & Hw).
  exists pw, user. pose proof (find_some _ _ Hfind) as [Hin Htest].
  repeat (split; [assumption|]). split.
  - intros nm Hnm. rewrite Hnm in Hfilter, Htruthy.
    injection Hfilter as <-. apply String.eqb_eq in Htest.
    split; [|exact Htest]. intros ->. discriminate.
  - intros Hother. exists test. split; [|exact Hfind].
    destruct (l_username b); try exact Hfilter. now destruct (Hother s).
Qed.

(** X17. The failures of [login]. A body with both fields whose username
    selects no stored user is answered 401 [INVALID_CREDENTIALS], whatever
    its password. A body whose username selects a user gets the very same
    answer when its password is a string that does not match; but when its
    password is there and is not a string, [bcrypt.compare] throws and the
    answer is 500 [SERVER_ERROR], which tells the two usernames apart. No
    request to [login] changes the world. *)
Theorem X17_login_failures (b1 b2 : LoginBody) (w : World)
    (test1 test2 : string -> bool) (user : User) :
  truthy (l_username b1) = true -> truthy (l_password b1) = true ->
  username_filter (l_username b1) = Some test1 ->
  find (fun u => test1 (username u)) (users (db w)) = None ->
  truthy (l_username b2) = true -> truthy (l_password b2) = true ->
  username_filter (l_username b2) = Some test2 ->
  find (fun u => test2 (username u)) (users (db w)) = Some user ->
  login b1 w
  = (Val (mkAnswer 401
            (Plain (Error "Invalid username or password"
                          "INVALID_CREDENTIALS"))), w)
  /\ (forall pw, l_password b2 = JStr pw ->
                 bcrypt_compare pw (stored_password user) = false ->
                 login b2 w = login b1 w)
  /\ ((forall pw, l_password b2 <> JStr pw) ->
      login b2 w
      = (Val (mkAnswer 500 (Plain (Error "Server error" "SERVER_ERROR"))), w))
  /\ forall b, snd (login b w) = w.
Proof.
  intros Hn1 Hp1 Hf1 Hnone Hn2 Hp2 Hf2 Hsome.
  assert (H1 : login b1 w = (Val invalid_credentials, w)).
  { rewrite login_run, Hn1, Hp1, Hf1, Hnone. reflexivity. }
  split; [exact H1|]. split; [|split].
  - intros pw Hpw Hwrong.
    rewrite H1, login_run, Hn2, Hp2, Hf2, Hsome, Hpw, Hwrong. reflexivity.
  - intros Hother. rewrite login_run, Hn2, Hp2, Hf2, Hsome. cbn [negb orb].
    destruct (l_password b2); try reflexivity. now destruct (Hother s).
  - intros b. now rewrite login_run.
Qed.

(** X18. A session: after a login that answers 200 with a token for a
    user, a request to [/me] that carries [Bearer <token>] is answered
    200 with that user, when the ids of the users are distinct, the token
    has no space and is not empty, and the verification accepts it and
    gives back the id it was signed for. (The id of a stored user is the
    text of an ObjectId; for one that were not, the lookup in [protect]
    would throw and the answer be 401.) *)
Theorem X18_login_then_me (b : LoginBody) (req : Request) (w w' : World)
    (message token : string) (user : User) :
  login b w = (Val (mkAnswer 200 (LoginData message token user)), w') ->
  NoDup (map user_id (users (db w))) ->
  token <> EmptyString -> has_char " " token = false ->
  jwt_verify token = Some (Some (user_id user)) ->
  authorization req = Some ("Bearer " ++ token)%string ->
  token = generateToken (user_id user)
  /\ authRoutes GET_me req w'
     = (Val (if is_object_id (user_id user)
             then mkAnswer 200 (Profile user)
             else mkAnswer 401
                    (Plain (Error "Invalid or expired token" "UNAUTHORIZED"))),
        w').
Proof.
  intros Hlogin Hnd Hnonempty Hclean Hverify Hauth.
  destruct (login_accepts _ _ _ _ Hlogin)
    as (test & pw & u & _ & _ & Hfind & _ & _ & _ & Hr & ->).
  injection Hr as _ Htoken Huser. subst u.
  split; [exact Htoken|].
  pose proof (find_some _ _ Hfind) as [Hin _].
  pose proof (findById_unique user_id _ user Hnd Hin) as Hfound.
  unfold authRoutes, bind.
  rewrite (protect_verified req w token (user_id user)
             (bearer_token_of_header req token Hauth Hclean)
             Hnonempty Hverify), Hfound.
  destruct (is_object_id (user_id user)); [|reflexivity].
  now apply getMe_known.
Qed.

(** X19. Logging out does not revoke anything: for a request that
    [protect] lets through for a user, [/logout] answers 200 and leaves
    the world as it was, and the same request to [/me] afterwards is
    still answered 200 with that user. *)
Theorem X19_logout_keeps_token_valid (req : Request) (w w' : World)
    (user : User) :
  protect req w = (Val (inr user), w') ->
  authRoutes POST_logout req w
  = (Val (mkAnswer 200 (Plain (Message "Logout successful"))), w)
  /\ authRoutes GET_me req (snd (authRoutes POST_logout req w))
     = (Val (mkAnswer 200 (Profile user)), w).
Proof.
  intros Hpass. destruct (protect_passes _ _ _ _ Hpass) as [-> Hfound].
  assert (Hout : authRoutes POST_logout req w
                 = (Val (mkAnswer 200 (Plain (Message "Logout successful"))), w)).
  { unfold authRoutes, bind. now rewrite Hpass. }
  split; [exact Hout|]. rewrite Hout. cbn [snd].
  unfold authRoutes, bind. rewrite Hpass. now apply getMe_known.
Qed.

(** ** The ids of the products *)

Lemma map_id_replaceById (p : Product) (l : list Product) :
  map _id (replaceById p l) = map _id l.
Proof.
  induction l as [|x r IH]; simpl; [reflexivity|].
  destruct (String.eqb (_id x) (_id p)) eqn:Heq; simpl.
  - apply String.eqb_eq in Heq. now rewrite Heq.
  - now rewrite IH.
Qed.

(** X20. The ids of the products stay distinct: when they are, they still
    are after any request to [createProduct] (whose new id the store has
    not used) and to [deleteProduct]; and [updateProduct] leaves the ids of
    the collection, and their order, as they were. *)
Theorem X20_product_ids_stay_distinct (req : Request) (w : World) :
  NoDup (map _id (products (db w))) ->
  (fresh_product_id (new_oid (created w)) (db w) ->
   NoDup (map _id (products (db (snd (createProduct req w))))))
  /\ map _id (products (db (snd (updateProduct req w))))
     = map _id (products (db w))
  /\ NoDup (map _id (products (db (snd (deleteProduct req w))))).
Proof.
  intros Hnd. split; [|split].
  - intros Hfresh.
    destruct (createProduct_effect req w)
      as (_ & _ & [Hp | (p & _ & Hid & Hp)]); rewrite Hp; [assumption|].
    rewrite map_app. simpl. apply NoDup_snoc; [assumption|].
    intros Hin. apply in_map_iff in Hin. destruct Hin as [x [Hx Hxin]].
    apply (Hfresh x Hxin). congruence.
  - destruct (updateProduct_effect req w)
      as (_ & _ & _ & [Hp | (p & _ & _ & Hp)]); rewrite Hp; [reflexivity|].
    apply map_id_replaceById.
  - pose proof (deleteProduct_run req w) as Hd.
    destruct (is_object_id (params_id req)); [|now rewrite Hd].
    destruct (findById _id (params_id req) (products (db w))) as [p|].
    + destruct Hd as (w' & -> & _ & _ & _ & _ & (l1 & l2 & Hl & Hl' & _) & _).
      cbn [snd]. rewrite Hl'. rewrite Hl in Hnd.
      rewrite map_app in *. simpl in Hnd.
      now apply NoDup_remove_1 in Hnd.
    + now rewrite Hd.
Qed.

(** ** Requests that are refused *)

(** Closes a goal [run = (Val r, w') -> refused r -> w' = w] at the end of a
    run: either the run ends in [w], or its answer is not a refusal. *)
Ltac refusal :=
  unfold ret, invalid_category, validation_error, server_error, not_found;
  let H := fresh in
  let Hs := fresh in
  intros H Hs; inversion H; subst;
  first [reflexivity
        | simpl in Hs; first [discriminate | destruct Hs; discriminate]].

Lemma createProduct_refusal req w r w' :
  createProduct req w = (Val r, w') -> status r = 400 -> w' = w.
Proof.
  unfold createProduct, try_catch.
  unfold bind at 1. pose proof (read_form_run req w) as Hform.
  destruct (submitted req) as [[fields files]|]; rewrite Hform; [|refusal].
  cbn [fst snd]. unfold bind at 1.
  match goal with
  | |- context [create_errors ?a ?b ?c ?d w] =>
      pose proof (create_errors_snd a b c d w) as Hpure;
      destruct (create_errors a b c d w) as [[errors|e] w1]
  end; simpl in Hpure; subst w1; [|refusal].
  destruct (0 <? List.length errors)%nat; [refusal|].
  unfold bind at 1.
  pose proof (js_trim_snd (first_of (f_category fields)) w) as Hpure.
  destruct (js_trim (first_of (f_category fields)) w) as [[cname|e] w1];
    simpl in Hpure; subst w1; [|refusal].
  unfold bind at 1, get_db at 1.
  destruct (findCategoryByName cname (categories (db w))); [|refusal].
  unfold bind at 1.
  destruct (upload_all_run files w) as (ups & w3 & Hrun & _).
  rewrite Hrun. unfold bind at 1.
  pose proof (js_trim_snd (first_of (f_name fields)) w3) as Hpure.
  destruct (js_trim (first_of (f_name fields)) w3) as [[nm|e] w4];
    simpl in Hpure; subst w4; [|refusal].
  unfold bind at 1, Product_create.
  match goal with
  | |- context [validate ?i ?d] => destruct (validate i d) as [p|]
  end; refusal.
Qed.

Lemma updateProduct_refusal req w r w' :
  updateProduct req w = (Val r, w') ->
  status r = 400 \/ status r = 404 -> w' = w.
Proof.
  unfold updateProduct, try_catch. unfold bind at 1, get_db at 1.
  unfold bind at 1, Model_findById.
  destruct (is_object_id (params_id req)); [unfold ret at 1|refusal].
  destruct (findById _id (params_id req) (products (db w))) as [old|];
    [|refusal].
  unfold bind at 1. pose proof (read_form_run req w) as Hform.
  destruct (submitted req) as [[fields files]|]; rewrite Hform; [|refusal].
  cbn [fst snd]. unfold bind at 1.
  match goal with
  | |- context [update_errors ?a ?b ?c ?d w] =>
      pose proof (update_errors_snd a b c d w) as Hpure;
      destruct (update_errors a b c d w) as [[errors|e] w1]
  end; simpl in Hpure; subst w1; [|refusal].
  destruct (0 <? List.length errors)%nat; [refusal|].
  unfold bind at 1.
  match goal with
  | |- context [category_check ?c w] =>
      pose proof (category_check_snd c w) as Hpure;
      destruct (category_check c w) as [[ok|e] w1]
  end; simpl in Hpure; subst w1; [|refusal].
  destruct (negb ok); [refusal|].
  unfold bind at 1.
  destruct (reconcile_images_run req old fields files w)
    as (processed & w1 & Hrec & _).
  rewrite Hrec. unfold bind at 1.
  match goal with
  | |- context [assign_text ?v ?c w1] =>
      pose proof (assign_text_snd v c w1) as Hpure;
      destruct (assign_text v c w1) as [[new_name|e] w2]
  end; simpl in Hpure; subst w2; [|refusal].
  unfold bind at 1.
  match goal with
  | |- context [assign_text ?v ?c w1] =>
      pose proof (assign_text_snd v c w1) as Hpure;
      destruct (assign_text v c w1) as [[new_category|e] w2]
  end; simpl in Hpure; subst w2; [|refusal].
  unfold bind at 1, Product_save.
  match goal with
  | |- context [validate ?i ?d] => destruct (validate i d) as [p|]
  end; refusal.
Qed.

(** X21. A refusal costs nothing: a request that [createProduct] answers
    with 400, or that [updateProduct] answers with 400 or 404, has changed
    no document and has sent nothing to the media host; the checks of the
    fields and the lookups come before the first upload. *)
Theorem X21_refused_requests_change_nothing (req : Request) (w w' : World)
    (r : response) :
  (createProduct req w = (Val r, w') -> status r = 400 -> w' = w)
  /\ (updateProduct req w = (Val r, w') ->
      status r = 400 \/ status r = 404 -> w' = w).
Proof.
  split; [apply createProduct_refusal | apply updateProduct_refusal].
Qed.

(** ** Renaming a category that has products *)

Lemma updateCategory_saved (req : Request) (w w' : World) (message : string)
    (c : Category) :
  updateCategory req w = (Val (mkAnswer 200 (CategoryData message c)), w') ->
  exists old,
    findById cat_id (params_id req) (categories (db w)) = Some old
    /\ cat_id c = params_id req
    /\ w' = with_renamed w c.
Proof.
  intros Hrun.
  destruct (f_name (body req)) as [| |b|n|s|l|o] eqn:Hname;
    try solve [exfalso; revert Hrun;
               unfold updateCategory, try_catch; unfold bind at 1;
               pose proof (category_name_invalid_other
                             (f_name (body req)) w) as Hc;
               rewrite Hname in Hc |- *;
               destruct Hc as [-> | ->]; [discriminate|dead_end..]].
  pose proof (updateCategory_run req w s Hname) as Hcases.
  cbv zeta in Hcases.
  destruct (length (trim s) <? 2)%nat;
    [rewrite Hcases in Hrun; discriminate|].
  destruct (negb (is_object_id (params_id req)));
    [rewrite Hcases in Hrun; discriminate|].
  destruct (findById cat_id (params_id req) (categories (db w))) as [old|];
    [|rewrite Hcases in Hrun; discriminate].
  destruct (findOtherCategoryByName (trim s) (params_id req)
              (categories (db w)));
    [rewrite Hcases in Hrun; discriminate|].
  destruct (100 <? length (trim s))%nat;
    [rewrite Hcases in Hrun; discriminate|].
  rewrite Hcases in Hrun. inversion Hrun; subst. exists old. auto.
Qed.

Lemma replaceCategoryById_split (c old : Category) (l1 l2 : list Category) :
  cat_id old = cat_id c ->
  (forall y, In y l1 -> cat_id y <> cat_id c) ->
  replaceCategoryById c (l1 ++ old :: l2) = l1 ++ c :: l2.
Proof.
  intros Hold Hl1. induction l1 as [|y r IH]; simpl.
  - now rewrite Hold, String.eqb_refl.
  - destruct (String.eqb_spec (cat_id y) (cat_id c)) as [E|E].
    + exfalso. apply (Hl1 y); [now left|assumption].
    + rewrite IH; [reflexivity|]. intros z Hz. apply Hl1. now right.
Qed.

(** X22. A rename is not carried over to the products: after an update
    of a category that answers 200 and changes its name, in a store whose
    category names are distinct, the products are as they were and no
    category has the former name any more, so every product of that
    category now names a category that the store does not have. *)
Theorem X22_rename_leaves_products_behind (req : Request) (w w' : World)
    (message : string) (c old : Category) :
  updateCategory req w = (Val (mkAnswer 200 (CategoryData message c)), w') ->
  NoDup (map cat_name (categories (db w))) ->
  findById cat_id (params_id req) (categories (db w)) = Some old ->
  cat_name c <> cat_name old ->
  products (db w') = products (db w)
  /\ forall p, In p (products (db w')) -> category p = cat_name old ->
               findCategoryByName (category p) (categories (db w')) = None.
Proof.
  intros Hrun Hnames Hold Hdiff.
  destruct (updateCategory_saved _ _ _ _ _ Hrun) as (old' & Hold' & Hid & ->).
  split; [reflexivity|]. intros p _ ->. unfold with_renamed. simpl.
  destruct (findById_split _ _ _ _ Hold) as (l1 & l2 & Hl & Hoid & Hl1 & _).
  rewrite Hl in Hnames |- *.
  rewrite (replaceCategoryById_split c old l1 l2);
    [|congruence|intros y Hy; rewrite Hid; now apply Hl1].
  rewrite map_app in Hnames. simpl in Hnames.
  apply NoDup_remove_2 in Hnames.
  unfold findCategoryByName.
  destruct (find _ (l1 ++ c :: l2)) as [x|] eqn:F; [|reflexivity].
  exfalso. apply find_some in F. destruct F as [Hx Heq].
  apply String.eqb_eq in Heq. apply in_app_iff in Hx.
  destruct Hx as [Hx | [<- | Hx]]; [| now apply Hdiff |];
    apply Hnames; rewrite in_app_iff, <- Heq;
    [left | right]; now apply in_map.
Qed.

(** ** The stored images *)

Lemma upload_files_exact fileArray :
  forall acc w,
  exists w',
    upload_files fileArray acc w
    = (Val (acc ++ map JStr (host_urls (uploads w)
                               (map filepath (filter is_image fileArray)))),
       w')
    /\ db w' = db w /\ created w' = created w.
Proof.
  induction fileArray as [|f rest IH]; intros acc w; simpl.
  - exists w. unfold ret. now rewrite app_nil_r.
  - unfold bind at 1, try_catch.
    destruct (is_image f); cbn [filter map host_urls].
    + unfold bind, uploadFileToCloudinary, upload.
      destruct (cloudinary_upload (uploads w) (filepath f)) as [url|];
        unfold ret at 1;
        match goal with
        | |- context [upload_files rest ?a ?v] =>
            destruct (IH a v) as (w' & -> & Hdb & Hcr)
        end;
        exists w'; simpl; rewrite <- ?app_assoc; auto.
    + unfold ret at 1. apply IH.
Qed.

Lemma upload_all_exact files w :
  exists w',
    upload_all files w
    = (Val (map JStr (host_urls (uploads w) (upload_sources files))), w')
    /\ db w' = db w /\ created w' = created w.
Proof.
  destruct files as [fileArray|]; simpl.
  - exact (upload_files_exact fileArray [] w).
  - exists w. unfold ret. auto.
Qed.

Lemma createProduct_images req w message product w' :
  createProduct req w
  = (Val (mkResponse 201 (ProductData message product)), w') ->
  exists fields files,
    submitted req = Some (fields, files)
    /\ cast_images
         (keep_existing (first_of (f_existingImages fields))
            (map JStr (host_urls (uploads w) (upload_sources files))))
       = Some (images product).
Proof.
  unfold createProduct, try_catch.
  unfold bind at 1. pose proof (read_form_run req w) as Hform.
  destruct (submitted req) as [[fields files]|]; rewrite Hform; [|dead_end].
  cbn [fst snd]. unfold bind at 1.
  match goal with
  | |- context [create_errors ?a ?b ?c ?d w] =>
      pose proof (create_errors_snd a b c d w) as Hpure;
      destruct (create_errors a b c d w) as [[errors|e] w1]
  end; simpl in Hpure; subst w1; [|dead_end].
  destruct (0 <? List.length errors)%nat; [dead_end|].
  unfold bind at 1.
  pose proof (js_trim_snd (first_of (f_category fields)) w) as Hpure.
  destruct (js_trim (first_of (f_category fields)) w) as [[cname|e] w1];
    simpl in Hpure; subst w1; [|dead_end].
  unfold bind at 1, get_db at 1.
  destruct (findCategoryByName cname (categories (db w))); [|dead_end].
  unfold bind at 1.
  destruct (upload_all_exact files w) as (w3 & Hrun & _).
  rewrite Hrun. unfold bind at 1.
  destruct (js_trim (first_of (f_name fields)) w3) as [[nm|e] w4];
    [|dead_end].
  unfold bind at 1, Product_create.
  match goal with
  | |- context [validate ?i ?d] => destruct (validate i d) as [p|] eqn:V
  end; [|dead_end].
  unfold ret. intros [= _ <- <-].
  destruct (validate_inv _ _ _ V) as (_ & Hc & _). cbn [d_images] in Hc.
  exists fields, files. auto.
Qed.

Lemma reconcile_images_exact req old fields files urls w :
  truthy (first_if_truthy (f_existingImages fields)) = true ->
  JSON_parse (to_str (first_if_truthy (f_existingImages fields)))
  = Some (JArr (map JStr urls)) ->
  (is_multipart req = true \/ forall u us, f_images (body req) <> JArr (u :: us)) ->
  exists w1,
    reconcile_images req old fields files w
    = (Val (map JStr (host_urls (uploads w) (upload_sources files)
                      ++ filter mentions_cloudinary urls)), w1)
    /\ db w1 = db w.
Proof.
  intros Ht Hp Hl. unfold reconcile_images. unfold bind at 1.
  destruct (upload_all_exact files w) as (w1 & Hrun & Hdb & _).
  rewrite Hrun. rewrite (keep_existing_strings _ urls _ Ht Hp), Ht.
  rewrite andb_false_r. rewrite (legacy_skipped req Hl).
  exists w1. rewrite map_app. auto.
Qed.

(** X23. What is stored of a keep list. Take a request whose
    [existingImages] field parses to a list of strings. After a creation
    that answers 201, and after an update that answers 200 and does not go
    through the legacy [images] list of a JSON body, the image list of the
    product is exactly: the URLs that the media host returned for the image
    files of the request, in their order, followed by the entries of the
    keep list in which the text [cloudinary.com] occurs, in their order.
    The test is on the text of the entry, not on its host. *)
Theorem X23_stored_images_of_keep_list (req : Request) (w w' : World)
    (fields : Fields) (files : option (list File)) (urls : list string)
    (message : string) (product : Product) :
  submitted req = Some (fields, files) ->
  (truthy (first_of (f_existingImages fields)) = true ->
   JSON_parse (to_str (first_of (f_existingImages fields)))
   = Some (JArr (map JStr urls)) ->
   createProduct req w
   = (Val (mkResponse 201 (ProductData message product)), w') ->
   images product
   = host_urls (uploads w) (upload_sources files)
     ++ filter mentions_cloudinary urls)
  /\
  (truthy (first_if_truthy (f_existingImages fields)) = true ->
   JSON_parse (to_str (first_if_truthy (f_existingImages fields)))
   = Some (JArr (map JStr urls)) ->
   (is_multipart req = true \/ forall u us, f_images (body req) <> JArr (u :: us)) ->
   updateProduct req w
   = (Val (mkResponse 200 (ProductData message product)), w') ->
   images product
   = host_urls (uploads w) (upload_sources files)
     ++ filter mentions_cloudinary urls
   /\ findById _id (params_id req) (products (db w')) = Some product).
Proof.
  intros Hsub. split.
  - intros Ht Hp Hrun.
    destruct (createProduct_images _ _ _ _ _ Hrun)
      as (fields' & files' & Hsub' & Hc).
    rewrite Hsub in Hsub'. injection Hsub' as <- <-.
    rewrite (keep_existing_strings _ urls _ Ht Hp), <- map_app,
      cast_images_strings in Hc.
    now injection Hc as <-.
  - intros Ht Hp Hl Hrun.
    destruct (updateProduct_updated _ _ _ _ _ _ _ Hsub Hrun)
      as (old & processed & w1 & Hold & Hrec & Hc & Hfind).
    destruct (reconcile_images_exact req old fields files urls w Ht Hp Hl)
      as (w2 & Hrec' & Hdb).
    rewrite Hrec in Hrec'. injection Hrec' as -> ->.
    assert (Ha : images_assigned req fields files
                   (map JStr (host_urls (uploads w) (upload_sources files)
                              ++ filter mentions_cloudinary urls)) = true).
    { unfold images_assigned. rewrite Ht. now rewrite orb_true_r. }
    rewrite Ha, cast_images_strings in Hc. injection Hc as <-.
    split; [reflexivity | now apply Hfind].
Qed.

(** ** The error map of a creation *)

Lemma err_reported (ok : bool) (field message : string) :
  err (negb ok) field message = reported ok field message.
Proof. now destruct ok. Qed.

Lemma create_errors_exact n p c s w :
  textual n -> numeric p -> textual c -> numeric s ->
  create_errors n p c s w = (Val (failing_entries n p c s), w).
Proof.
  intros Hn Hp Hc Hs. unfold create_errors, failing_entries.
  unfold bind at 1. rewrite (name_check_spec n w Hn).
  unfold bind at 1. rewrite (category_check_spec c w Hc).
  rewrite (price_check_spec p Hp), (stock_check_spec s Hs).
  unfold ret. now rewrite !err_reported.
Qed.

(** X24. The error map of a creation whose fields are of their kinds: the
    name and the category absent or strings, the price and the stock absent
    or values that read as numbers. When a rule fails (name of at least 2
    characters once trimmed, price greater than 0, category not empty once
    trimmed, stock at least 0), the answer is 400 with the message
    [Validation error] and a map that has, in this order and with these
    messages, one entry for each field whose rule fails and no other; the
    world is left as it was. When no rule fails the answer is not that
    one. *)
Theorem X24_createProduct_error_map (req : Request) (w : World)
    (fields : Fields) (files : option (list File)) :
  submitted req = Some (fields, files) ->
  textual (first_of (f_name fields)) ->
  numeric (first_of (f_price fields)) ->
  textual (first_of (f_category fields)) ->
  numeric (first_of (f_stock fields)) ->
  let errors :=
    failing_entries (first_of (f_name fields)) (first_of (f_price fields))
                    (first_of (f_category fields)) (first_of (f_stock fields)) in
  (errors <> [] ->
   createProduct req w
   = (Val (mkResponse 400 (Errors "Validation error" errors)), w))
  /\ (errors = [] ->
      forall errs w',
        createProduct req w
        <> (Val (mkResponse 400 (Errors "Validation error" errs)), w')).
Proof.
  intros Hsub Hn Hp Hc Hs errors.
  pose proof (create_errors_exact _ _ _ _ w Hn Hp Hc Hs) as Hrun.
  fold errors in Hrun.
  split.
  - intros Hne.
    unfold createProduct, try_catch.
    unfold bind at 1. rewrite (read_form_submitted req fields files w Hsub).
    cbn [fst snd]. unfold bind at 1. rewrite Hrun.
    destruct errors as [|e errors']; [congruence|]. reflexivity.
  - intros Hnil errs w'.
    unfold createProduct, try_catch.
    unfold bind at 1. rewrite (read_form_submitted req fields files w Hsub).
    cbn [fst snd]. unfold bind at 1. rewrite Hrun, Hnil.
    cbn [List.length Nat.ltb Nat.leb].
    unfold bind at 1.
    destruct (js_trim (first_of (f_category fields)) w) as [[cname|e] w1];
      [|dead_end].
    unfold bind at 1, get_db at 1.
    destruct (findCategoryByName cname (categories (db w1)));
      [|dead_end].
    unfold bind at 1.
    destruct (upload_all files w1) as [[uploaded|e] w2];
      [|dead_end].
    unfold bind at 1.
    destruct (js_trim (first_of (f_name fields)) w2) as [[nm|e] w3];
      [|dead_end].
    unfold bind at 1.
    match goal with
    | |- context [Product_create ?d ?w0] =>
        destruct (Product_create d w0) as [[product|e] w4]
    end; dead_end.
Qed.

(** ** The category filter of the product listing *)


End MoreProperties.

(** * The handlers at work

    Runs of the handlers with the runtime and the collaborators of [Demo]. *)

Import Demo.

(** Renaming the lamp, sent as a form without any image field: its three
    images stay. *)
Lemma C1_witness :
  submitted rename_lamp = Some (new_name, None)
  /\ f_existingImages new_name = JUndef
  /\ f_images (body rename_lamp) = JUndef
  /\ images_after (oid 1) (snd (updateProduct rename_lamp world))
     = Some (images lamp)
  /\ List.length (images lamp) = 3%nat.
Proof.
  do 3 (split; [reflexivity|]). split; [|reflexivity].
  destruct (C1_update_without_image_fields rename_lamp world new_name
              eq_refl eq_refl eq_refl) as [_ H].
  destruct (H lamp eq_refl) as (p' & Hp' & Hi & _).
  change (params_id rename_lamp) with (oid 1) in Hp'.
  unfold images_after. rewrite Hp'. simpl. now rewrite Hi.
Defined.

(** C2. The update reads a field through a truthiness test, so a JSON body
    that supplies the number 0 for [stock] is treated as if the field were
    absent: the answer is 200 and the stored stock stays 5. The run does not
    depend on the runtime or on the collaborators. *)
Theorem C2_numeric_zero_stock_is_dropped (rt : JsRuntime) (sv : Services) :
  let zero_stock :=
    mkFields JUndef JUndef JUndef (JNum (Fin 0)) JUndef JUndef in
  stock lamp = 5
  /\ @updateProduct rt sv (json_request (oid 1) zero_stock) world
     = (Val (mkResponse 200
               (ProductData "Product updated successfully" lamp)), world).
Proof. split; reflexivity. Qed.

(** The same stock sent as text, the way a form sends it, is stored. *)
Lemma zero_stock_as_text_is_stored :
  option_map stock
    (findById _id (oid 1)
       (products (db (snd (updateProduct
          (json_request (oid 1)
             (mkFields JUndef JUndef JUndef (JStr "0") JUndef JUndef))
          world)))))
  = Some 0.
Proof. reflexivity. Qed.

(** A price of 0, which creation rejects, goes through an update unchecked
    and unchanged, for the same reason. *)
Lemma zero_price_is_dropped (rt : JsRuntime) (sv : Services) :
  @updateProduct rt sv
    (json_request (oid 1)
       (mkFields JUndef (JNum (Fin 0)) JUndef JUndef JUndef JUndef)) world
  = (Val (mkResponse 200
            (ProductData "Product updated successfully" lamp)), world).
Proof. reflexivity. Qed.

(** C3. The handlers take an entry of the keep list for a reference to the
    media host when the text [cloudinary.com] occurs anywhere in it. So a
    URL of another host that has this text in its path is stored as an
    image of the product, by a creation and by an update alike, although it
    does not belong to the domain of the media host; and a URL of the media
    host whose host is written in capitals, which does belong to it, is
    left out. *)
Theorem C3_foreign_url_is_stored :
  in_media_domain foreign_url = false
  /\ mentions_cloudinary foreign_url = true
  /\ in_media_domain capital_url = true
  /\ mentions_cloudinary capital_url = false
  /\ in_media_domain (img "a.jpg") = true
  /\ JSON_parse (stringify [foreign_url; capital_url])
     = Some (JArr [JStr foreign_url; JStr capital_url])
  /\ fst (createProduct create_with_foreign world)
     = Val (mkResponse 201
              (ProductData "Product created successfully"
                 (mkProduct (oid 3) "Chair" (21 # 2) "Home" 3 [foreign_url])))
  /\ images_after (oid 3) (snd (createProduct create_with_foreign world))
     = Some [foreign_url]
  /\ status_of (fst (updateProduct keep_foreign world)) = Some 200
  /\ images_after (oid 1) (snd (updateProduct keep_foreign world))
     = Some [foreign_url].
Proof. repeat split; reflexivity. Qed.

(** A creation and an update with a keep list: the URL of another host
    without the name of the media host is left out, the URLs of the media
    host are stored after the upload that succeeded. *)
Lemma X23_witness :
  images chair
  = host_urls (uploads world) (upload_sources chair_files)
    ++ filter mentions_cloudinary chair_urls
  /\ images chair = [img "img0.jpg"; img "q.jpg"]
  /\ (exists saved,
        findById _id (oid 1) (products (db (snd (updateProduct keep_two world))))
        = Some saved
        /\ images saved = [img "c.jpg"; img "a.jpg"]).
Proof.
  split; [|split; [reflexivity|]].
  - apply (proj1 (X23_stored_images_of_keep_list (rt := runtime)
                    (sv := services) create_chair world
                    (snd (createProduct create_chair world))
                    chair_fields chair_files chair_urls
                    "Product created successfully" chair eq_refl));
      reflexivity.
  - exists (mkProduct (oid 1) "Lamp" (25 # 1) "Home" 5 [img "c.jpg"; img "a.jpg"]).
    split; [|reflexivity].
    apply (proj2 (X23_stored_images_of_keep_list (rt := runtime)
                    (sv := services) keep_two world
                    (snd (updateProduct keep_two world))
                    keep_two_fields None
                    [img "c.jpg"; "http://evil.example/x.png"; img "a.jpg"]
                    "Product updated successfully"
                    (mkProduct (oid 1) "Lamp" (25 # 1) "Home" 5
                               [img "c.jpg"; img "a.jpg"]) eq_refl));
      try reflexivity.
    left. reflexivity.
Defined.

(** C4, as stated, fails: with the sort order [sideways], which is not one
    of the two known, the listing by price is in ascending order of the
    prices, [Lamp] (25) before [Desk] (120), and not in ascending order of
    the names. *)
Lemma C4_counterexample :
  q_sortBy (query by_price_sideways) = Some "price"
  /\ q_sortOrder (query by_price_sideways) = Some "sideways"
  /\ names_listed (fst (getProducts by_price_sideways world)) = ["Lamp"; "Desk"]
  /\ String.leb "Lamp" "Desk" = false.
Proof. repeat split; reflexivity. Qed.

(** The first four of the catalog by descending price. *)
Lemma C4_witness :
  sortable "price"
  /\ names_listed (fst (getProducts by_price_desc shop))
     = ["Ladder"; "Kettle"; "Jug"; "Iron"]
  /\ exists items,
       map name items = ["Ladder"; "Kettle"; "Jug"; "Iron"]
       /\ StronglySorted (fun a b => (price b <= price a)%Q) items.
Proof.
  assert (Hs : sortable "price") by (right; left; reflexivity).
  destruct (C4_getProducts_sorted (rt := runtime) (sv := services)
              by_price_desc shop 1 4 Hs eq_refl eq_refl
              ltac:(lia) ltac:(lia))
    as (items & pagination & Hrun & Hitems & _ & _ & Hsorted).
  split; [exact Hs|]. split; [reflexivity|].
  exists items. split; [rewrite Hitems; reflexivity | exact Hsorted].
Defined.


(** C6. The check of the price is [!price || price <= 0]: a price that is
    not a number, such as the text [abc], is not greater than 0 and yet
    passes, since it is not at most 0 either. Such a creation is not
    answered with the validation error that lists the price: the image file
    is sent to the media host, the store then refuses the document, and the
    answer is 500 [SERVER_ERROR]. *)
Theorem C6_non_numeric_price_is_not_reported :
  price_rule (JStr "abc") = false
  /\ failing_fields (JStr "Chair") (JStr "abc") (JStr "Home") (JStr "3")
     = ["price"]
  /\ createProduct create_priceless world
     = (Val (mkResponse 500 (Error "Server error" "SERVER_ERROR")),
        mkWorld store 2 ["/tmp/a.png"]).
Proof. repeat split; reflexivity. Qed.

(** A price of 0 and a stock of -1: both are reported, nothing is written. *)
Lemma X24_witness :
  createProduct (json_request "" bad_numbers) world
  = (Val (mkResponse 400
            (Errors "Validation error"
               [("price", "Price must be greater than 0");
                ("stock", "Stock must be 0 or greater")])), world).
Proof.
  assert (Ht : forall s, textual (JStr s)) by (intros s; right; eauto).
  assert (Hn : forall q, numeric (JNum (Fin q))) by (intros q; right; simpl; eauto).
  apply (proj1 (X24_createProduct_error_map (rt := runtime) (sv := services)
                  (json_request "" bad_numbers) world bad_numbers None
                  eq_refl (Ht _) (Hn _) (Ht _) (Hn _))).
  discriminate.
Defined.

(** A creation for a category that does not exist, with an image attached:
    the answer is the invalid category, the file is not uploaded. *)
Lemma C7_witness :
  findCategoryByName (trim "Toys") (categories (db world)) = None
  /\ createProduct create_toy world = (Val invalid_category, world)
  /\ uploads (snd (createProduct create_toy world)) = []
  /\ products (db (snd (createProduct create_toy world))) = [lamp; desk].
Proof.
  split; [reflexivity|].
  destruct (C7_createProduct_unknown_category (rt := runtime) (sv := services)
              create_toy world unknown_category
              (Some [mkFile (Some "image/png") "/tmp/a.png" "a.png"]) "Toys"
              eq_refl eq_refl eq_refl) as (_ & Hu & Hp & Hr).
  split; [apply Hr; reflexivity|]. split; [exact Hu | exact Hp].
Defined.



(** An update behind [protect], without a header, with a forged token, and
    with the token of a user that was removed. *)
Lemma C9_witness :
  (exists message,
     productRoutes PUT_products_id (with_header None) world
     = (Val (mkResponse 401 (Error message "UNAUTHORIZED")), world))
  /\ (exists message,
        productRoutes PUT_products_id (with_header (Some "Bearer forged")) world
        = (Val (mkResponse 401 (Error message "UNAUTHORIZED")), world))
  /\ (exists message,
        productRoutes PUT_products_id
          (with_header (Some "Bearer token-of-removed-user")) world
        = (Val (mkResponse 401 (Error message "UNAUTHORIZED")), world)).
Proof.
  split; [|split].
  - apply (C9_protect_rejects (sv := services)).
    left. left. reflexivity.
  - apply (C9_protect_rejects (sv := services)).
    right. left. exists "forged". split; reflexivity.
  - apply (C9_protect_rejects (sv := services)).
    right. right. exists "token-of-removed-user", (Some (oid 0xa9)).
    repeat split; reflexivity.
Defined.

(** C10, as stated, fails in its last part: two requests that are not
    multipart clear the three images of the product. *)
Lemma C10_counterexample :
  images_after (oid 1) world = Some [img "a.jpg"; img "b.jpg"; img "c.jpg"]
  /\ is_multipart useless_legacy = false
  /\ status_of (fst (updateProduct useless_legacy world)) = Some 200
  /\ images_after (oid 1) (snd (updateProduct useless_legacy world)) = Some []
  /\ is_multipart empty_keep_list = false
  /\ status_of (fst (updateProduct empty_keep_list world)) = Some 200
  /\ images_after (oid 1) (snd (updateProduct empty_keep_list world)) = Some [].
Proof. repeat split; reflexivity. Qed.

(** An update whose JSON body has an empty [images] list: the three images
    of the lamp stay. *)
Lemma C10_witness :
  is_multipart empty_legacy = false
  /\ f_images (body empty_legacy) = JArr []
  /\ f_existingImages (body empty_legacy) = JUndef
  /\ images_after (oid 1) (snd (updateProduct empty_legacy world))
     = Some [img "a.jpg"; img "b.jpg"; img "c.jpg"].
Proof.
  do 3 (split; [reflexivity|]).
  destruct (C10_empty_legacy_list_keeps_images (rt := runtime) (sv := services)
              empty_legacy world eq_refl eq_refl eq_refl) as [_ H].
  destruct (H lamp eq_refl) as (p' & Hp' & Hi).
  change (params_id empty_legacy) with (oid 1) in Hp'.
  unfold images_after. rewrite Hp'. simpl. now rewrite Hi.
Defined.

(** ** The other handlers at work *)

Import Accounts.

(** The public id of a stored image of the lamp. *)
Lemma X1_witness :
  has_char "/" "product-management" = false
  /\ has_char "." "product-management" = false
  /\ public_id (img "a.jpg") = "product-management/a".
Proof.
  do 2 (split; [reflexivity|]).
  exact (X1_public_id_of_hosted_url
           "https://res.cloudinary.com/demo/image/upload"
           "product-management" "a" "jpg"
           eq_refl eq_refl eq_refl eq_refl eq_refl).
Defined.


(** The chair is found under its id once it is created. *)
Lemma X3_witness :
  fresh_product_id (oid 3) (db world)
  /\ products (db with_chair) = [lamp; desk; chair]
  /\ getProduct (delete_request (oid 3)) with_chair
     = (Val (mkAnswer 200 (ProductFound chair)), with_chair).
Proof.
  assert (Hfresh : fresh_product_id (oid 3) (db world))
    by (intros p [<-|[<-|[]]]; discriminate).
  split; [exact Hfresh|].
  exact (X3_created_product_is_found (rt := runtime) (sv := services) create_chair (delete_request (oid 3))
           world with_chair "Product created successfully" chair
           eq_refl Hfresh eq_refl).
Defined.

(** The chair satisfies the schema and is in a stored category. *)
Lemma X4_witness :
  createProduct create_chair world
  = (Val (mkResponse 201 (ProductData "Product created successfully" chair)),
     with_chair)
  /\ product_valid chair
  /\ exists c, In c (categories (db world)) /\ cat_name c = "Home".
Proof.
  split; [reflexivity|].
  exact (X4_created_product_is_sound (rt := runtime) (sv := services) create_chair world with_chair
           "Product created successfully" chair eq_refl).
Defined.

(** Of the three files of the chair, the two images went to the media
    host, the second of which it refused. *)
Lemma X5_witness :
  createProduct create_chair world
  = (Val (mkResponse 201 (ProductData "Product created successfully" chair)),
     with_chair)
  /\ uploads with_chair = ["/tmp/a.png"; "/tmp/broken.png"].
Proof.
  split; [reflexivity|].
  destruct (X5_creation_uploads_image_files (rt := runtime) (sv := services) create_chair world with_chair
              "Product created successfully" chair eq_refl)
    as (fields & files & Hsub & Hlog).
  change (submitted create_chair) with (Some (chair_fields, chair_files))
    in Hsub.
  injection Hsub as <- <-. exact Hlog.
Defined.

(** The two products of the sample store satisfy the schema, and so do
    those left by a creation, an update and a deletion. *)
Lemma X6_witness :
  products_valid (db world)
  /\ products_valid (db with_chair)
  /\ products_valid (db (snd (updateProduct rename_lamp world)))
  /\ products_valid (db (snd (deleteProduct (delete_request (oid 1)) world))).
Proof.
  assert (Hvalid : products_valid (db world)).
  { repeat constructor; simpl; try lia; try discriminate. }
  split; [exact Hvalid|].
  split; [exact (proj1 (proj1 (X6_products_stay_valid (rt := runtime) (sv := services) create_chair world
                                 Hvalid)))|].
  split; [exact (proj1 (proj1 (proj2 (X6_products_stay_valid (rt := runtime) (sv := services) rename_lamp world
                                        Hvalid))))|].
  exact (proj1 (proj2 (proj2 (X6_products_stay_valid (rt := runtime) (sv := services) (delete_request (oid 1))
                                world Hvalid)))).
Defined.

(** Creating the category [Office], sent with white space around it. *)
Lemma X7_witness :
  f_name (body create_office) = JStr "  Office "
  /\ createCategory create_office world
     = (Val (mkAnswer 201 (CategoryData "Category created successfully" office)),
        with_category world office).
Proof.
  split; [reflexivity|].
  exact (proj1 (X7_createCategory_cases (sv := services) create_office world "  Office "
                  eq_refl)).
Defined.


(** The categories of the sample store, and those left by a creation, a
    rename and a deletion. *)
Lemma X9_witness :
  categories_valid (db world)
  /\ fresh_category_id (new_oid (created world)) (db world)
  /\ categories_valid (db (snd (createCategory create_office world)))
  /\ categories_valid (db (snd (updateCategory rename_garden world)))
  /\ categories_valid (db (snd (deleteCategory (delete_request (oid 0xc2)) world))).
Proof.
  assert (Hvalid : categories_valid (db world)).
  { repeat split; repeat constructor; simpl; intuition discriminate. }
  assert (Hfresh : fresh_category_id (new_oid (created world)) (db world))
    by (intros c [<-|[<-|[]]]; discriminate).
  split; [exact Hvalid|]. split; [exact Hfresh|].
  split; [exact (proj1 (X9_categories_stay_valid (sv := services) create_office world Hvalid)
                   Hfresh)|].
  split; [exact (proj1 (proj2 (X9_categories_stay_valid (sv := services) rename_garden world
                                 Hvalid)))|].
  exact (proj2 (proj2 (X9_categories_stay_valid (sv := services) (delete_request (oid 0xc2)) world
                         Hvalid))).
Defined.

(** Once the chair is stored, the category [Home] cannot be deleted. *)
Lemma X10_witness :
  createProduct create_chair world
  = (Val (mkResponse 201 (ProductData "Product created successfully" chair)),
     with_chair)
  /\ findById cat_id (oid 0xc1) (categories (db with_chair))
     = Some (mkCategory (oid 0xc1) "Home")
  /\ deleteCategory (delete_request (oid 0xc1)) with_chair
     = (Val (mkResponse 400
               (Error "Cannot delete category. Products are associated with this category"
                      "CATEGORY_IN_USE")), with_chair).
Proof.
  do 2 (split; [reflexivity|]).
  exact (proj2 (X10_category_of_new_product_is_kept (rt := runtime) (sv := services) create_chair world
                  with_chair "Product created successfully" chair eq_refl)
           (delete_request (oid 0xc1)) (mkCategory (oid 0xc1) "Home") eq_refl eq_refl).
Defined.

(** Creating the chair and deleting it again. *)
Lemma X11_witness :
  fresh_product_id (new_oid (created world)) (db world)
  /\ exists w'',
       deleteProduct (delete_request (oid 3)) with_chair
       = (Val (mkResponse 200 (Message "Product deleted successfully"),
               ["product-management/img0"; "product-management/q"]), w'')
       /\ products (db w'') = [lamp; desk].
Proof.
  assert (Hfresh : fresh_product_id (new_oid (created world)) (db world))
    by (intros p [<-|[<-|[]]]; discriminate).
  split; [exact Hfresh|].
  destruct (X11_create_then_delete_product (rt := runtime) (sv := services) create_chair (delete_request (oid 3))
              world with_chair "Product created successfully" chair
              eq_refl Hfresh eq_refl) as (w'' & Hrun & Hp & _).
  exists w''. split; [exact Hrun | exact Hp].
Defined.

(** Creating the category [Office] and deleting it again. *)
Lemma X12_witness :
  fresh_category_id (new_oid (created world)) (db world)
  /\ findProductByCategory "Office" (products (db world)) = None
  /\ exists w'',
       deleteCategory (delete_request (oid 3)) (with_category world office)
       = (Val (mkResponse 200 (Message "Category deleted successfully")), w'')
       /\ categories (db w'') = categories (db world).
Proof.
  assert (Hfresh : fresh_category_id (new_oid (created world)) (db world))
    by (intros c [<-|[<-|[]]]; discriminate).
  split; [exact Hfresh|]. split; [reflexivity|].
  destruct (X12_create_then_delete_category (sv := services) create_office
              (delete_request (oid 3)) world (with_category world office)
              "Category created successfully" office
              eq_refl Hfresh eq_refl eq_refl) as (w'' & Hrun & Hc & _).
  exists w''. split; [exact Hrun | exact Hc].
Defined.

(** The first page of one of the categories: [Garden] comes before
    [Home], and there are two pages. *)
Lemma X13_witness :
  pageNum_of (query (category_page "1" "1")) = Some 1
  /\ category_limit_of (query (category_page "1" "1")) = Some 1
  /\ exists items n,
       getCategories (category_page "1" "1") world
       = (Val (mkAnswer 200
                 (CategoryList items (mkPagination 1 (Some n) 2 1))), world)
       /\ nth_error items 0 = Some (mkCategory (oid 0xc2) "Garden")
       /\ nth_error items 1 = None
       /\ n = 2.
Proof.
  do 2 (split; [reflexivity|]).
  destruct (X13_getCategories_listing (rt := runtime) (sv := services)
              (category_page "1" "1") world 1 1 eq_refl eq_refl
              ltac:(lia) ltac:(lia))
    as (items & n & Hrun & _ & _ & Hnth & Hn).
  exists items, n. split; [exact Hrun|].
  split; [exact (Hnth 0%nat)|]. split; [exact (Hnth 1%nat)|].
  simpl in Hn. lia.
Defined.

(** Page 0 of five. *)
Lemma X14_witness :
  pageNum_of (query (category_page "0" "5")) = Some 0
  /\ getProducts (category_page "0" "5") world = (Val server_error, world)
  /\ getCategories (category_page "0" "5") world = (Val server_failure, world).
Proof.
  split; [reflexivity|].
  destruct (X14_listing_page_below_one (rt := runtime) (sv := services)
              (category_page "0" "5") world 0 eq_refl ltac:(lia))
    as [Hproducts Hcategories].
  split; [apply (Hproducts 5) | apply (Hcategories 5)];
    solve [reflexivity | lia].
Defined.

(** Page 3 with a page size of 0: everything is listed. *)
Lemma X15_witness :
  pageNum_of (query (category_page "3" "0")) = Some 3
  /\ getProducts (category_page "3" "0") world
     = (Val (mkResponse 200
               (ProductList [desk; lamp] (mkPagination 3 None 2 0))), world)
  /\ getCategories (category_page "3" "0") world
     = (Val (mkAnswer 200
               (CategoryList [mkCategory (oid 0xc2) "Garden"; mkCategory (oid 0xc1) "Home"]
                             (mkPagination 3 None 2 0))), world).
Proof.
  split; [reflexivity|].
  destruct (X15_listing_page_size_zero (rt := runtime) (sv := services)
              (category_page "3" "0") world 3 eq_refl)
    as [Hproducts Hcategories].
  split; [exact (Hproducts eq_refl) | exact (Hcategories eq_refl)].
Defined.

(** The administrator logs in; and so does a body that names nobody, with
    an operator object in place of the username and the password of the
    first user. *)
Lemma X16_witness :
  login good_login world
  = (Val (mkAnswer 200 (LoginData "Login successful" "token-of-admin" admin)),
     world)
  /\ login any_username world
     = (Val (mkAnswer 200 (LoginData "Login successful" "token-of-admin" admin)),
        world)
  /\ (exists pw user,
        l_password good_login = JStr pw
        /\ In user (users (db world))
        /\ bcrypt_compare pw (stored_password user) = true
        /\ username user = trim " admin ")
  /\ (exists pw user test,
        l_password any_username = JStr pw
        /\ bcrypt_compare pw (stored_password user) = true
        /\ username_condition (l_username any_username) = Some test
        /\ find (fun u => test (username u)) (users (db world)) = Some user).
Proof.
  do 2 (split; [reflexivity|]). split.
  - destruct (X16_login_accepts_only_matching_password (cr := credentials)
                good_login world world _ eq_refl)
      as (pw & user & Hpw & _ & Hin & Hmatch & _ & _ & Hname & _).
    exists pw, user. repeat split; auto. exact (proj2 (Hname _ eq_refl)).
  - destruct (X16_login_accepts_only_matching_password (cr := credentials)
                any_username world world _ eq_refl)
      as (pw & user & Hpw & _ & Hin & Hmatch & _ & _ & _ & Hother).
    destruct (Hother ltac:(discriminate)) as (test & Htest & Hfind).
    exists pw, user, test. auto.
Defined.

(** An unknown username and a wrong password get the same answer; a number
    as password is answered 500 for the administrator and 401 for a
    username that is not stored. *)
Lemma X17_witness :
  login unknown_user world = (Val invalid_credentials, world)
  /\ login wrong_password world = login unknown_user world
  /\ login numeric_password world = (Val server_failure, world)
  /\ login numeric_password_unknown world = (Val invalid_credentials, world).
Proof.
  destruct (X17_login_failures (cr := credentials)
              unknown_user wrong_password world
              (fun stored => String.eqb stored "nobody")
              (fun stored => String.eqb stored "admin") admin
              eq_refl eq_refl eq_refl eq_refl
              eq_refl eq_refl eq_refl eq_refl) as (Hunknown & Halike & _).
  destruct (X17_login_failures (cr := credentials)
              numeric_password_unknown numeric_password world
              (fun stored => String.eqb stored "nobody")
              (fun stored => String.eqb stored "admin") admin
              eq_refl eq_refl eq_refl eq_refl
              eq_refl eq_refl eq_refl eq_refl) as (Hnone & _ & Hthrows & _).
  split; [exact Hunknown|].
  split; [exact (Halike "letmein" eq_refl eq_refl)|].
  split; [apply Hthrows; discriminate | exact Hnone].
Defined.

(** The administrator logs in and asks for the profile. *)
Lemma X18_witness :
  login good_login world
  = (Val (mkAnswer 200 (LoginData "Login successful" "token-of-admin" admin)),
     world)
  /\ jwt_verify "token-of-admin" = Some (Some (user_id admin))
  /\ authorization as_admin = Some "Bearer token-of-admin"
  /\ authRoutes GET_me as_admin world
     = (Val (mkAnswer 200 (Profile admin)), world).
Proof.
  do 3 (split; [reflexivity|]).
  refine (proj2 (X18_login_then_me (sv := services) (cr := credentials)
                   good_login as_admin world world
                   "Login successful" "token-of-admin" admin
                   eq_refl _ ltac:(discriminate) eq_refl eq_refl eq_refl)).
  repeat constructor. simpl. intuition.
Defined.

(** The administrator logs out, and the token is still good. *)
Lemma X19_witness :
  protect as_admin world = (Val (inr admin), world)
  /\ authRoutes POST_logout as_admin world
     = (Val (mkAnswer 200 (Plain (Message "Logout successful"))), world)
  /\ authRoutes GET_me as_admin (snd (authRoutes POST_logout as_admin world))
     = (Val (mkAnswer 200 (Profile admin)), world).
Proof.
  split; [reflexivity|].
  exact (X19_logout_keeps_token_valid (sv := services) (cr := credentials)
           as_admin world world admin eq_refl).
Defined.

(** The ids of the sample store, after a creation, an update and a
    deletion. *)
Lemma X20_witness :
  NoDup (map _id (products (db world)))
  /\ fresh_product_id (new_oid (created world)) (db world)
  /\ NoDup (map _id (products (db with_chair)))
  /\ map _id (products (db (snd (updateProduct rename_lamp world))))
     = [(oid 1); (oid 2)]
  /\ NoDup (map _id (products (db (snd (deleteProduct (delete_request (oid 1))
                                                      world))))).
Proof.
  assert (Hnd : NoDup (map _id (products (db world)))).
  { repeat constructor; simpl; intuition discriminate. }
  assert (Hfresh : fresh_product_id (new_oid (created world)) (db world))
    by (intros p [<-|[<-|[]]]; discriminate).
  split; [exact Hnd|]. split; [exact Hfresh|].
  split; [exact (proj1 (X20_product_ids_stay_distinct (rt := runtime)
                          (sv := services) create_chair world Hnd) Hfresh)|].
  split; [exact (proj1 (proj2 (X20_product_ids_stay_distinct (rt := runtime)
                                 (sv := services) rename_lamp world Hnd)))|].
  exact (proj2 (proj2 (X20_product_ids_stay_distinct (rt := runtime)
                         (sv := services) (delete_request (oid 1)) world Hnd))).
Defined.

(** A creation with an image file for a category that does not exist, and
    an update of a product that does not exist: nothing is uploaded. *)
Lemma X21_witness :
  createProduct create_toy world = (Val invalid_category, world)
  /\ status invalid_category = 400
  /\ updateProduct update_missing world
     = (Val (not_found "Product not found"), world)
  /\ snd (createProduct create_toy world) = world
  /\ snd (updateProduct update_missing world) = world.
Proof.
  do 3 (split; [reflexivity|]). split.
  - exact (proj1 (X21_refused_requests_change_nothing (rt := runtime)
                    (sv := services) create_toy world
                    (snd (createProduct create_toy world)) invalid_category)
             eq_refl eq_refl).
  - exact (proj2 (X21_refused_requests_change_nothing (rt := runtime)
                    (sv := services) update_missing world
                    (snd (updateProduct update_missing world))
                    (not_found "Product not found"))
             eq_refl (or_intror eq_refl)).
Defined.

(** Renaming [Home] to [House]: the lamp and the desk still say [Home],
    which is no category any more. *)
Lemma X22_witness :
  updateCategory rename_home world
  = (Val (mkAnswer 200
            (CategoryData "Category updated successfully"
                          (mkCategory (oid 0xc1) "House"))),
     with_renamed world (mkCategory (oid 0xc1) "House"))
  /\ category lamp = "Home"
  /\ findCategoryByName (category lamp)
       (categories (db (with_renamed world (mkCategory (oid 0xc1) "House")))) = None.
Proof.
  do 2 (split; [reflexivity|]).
  refine (proj2 (X22_rename_leaves_products_behind rename_home world
                   (with_renamed world (mkCategory (oid 0xc1) "House"))
                   "Category updated successfully"
                   (mkCategory (oid 0xc1) "House") (mkCategory (oid 0xc1) "Home")
                   eq_refl _ eq_refl ltac:(discriminate))
            lamp (or_introl eq_refl) eq_refl).
  repeat constructor; simpl; intuition discriminate.
Defined.

